(** * AI image classifier: a shallow embedding of [projects/ai_image_classifier.py]

    The classifier preprocesses an image tensor, threads it through four
    [CNNLayer]s and ranks the resulting class-probability vector.

    Conventions of the embedding:
    - a numpy array is a shape together with its row-major buffer;
    - numpy's floating-point samples are idealised as real numbers ([R]):
      arithmetic is exact, and infinities and NaN are outside the model;
      the one conversion the program asks for, [astype(np.float32)], is
      modelled with its rounding to 24 significant bits;
    - Python exceptions are the left summand of [result]; a call that
      raises returns no state, so what a failed call leaves behind in the
      objects it was mutating is not modelled;
    - the two sources of non-determinism, [np.random] and [datetime.now],
      live in an explicit [World] that is passed through the calls. *)

From Stdlib Require Import String Ascii ZArith Reals Lra Lia Bool Arith.
From Stdlib Require Import List Permutation Sorted.
Import ListNotations.
Local Open Scope string_scope.
Local Open Scope list_scope.
Local Open Scope nat_scope.

(** ** Python runtime: exceptions, the outside world, the two monads *)

Inductive exn : Type := ValueError | IndexError | TypeError.

Definition result (A : Type) : Type := (exn + A)%type.

Definition ok {A : Type} (a : A) : result A := inr a.

Definition throw {A : Type} (e : exn) : result A := inl e.

Definition rbind {A B : Type} (m : result A) (k : A -> result B) : result B :=
  match m with
  | inl e => inl e
  | inr a => k a
  end.

(** [gauss] is the stream of unit-normal samples [np.random.randn] will
    hand out and [drawn] how many were consumed; [wall_clock] gives the
    text [datetime.now().isoformat()] returns at its [ticks]-th call. *)
Record World : Type := mkWorld {
  gauss : nat -> R;
  drawn : nat;
  wall_clock : nat -> string;
  ticks : nat
}.

Definition M (A : Type) : Type := World -> result (A * World).

Definition ret {A : Type} (a : A) : M A := fun w => inr (a, w).

Definition bind {A B : Type} (m : M A) (k : A -> M B) : M B :=
  fun w => match m w with
           | inl e => inl e
           | inr (a, w') => k a w'
           end.

Definition lift {A : Type} (r : result A) : M A :=
  fun w => match r with
           | inl e => inl e
           | inr a => inr (a, w)
           end.

Declare Scope py_scope.
Delimit Scope py_scope with py.
Notation "x <- m ;; k" := (bind m (fun x => k))
  (at level 61, m at next level, right associativity) : py_scope.
Notation "x <-? m ;; k" := (rbind m (fun x => k))
  (at level 61, m at next level, right associativity) : py_scope.
Local Open Scope py_scope.

(** [for a in l: s = body(s, a)], in either monad. *)
Fixpoint for_each {A S : Type} (l : list A) (body : S -> A -> M S) (s : S) : M S :=
  match l with
  | [] => ret s
  | a :: t => s' <- body s a ;; for_each t body s'
  end.

Fixpoint rfor_each {A S : Type} (l : list A) (body : S -> A -> result S) (s : S)
  : result S :=
  match l with
  | [] => ok s
  | a :: t => s' <-? body s a ;; rfor_each t body s'
  end.

(** [range(n)] for a Python int: empty when [n <= 0]. *)
Definition py_range (n : Z) : list nat := seq 0 (Z.to_nat n).

(** [l[i]] on a Python list, for an index that is not negative. *)
Definition list_getitem {A : Type} (l : list A) (i : nat) : result A :=
  match nth_error l i with
  | Some a => ok a
  | None => throw IndexError
  end.

(** Start offset of the slice [l[start:]] on a sequence of length [len]. *)
Definition slice_start (len : nat) (start : Z) : nat :=
  if (start <? 0)%Z then Z.to_nat (Z.max (Z.of_nat len + start) 0)
  else Nat.min (Z.to_nat start) len.

(** End offset of the slice [l[:stop]] on a sequence of length [len]. *)
Definition slice_stop (len : nat) (stop : Z) : nat :=
  if (stop <? 0)%Z then Z.to_nat (Z.max (Z.of_nat len + stop) 0)
  else Nat.min (Z.to_nat stop) len.

(** [l[start:]] *)
Definition py_slice_from {A : Type} (start : Z) (l : list A) : list A :=
  skipn (slice_start (length l) start) l.

(** [l[::-1]] *)
Definition py_reversed {A : Type} (l : list A) : list A := rev l.

(** [datetime.now().isoformat()] *)
Definition datetime_now_isoformat : M string :=
  fun w => inr (wall_clock w (ticks w),
                mkWorld (gauss w) (drawn w) (wall_clock w) (S (ticks w))).

(** ** numpy arrays *)

Record ndarray : Type := mkArray {
  shape : list nat;
  data : list R
}.

Definition prod_dims (s : list nat) : nat := fold_right Nat.mul 1 s.

Definition ndim (a : ndarray) : nat := length (shape a).

Definition well_formed (a : ndarray) : Prop :=
  length (data a) = prod_dims (shape a).

(** Number of positions in front of the trailing axis, and its length. *)
Definition positions (a : ndarray) : nat := prod_dims (removelast (shape a)).

Definition channels (a : ndarray) : nat := last (shape a) 0.

(** The buffer cut into [n] consecutive rows of [c] entries. *)
Fixpoint chunk (c n : nat) (d : list R) : list (list R) :=
  match n with
  | 0 => []
  | S n' => firstn c d :: chunk c n' (skipn c d)
  end.

(** The vectors along the trailing axis, one per position. *)
Definition rows_of (a : ndarray) : list (list R) :=
  chunk (channels a) (positions a) (data a).

Definition sum_list (l : list R) : R := fold_right Rplus 0%R l.

Definition max_list (l : list R) : R :=
  match l with
  | [] => 0%R
  | v :: t => fold_left Rmax t v
  end.

(** A requested shape is accepted when no dimension is negative. *)
Definition check_dims (dims : list Z) : result (list nat) :=
  if forallb (fun d => (0 <=? d)%Z) dims then ok (map Z.to_nat dims)
  else throw ValueError.

(** [np.zeros(dims)] *)
Definition np_zeros (dims : list Z) : result ndarray :=
  s <-? check_dims dims ;;
  ok (mkArray s (repeat 0%R (prod_dims s))).

(** [np.random.randn(d0, d1, ...)]: takes the next samples of the world. *)
Definition np_random_randn (dims : list Z) : M ndarray :=
  s <- lift (check_dims dims) ;;
  fun w =>
    let n := prod_dims s in
    inr (mkArray s (map (fun i => gauss w (drawn w + i)) (seq 0 n)),
         mkWorld (gauss w) (drawn w + n) (wall_clock w) (ticks w)).

(** [a * k] for a scalar [k] *)
Definition np_scale (a : ndarray) (k : R) : ndarray :=
  mkArray (shape a) (map (fun v => (v * k)%R) (data a)).

(** [a / k] for a scalar [k] *)
Definition np_divide (a : ndarray) (k : R) : ndarray :=
  mkArray (shape a) (map (fun v => (v / k)%R) (data a)).

(** *** The conversion [astype(np.float32)]

    A binary32 value has 24 significant bits and an exponent between -126
    and 127; below [2^-126] the values are subnormal and keep the spacing
    [2^-149] of the lowest binade.  The conversion takes a sample to the
    nearest such value, a tie going to the one with the even significand. *)

(** Round to the nearest integer, a tie going to the even neighbour. *)
Definition round_half_even (x : R) : Z :=
  let n := Zfloor x in
  let rest := (x - IZR n)%R in
  if Rlt_dec rest (1 / 2) then n
  else if Rlt_dec (1 / 2) rest then (n + 1)%Z
  else if Z.even n then n else (n + 1)%Z.

(** The exponent [e] of the binade [2^e <= a < 2^(e+1)] that holds [a],
    searched upwards from [e] in at most [fuel] steps. *)
Fixpoint binade_from (fuel : nat) (e : Z) (a : R) : Z :=
  match fuel with
  | 0 => e
  | S fuel' =>
      if Rlt_dec a (powerRZ 2 (e + 1)) then e
      else binade_from fuel' (e + 1)%Z a
  end.

(** The binary32 exponent of a sample, between -126 and 127. *)
Definition float32_exponent (v : R) : Z := binade_from 253 (-126) (Rabs v).

(** The spacing of the binary32 values around a sample. *)
Definition float32_ulp (v : R) : R := powerRZ 2 (float32_exponent v - 23).

(** One sample through [astype(np.float32)].  Beyond the largest binary32
    value numpy stores an infinity, which the real numbers do not have:
    there this function goes on rounding to 24 bits, and what is stated of
    it is stated for samples up to [float32_max]. *)
Definition astype_float32 (v : R) : R :=
  (IZR (round_half_even (v / float32_ulp v)) * float32_ulp v)%R.


(** [a.astype(np.float32)] *)
Definition np_astype_float32 (a : ndarray) : ndarray :=
  mkArray (shape a) (map astype_float32 (data a)).

(** [np.resize(a, new_shape)]: the flattened source is repeated until the
    new shape is filled; an empty source or target gives zeros. *)
Definition np_resize (a : ndarray) (new_shape : list Z) : result ndarray :=
  s <-? check_dims new_shape ;;
  let new_size := prod_dims s in
  let a_size := length (data a) in
  if (a_size =? 0) || (new_size =? 0) then
    ok (mkArray s (repeat 0%R new_size))
  else
    let repeats := (new_size + a_size - 1) / a_size in
    ok (mkArray s (firstn new_size (concat (repeat (data a) repeats)))).

(** [a.flatten()] *)
Definition np_flatten (a : ndarray) : ndarray :=
  mkArray [length (data a)] (data a).

(** [a[:stop]], a slice of the first axis. *)
Definition np_slice_to (a : ndarray) (stop : Z) : result ndarray :=
  match shape a with
  | [] => throw IndexError
  | d :: rest =>
      let k := slice_stop d stop in
      ok (mkArray (k :: rest) (firstn (k * prod_dims rest) (data a)))
  end.

(** [a[i]] on a one-dimensional array, [i] not negative. *)
Definition np_item (a : ndarray) (i : nat) : result R :=
  match nth_error (data a) i with
  | Some v => ok v
  | None => throw IndexError
  end.

(** [np.sum(a, axis=-1)].  A reduction lets the axis -1 through on a
    zero-dimensional array, which has nothing to reduce and is returned as
    it is. *)
Definition np_sum_last (a : ndarray) : result ndarray :=
  match shape a with
  | [] => ok a
  | _ :: _ => ok (mkArray (removelast (shape a)) (map sum_list (rows_of a)))
  end.

(** [np.sum(a, axis=-1, keepdims=True)] *)
Definition np_sum_last_keepdims (a : ndarray) : result ndarray :=
  match shape a with
  | [] => ok a
  | _ :: _ =>
      ok (mkArray (removelast (shape a) ++ [1]) (map sum_list (rows_of a)))
  end.

(** [np.max(a, axis=-1, keepdims=True)]: a reduction without identity,
    refused over an axis of length zero. *)
Definition np_max_last_keepdims (a : ndarray) : result ndarray :=
  match shape a with
  | [] => ok a
  | _ :: _ =>
      if channels a =? 0 then throw ValueError
      else ok (mkArray (removelast (shape a) ++ [1]) (map max_list (rows_of a)))
  end.

(** [a op m] where [m] has the shape of [a] with a trailing axis of length
    one (the result of a [keepdims] reduction of an array shaped like [a]):
    every row of [a] meets the single value [m] holds at that position. *)
Definition broadcast_last (op : R -> R -> R) (a m : ndarray) : ndarray :=
  mkArray (shape a)
    (concat (map (fun rv => map (fun u => op u (snd rv)) (fst rv))
                 (combine (rows_of a) (data m)))).

(** [np.exp(a)] *)
Definition np_exp (a : ndarray) : ndarray :=
  mkArray (shape a) (map exp (data a)).

(** [np.maximum(0, a)] *)
Definition np_maximum0 (a : ndarray) : ndarray :=
  mkArray (shape a) (map (Rmax 0) (data a)).

(** [list[i] = v] inside a row. *)
Fixpoint set_nth (i : nat) (v : R) (row : list R) : list R :=
  match row, i with
  | [], _ => []
  | _ :: t, 0 => v :: t
  | u :: t, S i' => u :: set_nth i' v t
  end.

(** [a[..., i] = vals]: channel [i] of every position receives the value
    [vals] holds for that position. *)
Definition np_assign_channel (a : ndarray) (i : nat) (vals : ndarray) : ndarray :=
  mkArray (shape a)
    (concat (map (fun rv => set_nth i (snd rv) (fst rv))
                 (combine (rows_of a) (data vals)))).

(** [np.argmax] scans left to right and keeps the first maximum. *)
Fixpoint argmax_from (best_i : nat) (best : R) (i : nat) (l : list R) : nat :=
  match l with
  | [] => best_i
  | v :: t =>
      if Rlt_dec best v then argmax_from i v (S i) t
      else argmax_from best_i best (S i) t
  end.

(** [np.argmax(a)] *)
Definition np_argmax (a : ndarray) : result nat :=
  match data a with
  | [] => throw ValueError
  | v :: t => ok (argmax_from 0 v 1 t)
  end.

(** What [np.argsort] promises on a one-dimensional array: the indices of
    the array, each once, in an order along which the values do not
    decrease.  The order among equal values is left to the algorithm. *)
Definition argsort_ok (argsort : list R -> list nat) : Prop :=
  forall v, Permutation (argsort v) (seq 0 (length v)) /\
            StronglySorted (fun i j => (nth i v 0 <= nth j v 0)%R) (argsort v).

(** The insertion sort numpy's default [argsort] runs on short arrays (up
    to sixteen elements): index [i] is placed behind every index whose
    value is not larger, so equal values keep their index order. *)
Fixpoint insert_index (v : list R) (i : nat) (sorted : list nat) : list nat :=
  match sorted with
  | [] => [i]
  | j :: t =>
      if Rlt_dec (nth i v 0%R) (nth j v 0%R) then i :: sorted
      else j :: insert_index v i t
  end.

Definition insertion_argsort (v : list R) : list nat :=
  fold_left (fun sorted i => insert_index v i sorted) (seq 0 (length v)) [].

(** ** The program *)

(** [@dataclass class Prediction] *)
Record Prediction : Type := mkPrediction {
  class_name : string;
  confidence : R;
  timestamp : string
}.

(** *** [class ImagePreprocessor] *)

Module ImagePreprocessor.

(** [image.astype(np.float32) / 255.0] *)
Definition normalize (image : ndarray) : ndarray :=
  np_divide (np_astype_float32 image) 255.

(** [np.resize(image, (h, w, image.shape[2] if len(image.shape) > 2 else 1))]
    where [size] unpacks to the pair of ints [h, w]. *)
Definition resize (image : ndarray) (size : Z * Z) : result ndarray :=
  np_resize image
    [fst size; snd size;
     if 2 <? ndim image then Z.of_nat (nth 2 (shape image) 0) else 1%Z].

Definition default_target_size : Z * Z := (224, 224)%Z.

Definition preprocess (image : ndarray) (target_size : Z * Z) : result ndarray :=
  processed <-? resize image target_size ;;
  ok (normalize processed).

End ImagePreprocessor.

(** *** [class CNNLayer] *)

Module CNNLayer.

Record t : Type := mk {
  filters : Z;
  kernel_size : Z;
  activation : string;
  weights : option ndarray;
  bias : option ndarray
}.

Definition __init__ (filters kernel_size : Z) (activation : string) : result t :=
  ok (mk filters kernel_size activation None None).

(** [x.shape[-1]] *)
Definition shape_last (x : ndarray) : result nat :=
  match shape x with
  | [] => throw IndexError
  | _ :: _ => ok (channels x)
  end.

(** [self.bias[i]] *)
Definition bias_item (self : t) (i : nat) : result R :=
  match bias self with
  | None => throw TypeError
  | Some b => np_item b i
  end.

(** First part of [forward]: [if self.weights is None: ...]. *)
Definition materialize (self : t) (x : ndarray) : M t :=
  match weights self with
  | None =>
      c <- lift (shape_last x) ;;
      w <- np_random_randn
             [filters self; Z.of_nat c; kernel_size self; kernel_size self] ;;
      b <- lift (np_zeros [filters self]) ;;
      ret (mk (filters self) (kernel_size self) (activation self)
              (Some (np_scale w 0.1)) (Some b))
  | Some _ => ret self
  end.

(** Second part of [forward], the value of [output] before the activation:
    [output] starts as zeros of shape [x.shape[:-1]] extended by
    [self.filters], followed by
    [for i in range(self.filters):
         output[..., i] = np.sum(x, axis=-1) * 0.1 + self.bias[i]]. *)
Definition linear (self : t) (x : ndarray) : result ndarray :=
  output <-? np_zeros (map Z.of_nat (removelast (shape x)) ++ [filters self]) ;;
  rfor_each (py_range (filters self))
    (fun output i =>
       s <-? np_sum_last x ;;
       b <-? bias_item self i ;;
       ok (np_assign_channel output i
             (mkArray (shape s) (map (fun v => (v * 0.1 + b)%R) (data s)))))
    output.

(** Third part of [forward]: the activation selected by name. *)
Definition activate (self : t) (output : ndarray) : result ndarray :=
  if String.eqb (activation self) "relu" then
    ok (np_maximum0 output)
  else if String.eqb (activation self) "softmax" then
    m <-? np_max_last_keepdims output ;;
    let exp := np_exp (broadcast_last Rminus output m) in
    s <-? np_sum_last_keepdims exp ;;
    ok (broadcast_last Rdiv exp s)
  else ok output.

(** [forward] returns the layer as the call leaves it, and the output. *)
Definition forward (self : t) (x : ndarray) : M (t * ndarray) :=
  self <- materialize self x ;;
  output <- lift (linear self x) ;;
  output <- lift (activate self output) ;;
  ret (self, output).

End CNNLayer.

(** *** [class AIImageClassifier] *)

(** The dictionary [analyze_image] returns. *)
Record Report : Type := mkReport {
  primary_prediction : string * R;
  all_predictions : list (string * R);
  model_info : Z * string * nat;
  report_timestamp : string
}.

Module AIImageClassifier.

(** The fields [preprocessor] (an object without state) and
    [training_history] (a list nothing reads or appends to) are left out. *)
Record t : Type := mk {
  num_classes : Z;
  classes : list string;
  model : list CNNLayer.t
}.

Definition CLASSES : list string :=
  ["Airplane"; "Automobile"; "Bird"; "Cat"; "Deer";
   "Dog"; "Frog"; "Horse"; "Ship"; "Truck"].

Definition _build_model (num_classes : Z) : result (list CNNLayer.t) :=
  l1 <-? CNNLayer.__init__ 32 3 "relu" ;;
  l2 <-? CNNLayer.__init__ 64 3 "relu" ;;
  l3 <-? CNNLayer.__init__ 128 3 "relu" ;;
  l4 <-? CNNLayer.__init__ num_classes 1 "softmax" ;;
  ok [l1; l2; l3; l4].

Definition __init__ (num_classes : Z) : result t :=
  model <-? _build_model num_classes ;;
  ok (mk num_classes CLASSES model).

(** [for layer in self.model: x = layer.forward(x)]; the layers come back
    as the calls left them. *)
Fixpoint forward_layers (layers : list CNNLayer.t) (x : ndarray)
  : M (list CNNLayer.t * ndarray) :=
  match layers with
  | [] => ret ([], x)
  | layer :: rest =>
      lx <- CNNLayer.forward layer x ;;
      rx <- forward_layers rest (snd lx) ;;
      ret (fst lx :: fst rx, snd rx)
  end.

(** The lines [predict] and [get_top_predictions] share: preprocess, run
    the layers, flatten, keep the first [num_classes] entries. *)
Definition class_scores (self : t) (image : ndarray) : M (t * ndarray) :=
  processed <- lift (ImagePreprocessor.preprocess image
                       ImagePreprocessor.default_target_size) ;;
  mx <- forward_layers (model self) processed ;;
  let x := snd mx in
  let predictions := if 1 <? ndim x then np_flatten x else x in
  predictions <- lift (np_slice_to predictions (num_classes self)) ;;
  ret (mk (num_classes self) (classes self) (fst mx), predictions).

Definition predict (self : t) (image : ndarray) : M (t * Prediction) :=
  sp <- class_scores self image ;;
  let self := fst sp in
  let predictions := snd sp in
  class_idx <- lift (np_argmax predictions) ;;
  confidence <- lift (np_item predictions class_idx) ;;
  name <- lift (if class_idx <? length (classes self)
                then list_getitem (classes self) class_idx
                else ok "Unknown") ;;
  now <- datetime_now_isoformat ;;
  ret (self, mkPrediction name confidence now).

Fixpoint predict_batch (self : t) (images : list ndarray)
  : M (t * list Prediction) :=
  match images with
  | [] => ret (self, [])
  | img :: rest =>
      sp <- predict self img ;;
      sr <- predict_batch (fst sp) rest ;;
      ret (fst sr, snd sp :: snd sr)
  end.

Section Ranking.

(** [np.argsort] on a one-dimensional array. *)
Variable argsort : list R -> list nat.

Definition get_top_predictions (self : t) (image : ndarray) (top_k : Z)
  : M (t * list Prediction) :=
  sp <- class_scores self image ;;
  let self := fst sp in
  let predictions := snd sp in
  let top_indices :=
    py_reversed (py_slice_from (- top_k) (argsort (data predictions))) in
  results <- for_each top_indices
    (fun results idx =>
       if idx <? length (classes self) then
         name <- lift (list_getitem (classes self) idx) ;;
         conf <- lift (np_item predictions idx) ;;
         now <- datetime_now_isoformat ;;
         ret (results ++ [mkPrediction name conf now])
       else ret results)
    [] ;;
  ret (self, results).

Definition analyze_image (self : t) (image : ndarray) : M (t * Report) :=
  st <- get_top_predictions self image 3 ;;
  let self := fst st in
  let top_predictions := snd st in
  first <- lift (list_getitem top_predictions 0) ;;
  now <- datetime_now_isoformat ;;
  ret (self,
       mkReport (class_name first, confidence first)
                (map (fun p => (class_name p, confidence p)) top_predictions)
                (num_classes self, "CNN", length (model self))
                now).

End Ranking.

End AIImageClassifier.

(** ** Vocabulary of the statements *)

(** The row the loop of [CNNLayer.linear] has built at one position after
    [k] of its [f] passes, from the input row [r] and the bias buffer [b]:
    channels below [k] are written, the others still hold zero. *)
Definition affine_row (b : list R) (k f : nat) (r : list R) : list R :=
  map (fun i => (sum_list r * 0.1 + nth i b 0)%R) (seq 0 k)
  ++ repeat 0%R (f - k).

(** The numerically stable softmax of one vector, as the specification
    words it: subtract the maximum, exponentiate, divide by the sum. *)
Definition stable_softmax (r : list R) : list R :=
  let m := max_list r in
  let e := map (fun u => exp (u - m)) r in
  map (fun u => (u / sum_list e)%R) e.

(** The softmax branch of [CNNLayer.activate] on its own. *)
Definition softmax_layer (filters kernel_size : Z) : CNNLayer.t :=
  CNNLayer.mk filters kernel_size "softmax" None None.

(** A forward call may write [weights] and [bias] but keeps the rest. *)
Definition same_hyperparameters (l l' : CNNLayer.t) : Prop :=
  CNNLayer.filters l' = CNNLayer.filters l /\
  CNNLayer.kernel_size l' = CNNLayer.kernel_size l /\
  CNNLayer.activation l' = CNNLayer.activation l.

(** A layer whose parameters, when present, include a bias with one entry
    per output channel (set by a first call, or injected). *)
Definition bias_fits (l : CNNLayer.t) : Prop :=
  match CNNLayer.weights l with
  | None => True
  | Some _ => exists b, CNNLayer.bias l = Some b /\
                        length (data b) = Z.to_nat (CNNLayer.filters l)
  end.

(** A layer in a state the code itself produces: as constructed, or after
    a first forward call gave it weights and a bias of zeros. *)
Definition zero_bias (l : CNNLayer.t) : Prop :=
  match CNNLayer.weights l with
  | None => True
  | Some _ => exists b, CNNLayer.bias l = Some b /\
                        data b = repeat 0%R (Z.to_nat (CNNLayer.filters l))
  end.

(** The value [CNNLayer.linear] computes, written position by position:
    channel [i] of the row at a position is the sum of the input row there,
    times the mixing coefficient, plus [bias[i]]. *)
Definition linear_image (f : nat) (b : list R) (x : ndarray) : ndarray :=
  mkArray (removelast (shape x) ++ [f])
    (concat (map (fun r => map (fun i => (sum_list r * 0.1 + nth i b 0)%R)
                               (seq 0 f))
                 (rows_of x))).

(** A layer with the given hyperparameters, in a state the code produces. *)
Definition layer_matches (f k : Z) (act : string) (l : CNNLayer.t) : Prop :=
  CNNLayer.filters l = f /\ CNNLayer.kernel_size l = k /\
  CNNLayer.activation l = act /\ zero_bias l.

(** The classifiers the code can produce for [num_classes = n]: the one
    [__init__] builds, and what it becomes as calls materialise layers. *)
Definition classifier_state (n : Z) (c : AIImageClassifier.t) : Prop :=
  AIImageClassifier.num_classes c = n /\
  AIImageClassifier.classes c = AIImageClassifier.CLASSES /\
  exists l1 l2 l3 l4,
    AIImageClassifier.model c = [l1; l2; l3; l4] /\
    layer_matches 32 3 "relu" l1 /\
    layer_matches 64 3 "relu" l2 /\
    layer_matches 128 3 "relu" l3 /\
    layer_matches n 1 "softmax" l4.

(** [k] is the argmax of [l] as numpy defines it: an index of a largest
    entry, and the first such index. *)
Definition first_maximum (l : list R) (k : nat) : Prop :=
  k < length l /\
  (forall j, j < length l -> (nth j l 0 <= nth k l 0)%R) /\
  (forall j, j < k -> (nth j l 0 < nth k l 0)%R).

(** The vector [predict] ranks: the flattened output of the layer stack,
    cut by the slice [[:num_classes]]. *)
Definition truncated_scores (num_classes : Z) (x : ndarray) : list R :=
  firstn (slice_stop (length (data (np_flatten x))) num_classes)
         (data (np_flatten x)).

(** An image whose samples lie in the pixel range. *)
Definition pixel_range (image : ndarray) : Prop :=
  Forall (fun v => (0 <= v <= 255)%R) (data image).

(** The world after one more reading of the clock. *)
Definition tick (w : World) : World :=
  mkWorld (gauss w) (drawn w) (wall_clock w) (S (ticks w)).

(** The indices [get_top_predictions] walks through, best first. *)
Definition top_indices (argsort : list R -> list nat) (p : list R) (top_k : Z)
  : list nat :=
  py_reversed (py_slice_from (- top_k) (argsort p)).

(** Those of them that name a class: the others are skipped. *)
Definition kept_indices (classes : list string) (idxs : list nat) : list nat :=
  filter (fun i => i <? length classes) idxs.

(** ** Concrete values for the examples *)

(** What [AIImageClassifier(num_classes=n)] constructs. *)
Definition classifier_of (n : Z) : AIImageClassifier.t :=
  AIImageClassifier.mk n AIImageClassifier.CLASSES
    [CNNLayer.mk 32 3 "relu" None None;
     CNNLayer.mk 64 3 "relu" None None;
     CNNLayer.mk 128 3 "relu" None None;
     CNNLayer.mk n 1 "softmax" None None].

(** A classifier whose last layer has been given parameters, with the bias
    [b]: its scores are no longer the same for every class. *)
Definition biased_classifier (n : Z) (b : list R) : AIImageClassifier.t :=
  AIImageClassifier.mk n AIImageClassifier.CLASSES
    [CNNLayer.mk 32 3 "relu" None None;
     CNNLayer.mk 64 3 "relu" None None;
     CNNLayer.mk 128 3 "relu" None None;
     CNNLayer.mk n 1 "softmax"
       (Some (mkArray [length b; 128; 1; 1] (repeat 0%R (length b * 128))))
       (Some (mkArray [length b] b))].

(** A zero-dimensional array holding one sample. *)
Definition scalar (v : R) : ndarray := mkArray [] [v].

(** A 1 x 2 colour image and a 2 x 2 image without channel axis. *)
Definition sample_image : ndarray :=
  mkArray [1; 2; 3] [0; 64; 128; 255; 32; 16]%R.

Definition gray_image : ndarray :=
  mkArray [2; 2] [0; 85; 170; 255]%R.

(** A 1 x 2 feature map with two channels. *)
Definition sample_features : ndarray :=
  mkArray [1; 2; 2] [1; 2; 3; 4]%R.

Definition world0 : World :=
  mkWorld (fun i => INR i) 0 (fun _ => "2024-01-01T00:00:00") 0.

(** ** Statements of the specification the code departs from *)

(** What the specification promises of [analyze_image] on a classifier
    with at least three classes: a report with exactly three entries whose
    first entry is the primary prediction. *)
Definition analyze_image_claim (argsort : list R -> list nat)
           (c : AIImageClassifier.t) (image : ndarray) (w : World) : Prop :=
  exists c' r w',
    AIImageClassifier.analyze_image argsort c image w = inr ((c', r), w') /\
    length (all_predictions r) = 3 /\
    nth_error (all_predictions r) 0 = Some (primary_prediction r).

(** What the specification promises of the constructors: a configuration
    error for a layer with [filters <= 0] and for a classifier with
    [num_classes <= 0]. *)
Definition layer_construction_claim (filters kernel_size : Z) (act : string)
  : Prop :=
  (filters <= 0)%Z -> exists e, CNNLayer.__init__ filters kernel_size act = inl e.

Definition classifier_construction_claim (num_classes : Z) : Prop :=
  (num_classes <= 0)%Z -> exists e, AIImageClassifier.__init__ num_classes = inl e.


(** ** Vocabulary of the further properties *)

(** What an activation does to the vector at one position. *)
Definition activation_on_row (act : string) : list R -> list R :=
  if String.eqb act "relu" then map (Rmax 0)
  else if String.eqb act "softmax" then stable_softmax
  else fun r => r.

(** The hypotheses under which a forward call goes through. *)
Definition layer_usable (l : CNNLayer.t) : Prop :=
  (0 <= CNNLayer.filters l)%Z /\ (0 <= CNNLayer.kernel_size l)%Z /\
  bias_fits l /\
  (CNNLayer.activation l = "softmax" -> (0 < CNNLayer.filters l)%Z).

(** A layer that holds its parameters. *)
Definition materialised (l : CNNLayer.t) : Prop := CNNLayer.weights l <> None.

(** The channel count a stack of layers ends with, on an input that has
    [c] channels. *)
Definition final_channels (layers : list CNNLayer.t) (c : nat) : nat :=
  last (map (fun l => Z.to_nat (CNNLayer.filters l)) layers) c.

(** * Verification *)

(** Unfolds the plumbing of the two monads, and nothing else. *)
Ltac py_step := cbv beta iota delta [ok throw ret bind lift rbind].

Lemma bind_run {A B : Type} (m : M A) (k : A -> M B) (w w' : World) (a : A) :
  m w = inr (a, w') -> bind m k w = k a w'.
Proof. intros H. unfold bind. now rewrite H. Qed.

(** ** Lists, rows and buffers *)

Lemma nth_map_seq {B : Type} (g : nat -> B) (d : B) (f c : nat) :
  c < f -> nth c (map g (seq 0 f)) d = g c.
Proof.
  intros Hc. rewrite (nth_indep _ d (g 0)) by (now rewrite length_map, length_seq).
  rewrite (map_nth g (seq 0 f) 0 c). now rewrite seq_nth.
Qed.

Lemma nth_map_in {A B : Type} (g : A -> B) (l : list A) (d : B) (d' : A) (i : nat) :
  i < length l -> nth i (map g l) d = g (nth i l d').
Proof.
  intros Hi. rewrite (nth_indep _ d (g d')) by (now rewrite length_map).
  apply map_nth.
Qed.

Lemma length_chunk (c n : nat) (d : list R) : length (chunk c n d) = n.
Proof.
  revert d; induction n as [|n IH]; intros d; simpl; [reflexivity|].
  now rewrite IH.
Qed.

Lemma chunk_concat (c : nat) (rs : list (list R)) :
  Forall (fun r => length r = c) rs ->
  chunk c (length rs) (concat rs) = rs.
Proof.
  induction 1 as [|r rs Hr _ IH]; simpl; [reflexivity|].
  rewrite firstn_app, skipn_app, Hr, Nat.sub_diag.
  rewrite <- Hr at 1 3.
  rewrite firstn_all, skipn_all. simpl.
  now rewrite app_nil_r, IH.
Qed.

Lemma chunk_rows_length (c n : nat) (d : list R) :
  length d = n * c ->
  Forall (fun r => length r = c) (chunk c n d).
Proof.
  revert d; induction n as [|n IH]; intros d Hd; simpl; constructor.
  - rewrite length_firstn. simpl in Hd. lia.
  - apply IH. rewrite length_skipn. simpl in Hd. lia.
Qed.

Lemma combine_map_same {A B C : Type} (f : A -> B) (g : A -> C) (l : list A) :
  combine (map f l) (map g l) = map (fun a => (f a, g a)) l.
Proof.
  induction l as [|a l IH]; simpl; [reflexivity|]. now rewrite IH.
Qed.

Lemma prod_dims_app (s1 s2 : list nat) :
  prod_dims (s1 ++ s2) = prod_dims s1 * prod_dims s2.
Proof.
  induction s1 as [|d s1 IH]; simpl.
  - lia.
  - rewrite IH. lia.
Qed.

Lemma prod_dims_snoc (s : list nat) (c : nat) :
  prod_dims (s ++ [c]) = prod_dims s * c.
Proof. rewrite prod_dims_app. simpl. lia. Qed.

Lemma shape_split (s : list nat) :
  s <> [] -> s = removelast s ++ [last s 0].
Proof. intros H. now apply app_removelast_last. Qed.

Lemma well_formed_rows (a : ndarray) :
  shape a <> [] -> well_formed a ->
  length (data a) = positions a * channels a.
Proof.
  unfold well_formed, positions, channels. intros Hs Hwf.
  rewrite Hwf. rewrite (shape_split _ Hs) at 1. apply prod_dims_snoc.
Qed.

Lemma concat_const_rows {A : Type} (v : R) (c : nat) (l : list A) :
  concat (map (fun _ => repeat v c) l) = repeat v (length l * c).
Proof.
  induction l as [|a l IH]; simpl; [reflexivity|].
  now rewrite IH, repeat_app.
Qed.

Lemma rows_of_snoc (s : list nat) (c : nat) (rs : list (list R)) :
  length rs = prod_dims s ->
  Forall (fun r => length r = c) rs ->
  rows_of (mkArray (s ++ [c]) (concat rs)) = rs.
Proof.
  intros Hn Hc. unfold rows_of, positions, channels. simpl.
  rewrite removelast_last, last_last, <- Hn. now apply chunk_concat.
Qed.

Lemma length_rows_of (a : ndarray) : length (rows_of a) = positions a.
Proof. apply length_chunk. Qed.

Lemma set_nth_app (l1 l2 : list R) (u v : R) :
  set_nth (length l1) v (l1 ++ u :: l2) = l1 ++ v :: l2.
Proof.
  induction l1 as [|a l1 IH]; simpl; [reflexivity|]. now rewrite IH.
Qed.

Lemma check_dims_of_nat (s : list nat) (extra : list Z) :
  forallb (fun d => (0 <=? d)%Z) extra = true ->
  check_dims (map Z.of_nat s ++ extra) = ok (s ++ map Z.to_nat extra).
Proof.
  intros He. unfold check_dims.
  rewrite forallb_app, He, andb_true_r.
  replace (forallb (fun d => (0 <=? d)%Z) (map Z.of_nat s)) with true.
  - rewrite map_app, map_map. f_equal. f_equal.
    rewrite <- (map_id s) at 2. apply map_ext. intros; apply Nat2Z.id.
  - symmetry. apply forallb_forall. intros z Hz.
    apply in_map_iff in Hz. destruct Hz as (n & <- & _). apply Z.leb_le. lia.
Qed.

(** ** The conversion to float32 *)

Lemma pow2_pos (e : Z) : (0 < powerRZ 2 e)%R.
Proof. apply powerRZ_lt. lra. Qed.

Lemma pow2_add (a b : Z) : powerRZ 2 (a + b) = (powerRZ 2 a * powerRZ 2 b)%R.
Proof. apply powerRZ_add. lra. Qed.

Lemma pow2_IZR (e : Z) : (0 <= e)%Z -> powerRZ 2 e = IZR (2 ^ e).
Proof.
  intros He. rewrite <- (Z2Nat.id e He) at 1.
  rewrite <- pow_powerRZ, pow_IZR. now rewrite Z2Nat.id.
Qed.

Lemma pow2_le (a b : Z) : (a <= b)%Z -> (powerRZ 2 a <= powerRZ 2 b)%R.
Proof.
  intros Hab. replace b with (a + (b - a))%Z by lia.
  rewrite pow2_add, (pow2_IZR (b - a)) by lia.
  pose proof (pow2_pos a).
  assert (1 <= IZR (2 ^ (b - a)))%R.
  { apply IZR_le. pose proof (Z.pow_pos_nonneg 2 (b - a)). lia. }
  nra.
Qed.

Lemma pow2_lt (a b : Z) : (a < b)%Z -> (powerRZ 2 a < powerRZ 2 b)%R.
Proof.
  intros Hab. replace b with (a + (b - a))%Z by lia.
  rewrite pow2_add, (pow2_IZR (b - a)) by lia.
  pose proof (pow2_pos a).
  assert (2 <= IZR (2 ^ (b - a)))%R.
  { apply IZR_le. replace (b - a)%Z with (Z.succ (b - a - 1)) by lia.
    rewrite Z.pow_succ_r by lia.
    pose proof (Z.pow_pos_nonneg 2 (b - a - 1)). lia. }
  nra.
Qed.

Lemma round_half_even_bounds (x : R) :
  (Zfloor x <= round_half_even x <= Zfloor x + 1)%Z.
Proof.
  unfold round_half_even.
  destruct (Rlt_dec _ _); [lia|]. destruct (Rlt_dec _ _); [lia|].
  destruct (Z.even _); lia.
Qed.

Lemma round_half_even_IZR (k : Z) : round_half_even (IZR k) = k.
Proof.
  unfold round_half_even. rewrite ZfloorZ.
  destruct (Rlt_dec _ _) as [_ | H]; [reflexivity | lra].
Qed.

Lemma round_half_even_le (x y : R) :
  (x <= y)%R -> (round_half_even x <= round_half_even y)%Z.
Proof.
  intros Hxy. pose proof (Zfloor_le x y Hxy) as Hfl.
  pose proof (round_half_even_bounds x) as Hx.
  pose proof (round_half_even_bounds y) as Hy.
  destruct (Z.eq_dec (Zfloor x) (Zfloor y)) as [E | NE]; [|lia].
  unfold round_half_even in *. rewrite <- E in *.
  destruct (Rlt_dec (x - IZR (Zfloor x)) (1 / 2)) as [Hx1 | Hx1].
  - destruct (Rlt_dec (y - IZR (Zfloor x)) (1 / 2)); [lia|].
    destruct (Rlt_dec (1 / 2) (y - IZR (Zfloor x))); [lia|].
    destruct (Z.even (Zfloor x)); lia.
  - destruct (Rlt_dec (y - IZR (Zfloor x)) (1 / 2)) as [Hy1 | Hy1]; [lra|].
    destruct (Rlt_dec (1 / 2) (x - IZR (Zfloor x))) as [Hx2 | Hx2].
    + destruct (Rlt_dec (1 / 2) (y - IZR (Zfloor x))); [lia | lra].
    + destruct (Rlt_dec (1 / 2) (y - IZR (Zfloor x))).
      * destruct (Z.even (Zfloor x)); lia.
      * lia.
Qed.


Lemma binade_from_spec (fuel : nat) (e : Z) (a : R) :
  let r := binade_from fuel e a in
  (e <= r <= e + Z.of_nat fuel)%Z /\
  ((e < r)%Z -> (powerRZ 2 r <= a)%R) /\
  ((r < e + Z.of_nat fuel)%Z -> (a < powerRZ 2 (r + 1))%R).
Proof.
  revert e. induction fuel as [|fuel IH]; intros e; cbn zeta.
  - cbn [binade_from]. repeat split; lia.
  - cbn [binade_from].
    destruct (Rlt_dec a (powerRZ 2 (e + 1))) as [Hlt | Hge].
    + repeat split; try lia. intros _. exact Hlt.
    + specialize (IH (e + 1)%Z). cbn zeta in IH.
      destruct IH as (Hr & Hlow & Hup).
      split; [lia|]. split.
      * intros _. destruct (Z.eq_dec (binade_from fuel (e + 1) a) (e + 1)) as [E | NE].
        -- rewrite E. lra.
        -- apply Hlow. lia.
      * intros Hlt. apply Hup. lia.
Qed.

Lemma float32_exponent_range (v : R) :
  (-126 <= float32_exponent v <= 127)%Z.
Proof.
  pose proof (binade_from_spec 253 (-126) (Rabs v)) as (H & _ & _).
  unfold float32_exponent. lia.
Qed.

Lemma float32_exponent_low (v : R) :
  (-126 < float32_exponent v)%Z -> (powerRZ 2 (float32_exponent v) <= Rabs v)%R.
Proof.
  pose proof (binade_from_spec 253 (-126) (Rabs v)) as (_ & H & _). exact H.
Qed.

Lemma float32_exponent_high (v : R) :
  (float32_exponent v < 127)%Z -> (Rabs v < powerRZ 2 (float32_exponent v + 1))%R.
Proof.
  pose proof (binade_from_spec 253 (-126) (Rabs v)) as (_ & _ & H).
  intros Hlt. apply H. unfold float32_exponent in Hlt. lia.
Qed.

Lemma float32_exponent_le (v v' : R) :
  (Rabs v <= Rabs v')%R -> (float32_exponent v <= float32_exponent v')%Z.
Proof.
  intros Hle. destruct (Z_le_gt_dec (float32_exponent v) (float32_exponent v'))
    as [H | H]; [exact H|].
  pose proof (float32_exponent_range v). pose proof (float32_exponent_range v').
  pose proof (float32_exponent_low v ltac:(lia)).
  pose proof (float32_exponent_high v' ltac:(lia)).
  pose proof (pow2_le (float32_exponent v' + 1) (float32_exponent v) ltac:(lia)).
  lra.
Qed.


Lemma float32_ulp_pos (v : R) : (0 < float32_ulp v)%R.
Proof. apply pow2_pos. Qed.

Lemma Rabs_IZR (z : Z) : Rabs (IZR z) = IZR (Z.abs z).
Proof.
  destruct (Z_le_gt_dec 0 z) as [H | H].
  - rewrite Z.abs_eq by exact H. apply Rabs_pos_eq. now apply IZR_le.
  - rewrite Z.abs_neq by lia. rewrite opp_IZR. apply Rabs_left.
    apply IZR_lt. lia.
Qed.

Lemma astype_float32_le_grid (v : R) (k : Z) :
  (v <= IZR k * float32_ulp v)%R ->
  (astype_float32 v <= IZR k * float32_ulp v)%R.
Proof.
  intros Hv. pose proof (float32_ulp_pos v) as Hu. unfold astype_float32.
  apply Rmult_le_compat_r; [lra|]. apply IZR_le.
  rewrite <- (round_half_even_IZR k). apply round_half_even_le.
  apply (Rmult_le_reg_r (float32_ulp v)); [exact Hu|].
  unfold Rdiv. rewrite Rmult_assoc, Rinv_l by lra. lra.
Qed.

Lemma astype_float32_ge_grid (v : R) (k : Z) :
  (IZR k * float32_ulp v <= v)%R ->
  (IZR k * float32_ulp v <= astype_float32 v)%R.
Proof.
  intros Hv. pose proof (float32_ulp_pos v) as Hu. unfold astype_float32.
  apply Rmult_le_compat_r; [lra|]. apply IZR_le.
  rewrite <- (round_half_even_IZR k) at 1. apply round_half_even_le.
  apply (Rmult_le_reg_r (float32_ulp v)); [exact Hu|].
  unfold Rdiv. rewrite Rmult_assoc, Rinv_l by lra. lra.
Qed.

Lemma astype_float32_on_grid (v : R) (m : Z) :
  v = (IZR m * float32_ulp v)%R -> astype_float32 v = v.
Proof.
  intros Hv. apply Rle_antisym.
  - rewrite Hv at 2. apply astype_float32_le_grid. lra.
  - rewrite Hv at 1. apply astype_float32_ge_grid. lra.
Qed.

Lemma binade_top (v : R) :
  powerRZ 2 (float32_exponent v + 1) = (IZR (2 ^ 24) * float32_ulp v)%R.
Proof.
  unfold float32_ulp. rewrite <- (pow2_IZR 24) by lia. rewrite <- pow2_add.
  f_equal. lia.
Qed.

Lemma binade_bottom (v : R) :
  powerRZ 2 (float32_exponent v) = (IZR (2 ^ 23) * float32_ulp v)%R.
Proof.
  unfold float32_ulp. rewrite <- (pow2_IZR 23) by lia. rewrite <- pow2_add.
  f_equal. lia.
Qed.

Lemma float32_ulp_same (v v' : R) :
  float32_exponent v = float32_exponent v' -> float32_ulp v = float32_ulp v'.
Proof. intros E. unfold float32_ulp. now rewrite E. Qed.

Lemma astype_float32_same_binade (v v' : R) :
  float32_exponent v = float32_exponent v' -> (v <= v')%R ->
  (astype_float32 v <= astype_float32 v')%R.
Proof.
  intros E Hle. unfold astype_float32. rewrite (float32_ulp_same v v' E).
  pose proof (float32_ulp_pos v') as Hu.
  apply Rmult_le_compat_r; [lra|]. apply IZR_le, round_half_even_le.
  unfold Rdiv. apply Rmult_le_compat_r; [|exact Hle].
  apply Rlt_le, Rinv_0_lt_compat, Hu.
Qed.

(** The conversion never reverses the order of two samples. *)
Lemma astype_float32_monotone (v v' : R) :
  (v <= v')%R -> (astype_float32 v <= astype_float32 v')%R.
Proof.
  intros Hle.
  pose proof (float32_exponent_range v) as Hr.
  pose proof (float32_exponent_range v') as Hr'.
  destruct (Rle_dec 0 v) as [Hv | Hv].
  - (* both are non-negative *)
    assert (Ha : Rabs v = v) by (apply Rabs_pos_eq; lra).
    assert (Ha' : Rabs v' = v') by (apply Rabs_pos_eq; lra).
    pose proof (float32_exponent_le v v' ltac:(lra)) as He.
    destruct (Z.eq_dec (float32_exponent v) (float32_exponent v')) as [E | NE].
    + now apply astype_float32_same_binade.
    + pose proof (float32_exponent_high v ltac:(lia)) as Hhigh.
      pose proof (float32_exponent_low v' ltac:(lia)) as Hlow.
      pose proof (pow2_le (float32_exponent v + 1) (float32_exponent v')
                    ltac:(lia)) as Hpow.
      rewrite binade_top in Hhigh, Hpow. rewrite binade_bottom in Hlow, Hpow.
      pose proof (astype_float32_le_grid v (2 ^ 24) ltac:(lra)).
      pose proof (astype_float32_ge_grid v' (2 ^ 23) ltac:(lra)).
      lra.
  - destruct (Rle_dec v' 0) as [Hv' | Hv'].
    + (* both are non-positive *)
      assert (Ha : Rabs v = (- v)%R) by (apply Rabs_left; lra).
      assert (Ha' : Rabs v' = (- v')%R) by (apply Rabs_left1; lra).
      pose proof (float32_exponent_le v' v ltac:(lra)) as He.
      destruct (Z.eq_dec (float32_exponent v) (float32_exponent v')) as [E | NE].
      * now apply astype_float32_same_binade.
      * pose proof (float32_exponent_high v' ltac:(lia)) as Hhigh.
        pose proof (float32_exponent_low v ltac:(lia)) as Hlow.
        pose proof (pow2_le (float32_exponent v' + 1) (float32_exponent v)
                      ltac:(lia)) as Hpow.
        rewrite binade_top in Hhigh, Hpow. rewrite binade_bottom in Hlow, Hpow.
        pose proof (astype_float32_le_grid v (- 2 ^ 23)) as Hup.
        pose proof (astype_float32_ge_grid v' (- 2 ^ 24)) as Hdown.
        rewrite opp_IZR in Hup, Hdown.
        specialize (Hup ltac:(lra)). specialize (Hdown ltac:(lra)). lra.
    + (* zero lies between them *)
      pose proof (astype_float32_le_grid v 0 ltac:(lra)).
      pose proof (astype_float32_ge_grid v' 0 ltac:(lra)).
      lra.
Qed.

(** Integers of up to 24 bits are binary32 values: the conversion of an
    image of integer samples is exact. *)
Lemma astype_float32_integer (z : Z) :
  (Z.abs z <= 2 ^ 24)%Z -> astype_float32 (IZR z) = IZR z.
Proof.
  intros Hz. set (v := IZR z).
  pose proof (float32_exponent_range v) as Hr.
  assert (Habs : (Rabs v <= powerRZ 2 24)%R).
  { unfold v. rewrite Rabs_IZR, (pow2_IZR 24) by lia. now apply IZR_le. }
  assert (He : (float32_exponent v <= 24)%Z).
  { destruct (Z_le_gt_dec (float32_exponent v) 24) as [H | H]; [exact H|].
    pose proof (float32_exponent_low v ltac:(lia)).
    pose proof (pow2_lt 24 (float32_exponent v) ltac:(lia)). lra. }
  destruct (Z_le_gt_dec (float32_exponent v) 23) as [H23 | H24].
  - apply (astype_float32_on_grid v (z * 2 ^ (23 - float32_exponent v))).
    rewrite mult_IZR, <- pow2_IZR by lia. unfold float32_ulp.
    rewrite Rmult_assoc, <- pow2_add.
    replace (23 - float32_exponent v + (float32_exponent v - 23))%Z with 0%Z
      by lia.
    cbn [powerRZ]. unfold v. lra.
  - assert (E : float32_exponent v = 24%Z) by lia.
    pose proof (float32_exponent_low v ltac:(lia)) as Hlow. rewrite E in Hlow.
    assert (Hz2 : Z.abs z = (2 ^ 24)%Z).
    { apply Z.le_antisymm; [exact Hz|]. apply le_IZR.
      rewrite <- Rabs_IZR, <- pow2_IZR by lia. exact Hlow. }
    apply (astype_float32_on_grid v (z / 2)).
    unfold float32_ulp. rewrite E. change (24 - 23)%Z with 1%Z.
    rewrite (pow2_IZR 1) by lia. change (2 ^ 1)%Z with 2%Z. unfold v.
    assert (Hdiv : z = (2 * (z / 2))%Z).
    { destruct (Z.abs_spec z) as [(_ & Habsz) | (_ & Habsz)];
        rewrite Habsz in Hz2.
      - rewrite Hz2. reflexivity.
      - assert (z = - 2 ^ 24)%Z by lia. subst z. reflexivity. }
    rewrite Hdiv at 1. rewrite mult_IZR. lra.
Qed.

Lemma astype_float32_0 : astype_float32 0 = 0%R.
Proof. exact (astype_float32_integer 0 ltac:(cbn; lia)). Qed.




(** Samples of the pixel range stay in it. *)
Lemma astype_float32_unit_range (v : R) :
  (0 <= v <= 255)%R -> (0 <= astype_float32 v <= 255)%R.
Proof.
  intros (H0 & H255).
  pose proof (astype_float32_monotone 0 v H0) as Hlow.
  pose proof (astype_float32_monotone v 255 H255) as Hhigh.
  rewrite astype_float32_0 in Hlow.
  rewrite (astype_float32_integer 255) in Hhigh by (cbn; lia).
  lra.
Qed.

Lemma normalize_as_map (image : ndarray) :
  ImagePreprocessor.normalize image
  = mkArray (shape image)
      (map (fun v => (astype_float32 v / 255)%R) (data image)).
Proof.
  unfold ImagePreprocessor.normalize, np_divide, np_astype_float32.
  cbn [shape data]. now rewrite map_map.
Qed.

(** ** The linear part of a layer *)

Lemma length_affine_row (b : list R) (k f : nat) (r : list R) :
  k <= f -> length (affine_row b k f r) = f.
Proof.
  intros Hk. unfold affine_row.
  rewrite length_app, length_map, length_seq, repeat_length. lia.
Qed.

Lemma affine_row_step (b : list R) (k f : nat) (r : list R) :
  k < f ->
  set_nth k (sum_list r * 0.1 + nth k b 0)%R (affine_row b k f r)
  = affine_row b (S k) f r.
Proof.
  intros Hk. unfold affine_row.
  replace (f - k) with (S (f - S k)) by lia. simpl repeat.
  set (l1 := map _ (seq 0 k)).
  assert (Hl1 : length l1 = k) by (unfold l1; now rewrite length_map, length_seq).
  rewrite <- Hl1 at 1. rewrite set_nth_app.
  rewrite seq_S, map_app, <- app_assoc. reflexivity.
Qed.

Lemma np_sum_last_ok (x : ndarray) :
  shape x <> [] ->
  np_sum_last x = ok (mkArray (removelast (shape x)) (map sum_list (rows_of x))).
Proof. unfold np_sum_last. destruct (shape x); [congruence | reflexivity]. Qed.

Lemma bias_item_ok (self : CNNLayer.t) (b : ndarray) (i : nat) :
  CNNLayer.bias self = Some b -> i < length (data b) ->
  CNNLayer.bias_item self i = ok (nth i (data b) 0%R).
Proof.
  intros Hb Hi. unfold CNNLayer.bias_item, np_item. rewrite Hb.
  now rewrite (nth_error_nth' _ 0%R Hi).
Qed.

Section LinearLoop.

Variable self : CNNLayer.t.
Variable x : ndarray.
Variable b : ndarray.
Let f : nat := Z.to_nat (CNNLayer.filters self).
Let s : list nat := removelast (shape x).

Hypothesis x_has_axis : shape x <> [].
Hypothesis bias_set : CNNLayer.bias self = Some b.
Hypothesis bias_length : length (data b) = f.

Let body (output : ndarray) (i : nat) : result ndarray :=
  sm <-? np_sum_last x ;;
  bi <-? CNNLayer.bias_item self i ;;
  ok (np_assign_channel output i
        (mkArray (shape sm) (map (fun v => (v * 0.1 + bi)%R) (data sm)))).

Let stage (k : nat) : ndarray :=
  mkArray (s ++ [f]) (concat (map (affine_row (data b) k f) (rows_of x))).

Lemma linear_body_step (k : nat) :
  k < f -> body (stage k) k = ok (stage (S k)).
Proof.
  intros Hk. unfold body.
  rewrite (np_sum_last_ok x x_has_axis). simpl rbind.
  rewrite (bias_item_ok self b k bias_set) by lia. simpl rbind.
  unfold np_assign_channel, stage. simpl shape. simpl data.
  rewrite rows_of_snoc.
  - rewrite map_map, combine_map_same, map_map. simpl.
    f_equal. f_equal. f_equal. apply map_ext. intros r.
    apply affine_row_step; assumption.
  - rewrite length_map. apply length_rows_of.
  - apply Forall_forall. intros r Hr. apply in_map_iff in Hr.
    destruct Hr as (r0 & <- & _). apply length_affine_row. lia.
Qed.

Lemma linear_loop (m k : nat) :
  k + m = f ->
  rfor_each (seq k m) body (stage k) = ok (stage f).
Proof.
  revert k; induction m as [|m IH]; intros k Hk; simpl.
  - replace k with f by lia. reflexivity.
  - rewrite linear_body_step by lia. simpl. apply IH. lia.
Qed.

Lemma linear_closed_form :
  (0 <= CNNLayer.filters self)%Z ->
  CNNLayer.linear self x
  = ok (mkArray (s ++ [f])
          (concat (map (fun r => map (fun i => (sum_list r * 0.1
                                                + nth i (data b) 0)%R)
                                     (seq 0 f))
                       (rows_of x)))).
Proof.
  intros Hf. unfold CNNLayer.linear, np_zeros.
  rewrite (check_dims_of_nat (removelast (shape x)) [CNNLayer.filters self]).
  2:{ simpl. rewrite andb_true_r. now apply Z.leb_le. }
  simpl rbind. simpl map. fold f. fold s.
  assert (H0 : mkArray (s ++ [f]) (repeat 0%R (prod_dims (s ++ [f]))) = stage 0).
  { unfold stage. f_equal.
    rewrite prod_dims_snoc.
    rewrite <- (length_rows_of x : length (rows_of x) = prod_dims s).
    rewrite <- concat_const_rows. f_equal. apply map_ext. intros r.
    unfold affine_row. simpl. now rewrite Nat.sub_0_r. }
  rewrite H0. unfold py_range. fold f.
  change (rfor_each (seq 0 f) body (stage 0) = ok
    (mkArray (s ++ [f])
       (concat (map (fun r => map (fun i => (sum_list r * 0.1
                                             + nth i (data b) 0)%R)
                                  (seq 0 f)) (rows_of x))))).
  rewrite linear_loop by lia. unfold stage. f_equal. f_equal. f_equal.
  apply map_ext. intros r. unfold affine_row.
  now rewrite Nat.sub_diag, app_nil_r.
Qed.

End LinearLoop.

(** ** Softmax *)

Lemma combine_map_r {A B : Type} (g : A -> B) (l : list A) :
  combine l (map g l) = map (fun a => (a, g a)) l.
Proof.
  induction l as [|a l IH]; simpl; [reflexivity|]. now rewrite IH.
Qed.


Lemma sum_list_pos (l : list R) :
  l <> [] -> Forall (fun u => (0 < u)%R) l -> (0 < sum_list l)%R.
Proof.
  intros Hne Hpos. induction Hpos as [|a l Ha Hl IH]; [congruence|].
  simpl. destruct l as [|a' l'].
  - simpl. lra.
  - assert (0 < sum_list (a' :: l'))%R by (apply IH; discriminate). lra.
Qed.




Lemma length_stable_softmax (r : list R) : length (stable_softmax r) = length r.
Proof. unfold stable_softmax. now rewrite !length_map. Qed.



Lemma max_list_repeat (v : R) (n : nat) : max_list (repeat v (S n)) = v.
Proof.
  simpl. induction n as [|n IH]; simpl; [reflexivity|].
  unfold Rmax at 2. destruct (Rle_dec v v); exact IH.
Qed.

Lemma sum_list_repeat (v : R) (n : nat) :
  sum_list (repeat v n) = (INR n * v)%R.
Proof.
  induction n as [|n IH].
  - simpl. ring.
  - rewrite S_INR. simpl. rewrite IH. ring.
Qed.

Lemma map_repeat {A B : Type} (g : A -> B) (a : A) (n : nat) :
  map g (repeat a n) = repeat (g a) n.
Proof. induction n as [|n IH]; simpl; [reflexivity|]. now rewrite IH. Qed.

Lemma stable_softmax_uniform (v : R) (n : nat) :
  0 < n -> stable_softmax (repeat v n) = repeat (1 / INR n)%R n.
Proof.
  intros Hn. destruct n as [|n]; [lia|].
  unfold stable_softmax. rewrite max_list_repeat.
  rewrite !map_repeat, sum_list_repeat.
  f_equal. unfold Rminus. rewrite Rplus_opp_r, exp_0. now rewrite Rmult_1_r.
Qed.

Lemma np_max_last_keepdims_ok (x : ndarray) :
  shape x <> [] -> 0 < channels x ->
  np_max_last_keepdims x
  = ok (mkArray (removelast (shape x) ++ [1]) (map max_list (rows_of x))).
Proof.
  intros Hs Hc. unfold np_max_last_keepdims.
  destruct (shape x) eqn:E; [congruence|].
  destruct (Nat.eqb_spec (channels x) 0); [lia|]. now rewrite <- E.
Qed.

Lemma np_sum_last_keepdims_ok (x : ndarray) :
  shape x <> [] ->
  np_sum_last_keepdims x
  = ok (mkArray (removelast (shape x) ++ [1]) (map sum_list (rows_of x))).
Proof.
  unfold np_sum_last_keepdims. destruct (shape x); [congruence | reflexivity].
Qed.

Lemma rows_of_well_formed (x : ndarray) :
  shape x <> [] -> well_formed x ->
  Forall (fun r => length r = channels x) (rows_of x).
Proof.
  intros Hs Hwf. apply chunk_rows_length. now apply well_formed_rows.
Qed.

Lemma rows_of_mapped (x : ndarray) (g : list R -> list R) :
  shape x <> [] -> well_formed x ->
  (forall r, length (g r) = length r) ->
  rows_of (mkArray (shape x) (concat (map g (rows_of x)))) = map g (rows_of x).
Proof.
  intros Hs Hwf Hg.
  rewrite (shape_split _ Hs) at 1. apply rows_of_snoc.
  - now rewrite length_map, length_rows_of.
  - apply Forall_forall. intros r Hr. apply in_map_iff in Hr.
    destruct Hr as (r0 & <- & Hr0). rewrite Hg.
    pose proof (rows_of_well_formed x Hs Hwf) as Hall.
    rewrite Forall_forall in Hall. now apply Hall.
Qed.

Lemma broadcast_last_rows (op : R -> R -> R) (x : ndarray) (sh : list nat)
      (rs : list (list R)) (g : list R -> R) :
  rows_of x = rs ->
  broadcast_last op x (mkArray sh (map g rs))
  = mkArray (shape x) (concat (map (fun r => map (fun u => op u (g r)) r) rs)).
Proof.
  intros <-. unfold broadcast_last. simpl data.
  now rewrite combine_map_r, map_map.
Qed.

Lemma softmax_closed_form (self : CNNLayer.t) (x : ndarray) :
  CNNLayer.activation self = "softmax" ->
  shape x <> [] -> 0 < channels x -> well_formed x ->
  CNNLayer.activate self x
  = ok (mkArray (shape x) (concat (map stable_softmax (rows_of x)))).
Proof.
  intros Hact Hs Hc Hwf. unfold CNNLayer.activate. rewrite Hact. simpl.
  rewrite (np_max_last_keepdims_ok x Hs Hc). simpl rbind.
  rewrite (broadcast_last_rows Rminus x _ (rows_of x) max_list eq_refl).
  unfold np_exp. simpl shape. simpl data.
  rewrite concat_map, map_map.
  rewrite (map_ext _ (fun r => map (fun u => exp (u - max_list r)) r))
    by (intros r; now rewrite map_map).
  set (g := fun r : list R => map (fun u => exp (u - max_list r)) r).
  assert (He : rows_of (mkArray (shape x) (concat (map g (rows_of x))))
               = map g (rows_of x)).
  { apply (rows_of_mapped x g Hs Hwf). intros r. unfold g.
    now rewrite length_map. }
  rewrite np_sum_last_keepdims_ok by exact Hs. simpl rbind. simpl shape.
  rewrite He at 1.
  rewrite (broadcast_last_rows Rdiv _ _ (map g (rows_of x)) sum_list He).
  simpl shape. now rewrite map_map.
Qed.

Lemma sum_list_map_mult (g : R -> R) (k : R) (r : list R) :
  sum_list (map (fun v => (g v * k)%R) r) = (sum_list (map g r) * k)%R.
Proof.
  induction r as [|a r IH]; simpl; [ring|]. rewrite IH. ring.
Qed.

Lemma stable_softmax_is_exp_over_sum (r : list R) :
  stable_softmax r = map (fun u => (exp u / sum_list (map exp r))%R) r.
Proof.
  destruct r as [|a t] eqn:E; [reflexivity|]. rewrite <- E.
  assert (Hne : r <> []) by (rewrite E; discriminate).
  unfold stable_softmax. set (m := max_list r). rewrite map_map.
  assert (Hshift : forall u, exp (u - m) = (exp u * / exp m)%R).
  { intros u. unfold Rminus. now rewrite exp_plus, exp_Ropp. }
  rewrite (map_ext (fun u => exp (u - m)) (fun u => (exp u * / exp m)%R)) by exact Hshift.
  rewrite sum_list_map_mult.
  assert (Hpos : (0 < sum_list (map exp r))%R).
  { apply sum_list_pos.
    - destruct r; [congruence | discriminate].
    - apply Forall_forall. intros v Hv. apply in_map_iff in Hv.
      destruct Hv as (u & <- & _). apply exp_pos. }
  apply map_ext. intros u. rewrite Hshift.
  pose proof (exp_pos m). field. split; lra.
Qed.

Lemma nth_stable_softmax (r : list R) (i : nat) :
  i < length r ->
  nth i (stable_softmax r) 0%R
  = (exp (nth i r 0%R) / sum_list (map exp r))%R.
Proof.
  intros Hi. rewrite stable_softmax_is_exp_over_sum.
  now rewrite (nth_map_in _ r 0%R 0%R i Hi).
Qed.

Lemma stable_softmax_order (r : list R) (i j : nat) :
  i < length r -> j < length r ->
  ((nth i r 0 < nth j r 0)%R <->
   (nth i (stable_softmax r) 0 < nth j (stable_softmax r) 0)%R).
Proof.
  intros Hi Hj. rewrite !nth_stable_softmax by assumption.
  assert (Hpos : (0 < sum_list (map exp r))%R).
  { apply sum_list_pos.
    - destruct r; [simpl in Hi; lia | discriminate].
    - apply Forall_forall. intros v Hv. apply in_map_iff in Hv.
      destruct Hv as (u & <- & _). apply exp_pos. }
  assert (Hinv : (0 < / sum_list (map exp r))%R) by now apply Rinv_0_lt_compat.
  unfold Rdiv. split.
  - intros Hlt. apply Rmult_lt_compat_r; [exact Hinv|].
    now apply exp_increasing.
  - intros Hlt. apply exp_lt_inv.
    now apply (Rmult_lt_reg_r (/ sum_list (map exp r))).
Qed.

Lemma first_maximum_stable_softmax (r : list R) (k : nat) :
  first_maximum r k <-> first_maximum (stable_softmax r) k.
Proof.
  unfold first_maximum. rewrite length_stable_softmax.
  split; intros (Hk & Hmax & Hfirst); (split; [exact Hk|]); split.
  - intros j Hj. apply Rnot_lt_le. intros Hlt.
    apply (stable_softmax_order r k j Hk Hj) in Hlt.
    specialize (Hmax j Hj). lra.
  - intros j Hj. apply (stable_softmax_order r j k ltac:(lia) Hk).
    now apply Hfirst.
  - intros j Hj. apply Rnot_lt_le. intros Hlt.
    apply (stable_softmax_order r k j Hk Hj) in Hlt.
    specialize (Hmax j Hj). lra.
  - intros j Hj. apply (stable_softmax_order r j k ltac:(lia) Hk).
    now apply Hfirst.
Qed.

(** ** One forward call *)

Lemma zero_bias_fits (l : CNNLayer.t) : zero_bias l -> bias_fits l.
Proof.
  unfold zero_bias, bias_fits. destruct (CNNLayer.weights l); [|trivial].
  intros (b & Hb & Hd). exists b. split; [assumption|].
  now rewrite Hd, repeat_length.
Qed.

Lemma materialize_run (self : CNNLayer.t) (x : ndarray) (w : World) :
  shape x <> [] ->
  (0 <= CNNLayer.filters self)%Z -> (0 <= CNNLayer.kernel_size self)%Z ->
  bias_fits self ->
  exists self' b w',
    CNNLayer.materialize self x w = inr (self', w') /\
    same_hyperparameters self self' /\
    CNNLayer.weights self' <> None /\
    CNNLayer.bias self' = Some b /\
    length (data b) = Z.to_nat (CNNLayer.filters self) /\
    (zero_bias self -> data b = repeat 0%R (Z.to_nat (CNNLayer.filters self))) /\
    (CNNLayer.weights self <> None -> self' = self) /\
    wall_clock w' = wall_clock w /\ ticks w' = ticks w.
Proof.
  intros Hs Hf Hk Hfit. unfold CNNLayer.materialize, bias_fits, zero_bias in *.
  destruct (CNNLayer.weights self) as [wts|] eqn:Ew.
  - destruct Hfit as (b & Hb & Hlen).
    exists self, b, w. unfold ret, same_hyperparameters.
    repeat split; try assumption; try congruence.
    intros (b' & Hb' & Hd'). congruence.
  - unfold bind, lift, CNNLayer.shape_last.
    destruct (shape x) as [|d0 sh] eqn:Es; [congruence|]. simpl.
    unfold np_random_randn, bind, lift, check_dims. simpl forallb.
    apply Z.leb_le in Hf as Hf'. apply Z.leb_le in Hk as Hk'.
    rewrite Hf', Hk'.
    replace (0 <=? Z.of_nat (channels x))%Z with true
      by (symmetry; apply Z.leb_le; lia).
    simpl. unfold np_zeros, check_dims. simpl forallb. rewrite Hf'. simpl.
    eexists _, _, _. split; [reflexivity|].
    unfold same_hyperparameters. simpl.
    repeat split; try congruence.
    + simpl data. rewrite repeat_length. lia.
    + intros _. simpl data. f_equal. lia.
Qed.

Lemma length_concat_uniform (c : nat) (rs : list (list R)) :
  Forall (fun r => length r = c) rs -> length (concat rs) = length rs * c.
Proof.
  induction 1 as [|r rs Hr _ IH]; simpl; [reflexivity|].
  rewrite length_app, IH, Hr. reflexivity.
Qed.

Lemma linear_image_rows (f : nat) (b : list R) (x : ndarray) :
  rows_of (linear_image f b x)
  = map (fun r => map (fun i => (sum_list r * 0.1 + nth i b 0)%R) (seq 0 f))
        (rows_of x).
Proof.
  unfold linear_image. apply rows_of_snoc.
  - now rewrite length_map, length_rows_of.
  - apply Forall_forall. intros r Hr. apply in_map_iff in Hr.
    destruct Hr as (r0 & <- & _). now rewrite length_map, length_seq.
Qed.

Lemma linear_image_well_formed (f : nat) (b : list R) (x : ndarray) :
  well_formed (linear_image f b x).
Proof.
  unfold well_formed, linear_image. simpl.
  rewrite prod_dims_snoc, (length_concat_uniform f).
  - now rewrite length_map, length_rows_of.
  - apply Forall_forall. intros r Hr. apply in_map_iff in Hr.
    destruct Hr as (r0 & <- & _). now rewrite length_map, length_seq.
Qed.

Lemma linear_image_shape (f : nat) (b : list R) (x : ndarray) :
  shape (linear_image f b x) <> [] /\ channels (linear_image f b x) = f.
Proof.
  unfold linear_image, channels. simpl. split.
  - destruct (removelast (shape x)); discriminate.
  - apply last_last.
Qed.

Lemma activate_run (self : CNNLayer.t) (pre : ndarray) :
  shape pre <> [] -> well_formed pre ->
  (CNNLayer.activation self = "softmax" -> 0 < channels pre) ->
  exists y, CNNLayer.activate self pre = ok y /\ shape y = shape pre /\
    (CNNLayer.activation self = "softmax" ->
     data y = concat (map stable_softmax (rows_of pre))).
Proof.
  intros Hs Hwf Hc.
  destruct (String.eqb (CNNLayer.activation self) "softmax") eqn:Esm.
  - apply String.eqb_eq in Esm.
    rewrite (softmax_closed_form self pre Esm Hs (Hc Esm) Hwf).
    eexists. split; [reflexivity|]. split; [reflexivity|]. intros _. reflexivity.
  - assert (Hne : CNNLayer.activation self <> "softmax")
      by (now apply String.eqb_neq).
    unfold CNNLayer.activate. rewrite Esm.
    destruct (String.eqb (CNNLayer.activation self) "relu");
      eexists; (split; [reflexivity|]); (split; [reflexivity|]);
      intros Habs; contradiction.
Qed.

Lemma forward_run (self : CNNLayer.t) (x : ndarray) (w : World) :
  shape x <> [] ->
  (0 <= CNNLayer.filters self)%Z -> (0 <= CNNLayer.kernel_size self)%Z ->
  bias_fits self ->
  (CNNLayer.activation self = "softmax" -> (0 < CNNLayer.filters self)%Z) ->
  exists self' b pre y w',
    CNNLayer.forward self x w = inr ((self', y), w') /\
    same_hyperparameters self self' /\
    CNNLayer.weights self' <> None /\
    CNNLayer.bias self' = Some b /\
    (zero_bias self -> data b = repeat 0%R (Z.to_nat (CNNLayer.filters self))) /\
    (CNNLayer.weights self <> None -> self' = self) /\
    pre = linear_image (Z.to_nat (CNNLayer.filters self)) (data b) x /\
    CNNLayer.linear self' x = ok pre /\
    CNNLayer.activate self' pre = ok y /\
    shape y = removelast (shape x) ++ [Z.to_nat (CNNLayer.filters self)] /\
    (CNNLayer.activation self = "softmax" ->
     data y = concat (map stable_softmax (rows_of pre))) /\
    wall_clock w' = wall_clock w /\ ticks w' = ticks w.
Proof.
  intros Hs Hf Hk Hfit Hsm.
  destruct (materialize_run self x w Hs Hf Hk Hfit)
    as (self' & b & w' & Hm & Hsame & Hw & Hb & Hlen & Hzero & Hkeep & Hclk & Htk).
  destruct Hsame as (Hsf & Hsk & Hsa).
  set (f := Z.to_nat (CNNLayer.filters self)) in *.
  assert (Hlin : CNNLayer.linear self' x = ok (linear_image f (data b) x)).
  { unfold linear_image, f. rewrite <- Hsf.
    apply linear_closed_form; rewrite ?Hsf; assumption. }
  destruct (linear_image_shape f (data b) x) as (Hps & Hpc).
  destruct (activate_run self' (linear_image f (data b) x) Hps
              (linear_image_well_formed f (data b) x))
    as (y & Hy & Hys & Hyd).
  { rewrite Hsa, Hpc. intros Ha. specialize (Hsm Ha). unfold f. lia. }
  exists self', b, (linear_image f (data b) x), y, w'.
  split.
  { unfold CNNLayer.forward. py_step. rewrite Hm. py_step.
    rewrite Hlin. py_step. rewrite Hy. reflexivity. }
  unfold same_hyperparameters.
  repeat split; try assumption.
  intros Ha. apply Hyd. now rewrite Hsa.
Qed.

Lemma materialize_kept (self : CNNLayer.t) (x : ndarray) (w : World) :
  CNNLayer.weights self <> None ->
  CNNLayer.materialize self x w = inr (self, w).
Proof.
  intros Hw. unfold CNNLayer.materialize.
  destruct (CNNLayer.weights self); [reflexivity | congruence].
Qed.

Lemma forward_from_parts (self self' : CNNLayer.t) (x pre y : ndarray)
      (w w' : World) :
  CNNLayer.materialize self x w = inr (self', w') ->
  CNNLayer.linear self' x = ok pre ->
  CNNLayer.activate self' pre = ok y ->
  CNNLayer.forward self x w = inr ((self', y), w').
Proof.
  intros Hm Hl Ha. unfold CNNLayer.forward.
  rewrite (bind_run _ _ _ _ _ Hm). py_step. rewrite Hl. py_step.
  now rewrite Ha.
Qed.

Lemma forward_materialised_run (self : CNNLayer.t) (x : ndarray) (w : World) :
  CNNLayer.weights self <> None -> shape x <> [] -> layer_usable self ->
  exists y,
    CNNLayer.forward self x w = inr ((self, y), w) /\
    forall w2, CNNLayer.forward self x w2 = inr ((self, y), w2).
Proof.
  intros Hw Hs (Hf & Hk & Hfit & Hsm).
  destruct (forward_run self x w Hs Hf Hk Hfit Hsm)
    as (self' & b & pre & y & w' & _ & _ & _ & _ & _ & Hkeep & _ & Hlin & Hact & _).
  rewrite (Hkeep Hw) in Hlin, Hact.
  exists y. split.
  - exact (forward_from_parts _ _ _ _ _ _ _ (materialize_kept self x w Hw)
             Hlin Hact).
  - intros w2.
    exact (forward_from_parts _ _ _ _ _ _ _ (materialize_kept self x w2 Hw)
             Hlin Hact).
Qed.

(** ** Preprocessing *)

Lemma length_concat_repeat (d : list R) (k : nat) :
  length (concat (repeat d k)) = k * length d.
Proof.
  induction k as [|k IH]; simpl; [reflexivity|].
  now rewrite length_app, IH.
Qed.

Lemma ceil_div_covers (n a : nat) : 0 < a -> n <= (n + a - 1) / a * a.
Proof.
  intros Ha.
  pose proof (Nat.div_mod_eq (n + a - 1) a) as Hdm.
  pose proof (Nat.mod_upper_bound (n + a - 1) a ltac:(lia)) as Hub.
  nia.
Qed.

Lemma np_resize_run (a : ndarray) (new_shape : list Z) (s : list nat) :
  check_dims new_shape = ok s ->
  exists y, np_resize a new_shape = ok y /\ shape y = s /\ well_formed y.
Proof.
  intros Hc. unfold np_resize. rewrite Hc. py_step.
  destruct ((length (data a) =? 0) || (prod_dims s =? 0)) eqn:E.
  - eexists. split; [reflexivity|]. split; [reflexivity|].
    unfold well_formed. simpl. apply repeat_length.
  - eexists. split; [reflexivity|]. split; [reflexivity|].
    unfold well_formed. simpl.
    apply orb_false_iff in E. destruct E as (Ea & _).
    apply Nat.eqb_neq in Ea.
    rewrite length_firstn, length_concat_repeat.
    pose proof (ceil_div_covers (prod_dims s) (length (data a)) ltac:(lia)).
    lia.
Qed.

Lemma resize_run (image : ndarray) (th tw : Z) :
  (0 <= th)%Z -> (0 <= tw)%Z ->
  exists y, ImagePreprocessor.resize image (th, tw) = ok y /\
    shape y = [Z.to_nat th; Z.to_nat tw;
               if 2 <? ndim image then nth 2 (shape image) 0 else 1] /\
    well_formed y.
Proof.
  intros Hth Htw. unfold ImagePreprocessor.resize.
  apply np_resize_run. unfold check_dims. simpl fst. simpl snd. simpl forallb.
  apply Z.leb_le in Hth. apply Z.leb_le in Htw. rewrite Hth, Htw.
  destruct (2 <? ndim image).
  - replace (0 <=? Z.of_nat (nth 2 (shape image) 0%nat))%Z with true
      by (symmetry; apply Z.leb_le; lia).
    simpl. now rewrite Nat2Z.id.
  - reflexivity.
Qed.

Lemma preprocess_run (image : ndarray) (th tw : Z) :
  (0 <= th)%Z -> (0 <= tw)%Z ->
  exists r, ImagePreprocessor.resize image (th, tw) = ok r /\
    ImagePreprocessor.preprocess image (th, tw)
    = ok (ImagePreprocessor.normalize r) /\
    shape (ImagePreprocessor.normalize r)
    = [Z.to_nat th; Z.to_nat tw;
       if 2 <? ndim image then nth 2 (shape image) 0 else 1] /\
    well_formed (ImagePreprocessor.normalize r).
Proof.
  intros Hth Htw.
  destruct (resize_run image th tw Hth Htw) as (r & Hr & Hs & Hwf).
  exists r. split; [assumption|].
  unfold ImagePreprocessor.preprocess. rewrite Hr. py_step.
  split; [reflexivity|]. split; [exact Hs|].
  rewrite normalize_as_map. unfold well_formed in *. simpl.
  now rewrite length_map.
Qed.

(** ** The layer stack *)

Lemma map_seq_zero_bias (g : R -> R) (f : nat) :
  map (fun i => g (nth i (repeat 0%R f) 0%R)) (seq 0 f) = repeat (g 0%R) f.
Proof.
  rewrite (map_ext _ (fun _ => g 0%R)) by (intros i; now rewrite nth_repeat).
  generalize 0 at 1. induction f as [|f IH]; intros k; simpl; [reflexivity|].
  now rewrite IH.
Qed.

Lemma forward_softmax_zero_bias (self : CNNLayer.t) (x : ndarray) (w : World) :
  shape x <> [] ->
  (0 < CNNLayer.filters self)%Z -> (0 <= CNNLayer.kernel_size self)%Z ->
  zero_bias self -> CNNLayer.activation self = "softmax" ->
  exists self' y w',
    CNNLayer.forward self x w = inr ((self', y), w') /\
    same_hyperparameters self self' /\ zero_bias self' /\
    shape y = removelast (shape x) ++ [Z.to_nat (CNNLayer.filters self)] /\
    data y = repeat (1 / INR (Z.to_nat (CNNLayer.filters self)))%R
               (positions x * Z.to_nat (CNNLayer.filters self)) /\
    wall_clock w' = wall_clock w /\ ticks w' = ticks w.
Proof.
  intros Hs Hf Hk Hz Ha.
  destruct (forward_run self x w Hs ltac:(lia) Hk (zero_bias_fits _ Hz)
              ltac:(intros _; exact Hf))
    as (self' & b & pre & y & w' & Hrun & Hsame & Hw & Hb & Hzero & _ & Hpre
        & _ & _ & Hsh & Hdata & Hclk & Htk).
  exists self', y, w'. split; [exact Hrun|]. split; [exact Hsame|].
  destruct Hsame as (Hsf & _ & _).
  split.
  { unfold zero_bias. destruct (CNNLayer.weights self'); [|trivial].
    exists b. split; [exact Hb|]. rewrite Hsf. now apply Hzero. }
  split; [exact Hsh|]. split; [|split; assumption].
  rewrite (Hdata Ha), Hpre, linear_image_rows, (Hzero Hz), map_map.
  set (f := Z.to_nat (CNNLayer.filters self)).
  rewrite (map_ext _ (fun _ => repeat (1 / INR f)%R f)).
  - now rewrite concat_const_rows, length_rows_of.
  - intros r.
    rewrite (map_seq_zero_bias (fun z => (sum_list r * 0.1 + z)%R) f).
    apply stable_softmax_uniform. unfold f. lia.
Qed.

Lemma forward_zero_bias (self : CNNLayer.t) (x : ndarray) (w : World) :
  shape x <> [] ->
  (0 <= CNNLayer.filters self)%Z -> (0 <= CNNLayer.kernel_size self)%Z ->
  zero_bias self -> CNNLayer.activation self <> "softmax" ->
  exists self' y w',
    CNNLayer.forward self x w = inr ((self', y), w') /\
    same_hyperparameters self self' /\ zero_bias self' /\
    shape y = removelast (shape x) ++ [Z.to_nat (CNNLayer.filters self)] /\
    wall_clock w' = wall_clock w /\ ticks w' = ticks w.
Proof.
  intros Hs Hf Hk Hz Ha.
  destruct (forward_run self x w Hs Hf Hk (zero_bias_fits _ Hz)
              ltac:(intros Habs; contradiction))
    as (self' & b & pre & y & w' & Hrun & Hsame & Hw & Hb & Hzero & _ & Hpre
        & _ & _ & Hsh & _ & Hclk & Htk).
  exists self', y, w'. split; [exact Hrun|]. split; [exact Hsame|].
  destruct Hsame as (Hsf & _ & _).
  split.
  { unfold zero_bias. destruct (CNNLayer.weights self'); [|trivial].
    exists b. split; [exact Hb|]. rewrite Hsf. now apply Hzero. }
  repeat split; assumption.
Qed.

Lemma positions_of_image (x : ndarray) (h wd c : nat) :
  shape x = [h; wd; c] -> positions x = h * wd.
Proof.
  intros Hs. unfold positions. rewrite Hs.
  cbn [removelast prod_dims fold_right]. lia.
Qed.

Lemma relu_layer_step (f k : Z) (l : CNNLayer.t) (x : ndarray) (w : World)
      (h wd c : nat) :
  layer_matches f k "relu" l -> (0 <= f)%Z -> (0 <= k)%Z ->
  shape x = [h; wd; c] ->
  exists l' y w',
    CNNLayer.forward l x w = inr ((l', y), w') /\
    layer_matches f k "relu" l' /\
    shape y = [h; wd; Z.to_nat f] /\
    wall_clock w' = wall_clock w /\ ticks w' = ticks w.
Proof.
  intros (Hf & Hk & Ha & Hz) Hf0 Hk0 Hs.
  destruct (forward_zero_bias l x w) as (l' & y & w' & Hrun & Hsame & Hz' & Hsh & Hc);
    try (rewrite ?Hf, ?Hk; assumption).
  - rewrite Hs. discriminate.
  - rewrite Ha. discriminate.
  - exists l', y, w'. split; [exact Hrun|].
    destruct Hsame as (Hsf & Hsk & Hsa).
    split; [unfold layer_matches; repeat split; try congruence; assumption|].
    split; [|exact Hc].
    rewrite Hsh, Hs, Hf. reflexivity.
Qed.

Lemma softmax_layer_step (n k : Z) (l : CNNLayer.t) (x : ndarray) (w : World)
      (h wd c : nat) :
  layer_matches n k "softmax" l -> (0 < n)%Z -> (0 <= k)%Z ->
  shape x = [h; wd; c] ->
  exists l' y w',
    CNNLayer.forward l x w = inr ((l', y), w') /\
    layer_matches n k "softmax" l' /\
    shape y = [h; wd; Z.to_nat n] /\
    data y = repeat (1 / INR (Z.to_nat n))%R (h * wd * Z.to_nat n) /\
    wall_clock w' = wall_clock w /\ ticks w' = ticks w.
Proof.
  intros (Hf & Hk & Ha & Hz) Hf0 Hk0 Hs.
  destruct (forward_softmax_zero_bias l x w)
    as (l' & y & w' & Hrun & Hsame & Hz' & Hsh & Hd & Hc);
    try (rewrite ?Hf, ?Hk; assumption).
  - rewrite Hs. discriminate.
  - exists l', y, w'. split; [exact Hrun|].
    destruct Hsame as (Hsf & Hsk & Hsa).
    split; [unfold layer_matches; repeat split; try congruence; assumption|].
    split; [rewrite Hsh, Hs, Hf; reflexivity|].
    split; [|exact Hc].
    rewrite Hd, Hf, (positions_of_image x h wd c Hs). reflexivity.
Qed.

Lemma forward_layers_run (n : Z) (l1 l2 l3 l4 : CNNLayer.t) (x0 : ndarray)
      (w : World) (h wd c0 : nat) :
  shape x0 = [h; wd; c0] ->
  layer_matches 32 3 "relu" l1 -> layer_matches 64 3 "relu" l2 ->
  layer_matches 128 3 "relu" l3 -> layer_matches n 1 "softmax" l4 ->
  (1 <= n)%Z ->
  exists l1' l2' l3' l4' x w',
    AIImageClassifier.forward_layers [l1; l2; l3; l4] x0 w
    = inr (([l1'; l2'; l3'; l4'], x), w') /\
    layer_matches 32 3 "relu" l1' /\ layer_matches 64 3 "relu" l2' /\
    layer_matches 128 3 "relu" l3' /\ layer_matches n 1 "softmax" l4' /\
    shape x = [h; wd; Z.to_nat n] /\
    data x = repeat (1 / INR (Z.to_nat n))%R (h * wd * Z.to_nat n) /\
    wall_clock w' = wall_clock w /\ ticks w' = ticks w.
Proof.
  intros Hs0 H1 H2 H3 H4 Hn.
  destruct (relu_layer_step 32 3 l1 x0 w h wd c0 H1 ltac:(lia) ltac:(lia) Hs0)
    as (l1' & y1 & w1 & R1 & M1 & S1 & C1 & T1).
  destruct (relu_layer_step 64 3 l2 y1 w1 h wd _ H2 ltac:(lia) ltac:(lia) S1)
    as (l2' & y2 & w2 & R2 & M2 & S2 & C2 & T2).
  destruct (relu_layer_step 128 3 l3 y2 w2 h wd _ H3 ltac:(lia) ltac:(lia) S2)
    as (l3' & y3 & w3 & R3 & M3 & S3 & C3 & T3).
  destruct (softmax_layer_step n 1 l4 y3 w3 h wd _ H4 ltac:(lia) ltac:(lia) S3)
    as (l4' & y4 & w4 & R4 & M4 & S4 & D4 & C4 & T4).
  exists l1', l2', l3', l4', y4, w4.
  split.
  { cbn [AIImageClassifier.forward_layers]. py_step.
    rewrite R1. cbn [fst snd]. py_step. rewrite R2. cbn [fst snd]. py_step.
    rewrite R3. cbn [fst snd]. py_step. rewrite R4. reflexivity. }
  split; [exact M1|]. split; [exact M2|]. split; [exact M3|].
  split; [exact M4|]. split; [exact S4|]. split; [exact D4|].
  split; congruence.
Qed.

Lemma last_cons_default {A : Type} (l : list A) (a d : A) :
  last (a :: l) d = last l a.
Proof.
  revert a d. induction l as [|b t IH]; intros a d; [reflexivity|].
  change (last (a :: b :: t) d) with (last (b :: t) d).
  now rewrite !IH.
Qed.

Lemma forward_layers_general (layers : list CNNLayer.t) :
  Forall layer_usable layers ->
  forall (x : ndarray) (w : World),
    shape x <> [] ->
    exists layers' y w',
      AIImageClassifier.forward_layers layers x w = inr ((layers', y), w') /\
      Forall2 same_hyperparameters layers layers' /\
      Forall materialised layers' /\
      shape y = removelast (shape x) ++ [final_channels layers (channels x)] /\
      wall_clock w' = wall_clock w /\ ticks w' = ticks w /\
      (Forall materialised layers -> layers' = layers /\ w' = w).
Proof.
  induction 1 as [|l layers Hl _ IH]; intros x w Hs.
  - exists [], x, w. split; [reflexivity|]. split; [constructor|].
    split; [constructor|]. split.
    + unfold final_channels, channels. cbn [map last].
      now apply shape_split.
    + auto.
  - pose proof Hl as (Hf & Hk & Hfit & Hsm).
    destruct (forward_run l x w Hs Hf Hk Hfit Hsm)
      as (l' & b & pre & y1 & w1 & Hrun1 & Hsame & Hmat & _ & _ & _ & _ & _ & _
          & Hsh1 & _ & Hclk1 & Htk1).
    assert (Hs1 : shape y1 <> []).
    { rewrite Hsh1. destruct (removelast (shape x)); discriminate. }
    destruct (IH y1 w1 Hs1)
      as (layers' & y & w' & Hrun & Hsames & Hmats & Hsh & Hclk & Htk & Hkeep).
    exists (l' :: layers'), y, w'.
    split.
    { cbn [AIImageClassifier.forward_layers].
      rewrite (bind_run _ _ _ _ _ Hrun1). cbn [fst snd].
      rewrite (bind_run _ _ _ _ _ Hrun). reflexivity. }
    split; [now constructor|]. split; [now constructor|].
    split.
    { rewrite Hsh, Hsh1, removelast_last. f_equal. f_equal.
      unfold final_channels, channels. rewrite Hsh1, last_last.
      cbn [map]. now rewrite last_cons_default. }
    split; [congruence|]. split; [congruence|].
    intros Hall. inversion Hall as [|l0 ls Hl0 Hls]; subst.
    destruct (forward_materialised_run l x w Hl0 Hs Hl) as (y0 & Hrun0 & _).
    rewrite Hrun0 in Hrun1. injection Hrun1 as <- <- <-.
    destruct (Hkeep Hls) as (-> & ->). split; reflexivity.
Qed.

(** ** From an image to the class scores *)

Lemma firstn_repeat_le (v : R) (n m : nat) :
  n <= m -> firstn n (repeat v m) = repeat v n.
Proof.
  revert m; induction n as [|n IH]; intros m Hm; [reflexivity|].
  destruct m as [|m]; [lia|]. simpl. f_equal. apply IH. lia.
Qed.

Lemma INR_to_nat (n : Z) : (0 <= n)%Z -> INR (Z.to_nat n) = IZR n.
Proof. intros Hn. now rewrite INR_IZR_INZ, Z2Nat.id. Qed.

Lemma slice_stop_within (len : nat) (n : Z) :
  (0 <= n)%Z -> Z.to_nat n <= len -> slice_stop len n = Z.to_nat n.
Proof.
  intros Hn Hle. unfold slice_stop.
  destruct (Z.ltb_spec n 0); lia.
Qed.

Lemma class_scores_run (n : Z) (c : AIImageClassifier.t) (image : ndarray)
      (w : World) :
  classifier_state n c -> (1 <= n)%Z ->
  exists processed c' x w',
    ImagePreprocessor.preprocess image ImagePreprocessor.default_target_size
    = ok processed /\
    AIImageClassifier.forward_layers (AIImageClassifier.model c) processed w
    = inr ((AIImageClassifier.model c', x), w') /\
    Z.to_nat n <= length (data x) /\
    AIImageClassifier.class_scores c image w
    = inr ((c', mkArray [Z.to_nat n] (firstn (Z.to_nat n) (data x))), w') /\
    firstn (Z.to_nat n) (data x) = repeat (1 / IZR n)%R (Z.to_nat n) /\
    classifier_state n c' /\
    wall_clock w' = wall_clock w /\ ticks w' = ticks w.
Proof.
  intros (Hnum & Hcls & l1 & l2 & l3 & l4 & Hmodel & H1 & H2 & H3 & H4) Hn.
  unfold ImagePreprocessor.default_target_size.
  destruct (preprocess_run image 224 224 ltac:(lia) ltac:(lia))
    as (r & _ & Hpre & Hshape & _).
  assert (Hh : 0 < Z.to_nat 224) by lia.
  revert Hshape. generalize (Z.to_nat 224) Hh. intros h Hh0 Hshape.
  destruct (forward_layers_run n l1 l2 l3 l4 (ImagePreprocessor.normalize r) w
              h h _ Hshape H1 H2 H3 H4 Hn)
    as (l1' & l2' & l3' & l4' & x & w' & Hrun & M1 & M2 & M3 & M4 & Sx & Dx
        & Hclk & Htk).
  assert (Hhh : 1 <= h * h) by nia.
  assert (Hcover : Z.to_nat n <= h * h * Z.to_nat n).
  { generalize (Z.to_nat n). intros m. nia. }
  assert (Hlen : Z.to_nat n <= length (data x)).
  { now rewrite Dx, repeat_length. }
  exists (ImagePreprocessor.normalize r),
         (AIImageClassifier.mk (AIImageClassifier.num_classes c)
            (AIImageClassifier.classes c) [l1'; l2'; l3'; l4']),
         x, w'.
  split; [exact Hpre|]. rewrite Hmodel. split; [exact Hrun|].
  split; [exact Hlen|].
  split.
  { unfold AIImageClassifier.class_scores,
      ImagePreprocessor.default_target_size.
    rewrite Hpre, Hmodel. py_step. rewrite Hrun. cbn [fst snd].
    replace (1 <? ndim x) with true by (unfold ndim; now rewrite Sx).
    unfold np_slice_to, np_flatten. cbn [shape data prod_dims fold_right].
    rewrite Hnum, (slice_stop_within _ n) by lia.
    rewrite Nat.mul_1_r. reflexivity. }
  split.
  { rewrite Dx, firstn_repeat_le by exact Hcover.
    now rewrite INR_to_nat by lia. }
  split; [|split; assumption].
  unfold classifier_state. cbn [AIImageClassifier.num_classes
    AIImageClassifier.classes AIImageClassifier.model].
  split; [exact Hnum|]. split; [exact Hcls|].
  exists l1', l2', l3', l4'.
  split; [reflexivity|]. split; [exact M1|]. split; [exact M2|].
  split; [exact M3|]. exact M4.
Qed.

(** ** argmax and [predict] *)

Lemma argmax_from_spec (t pre : list R) (bi : nat) :
  bi < length pre ->
  (forall j, j < length pre -> (nth j pre 0 <= nth bi pre 0)%R) ->
  (forall j, j < bi -> (nth j pre 0 < nth bi pre 0)%R) ->
  first_maximum (pre ++ t) (argmax_from bi (nth bi pre 0%R) (length pre) t).
Proof.
  revert pre bi. induction t as [|v t IH]; intros pre bi Hbi Hmax Hfirst.
  - simpl. rewrite app_nil_r. unfold first_maximum. auto.
  - simpl.
    replace (pre ++ v :: t) with ((pre ++ [v]) ++ t)
      by (now rewrite <- app_assoc).
    assert (Hlen : length (pre ++ [v]) = S (length pre))
      by (rewrite length_app; simpl; lia).
    destruct (Rlt_dec (nth bi pre 0%R) v) as [Hlt | Hge].
    + pose proof (IH (pre ++ [v]) (length pre)) as IH'.
      rewrite nth_middle, Hlen in IH'. apply IH'.
      * lia.
      * intros j Hj.
        destruct (Nat.eq_dec j (length pre)) as [-> | Hne].
        -- rewrite nth_middle. lra.
        -- rewrite app_nth1 by lia.
           specialize (Hmax j ltac:(lia)). lra.
      * intros j Hj. rewrite app_nth1 by lia.
        specialize (Hmax j Hj). lra.
    + pose proof (IH (pre ++ [v]) bi) as IH'.
      rewrite (app_nth1 pre [v] 0%R Hbi), Hlen in IH'. apply IH'.
      * lia.
      * intros j Hj.
        destruct (Nat.eq_dec j (length pre)) as [-> | Hne].
        -- rewrite nth_middle. lra.
        -- rewrite app_nth1 by lia. apply Hmax. lia.
      * intros j Hj. rewrite app_nth1 by lia. now apply Hfirst.
Qed.

Lemma np_argmax_spec (a : ndarray) :
  data a <> [] ->
  exists k, np_argmax a = ok k /\ first_maximum (data a) k.
Proof.
  intros Hne. unfold np_argmax. destruct (data a) as [|v t]; [congruence|].
  eexists. split; [reflexivity|].
  apply (argmax_from_spec t [v] 0); simpl; try lia.
  intros j Hj. replace j with 0 by lia. simpl. lra.
Qed.

Lemma first_maximum_uniform (v : R) (n k : nat) :
  first_maximum (repeat v n) k -> k = 0.
Proof.
  intros (Hk & _ & Hfirst). rewrite repeat_length in Hk.
  destruct k as [|k]; [reflexivity|].
  specialize (Hfirst 0 ltac:(lia)).
  assert (Hnth : forall i, i < n -> nth i (repeat v n) 0%R = v).
  { intros i Hi. apply (nth_error_nth (repeat v n) i 0%R).
    now apply nth_error_repeat. }
  rewrite !Hnth in Hfirst by lia. lra.
Qed.

Lemma predict_after_scores (c c' : AIImageClassifier.t) (image p : ndarray)
      (w w1 : World) :
  AIImageClassifier.class_scores c image w = inr ((c', p), w1) ->
  data p <> [] ->
  exists k,
    first_maximum (data p) k /\
    AIImageClassifier.predict c image w
    = inr ((c',
            mkPrediction
              (if k <? length (AIImageClassifier.classes c')
               then nth k (AIImageClassifier.classes c') "Unknown"
               else "Unknown")
              (nth k (data p) 0%R)
              (wall_clock w1 (ticks w1))),
           tick w1).
Proof.
  intros Hscores Hne.
  destruct (np_argmax_spec p Hne) as (k & Hk & Hmax).
  exists k. split; [exact Hmax|].
  unfold AIImageClassifier.predict. py_step. rewrite Hscores. cbn [fst snd].
  rewrite Hk. py_step.
  destruct Hmax as (Hlt & _ & _).
  unfold np_item. rewrite (nth_error_nth' _ 0%R Hlt). py_step.
  destruct (Nat.ltb_spec k (length (AIImageClassifier.classes c'))) as [Hin|Hout].
  - unfold list_getitem. rewrite (nth_error_nth' _ "Unknown" Hin). reflexivity.
  - reflexivity.
Qed.

(** ** Ranking *)

Section RankingLoop.

Variable classes : list string.
Variable p : ndarray.

Let body (results : list Prediction) (idx : nat) : M (list Prediction) :=
  if idx <? length classes then
    name <- lift (list_getitem classes idx) ;;
    conf <- lift (np_item p idx) ;;
    now <- datetime_now_isoformat ;;
    ret (results ++ [mkPrediction name conf now])
  else ret results.

Lemma ranking_body_kept (acc : list Prediction) (i : nat) (w : World) :
  i < length classes -> i < length (data p) ->
  body acc i w
  = inr (acc ++ [mkPrediction (nth i classes "Unknown") (nth i (data p) 0%R)
                   (wall_clock w (ticks w))],
         tick w).
Proof.
  intros Hin Hi. unfold body.
  destruct (Nat.ltb_spec i (length classes)) as [_ | Hout]; [|lia].
  unfold list_getitem, np_item.
  rewrite (nth_error_nth' _ "Unknown" Hin), (nth_error_nth' _ 0%R Hi).
  reflexivity.
Qed.

Lemma ranking_body_skipped (acc : list Prediction) (i : nat) (w : World) :
  length classes <= i -> body acc i w = inr (acc, w).
Proof.
  intros Hout. unfold body.
  destruct (Nat.ltb_spec i (length classes)) as [Hin | _]; [lia|].
  reflexivity.
Qed.

Lemma ranking_loop (idxs : list nat) (acc : list Prediction) (w : World) :
  Forall (fun i => i < length (data p)) idxs ->
  exists rs w',
    for_each idxs body acc w = inr (acc ++ rs, w') /\
    map class_name rs
    = map (fun i => nth i classes "Unknown") (kept_indices classes idxs) /\
    map confidence rs
    = map (fun i => nth i (data p) 0%R) (kept_indices classes idxs) /\
    wall_clock w' = wall_clock w /\ ticks w' = ticks w + length rs.
Proof.
  intros Hall. revert acc w.
  induction Hall as [|i idxs Hi _ IH]; intros acc w.
  - exists [], w. simpl. unfold ret. rewrite app_nil_r.
    repeat split; auto.
  - cbn [for_each kept_indices filter]. fold (kept_indices classes idxs).
    destruct (Nat.ltb_spec i (length classes)) as [Hin | Hout].
    + set (r := mkPrediction (nth i classes "Unknown") (nth i (data p) 0%R)
                  (wall_clock w (ticks w))).
      destruct (IH (acc ++ [r]) (tick w)) as (rs & w' & Hrun & Hn & Hc & Hclk & Htk).
      exists (r :: rs), w'. split.
      { rewrite (bind_run _ _ _ _ _ (ranking_body_kept acc i w Hin Hi)).
        fold r. rewrite Hrun. now rewrite <- app_assoc. }
      simpl. rewrite Hn, Hc. repeat split; try assumption.
      rewrite Htk. simpl. lia.
    + destruct (IH acc w) as (rs & w' & Hrun & Hn & Hc & Hclk & Htk).
      exists rs, w'. split; [|repeat split; assumption].
      rewrite (bind_run _ _ _ _ _ (ranking_body_skipped acc i w Hout)).
      exact Hrun.
Qed.

End RankingLoop.

Lemma top_indices_in_range (argsort : list R -> list nat) (p : list R) (k : Z) :
  Permutation (argsort p) (seq 0 (length p)) ->
  Forall (fun i => i < length p) (top_indices argsort p k).
Proof.
  intros Hperm. apply Forall_forall. intros i Hi.
  unfold top_indices, py_reversed, py_slice_from in Hi.
  apply in_rev in Hi.
  assert (Hin : In i (argsort p)).
  { rewrite <- (firstn_skipn (slice_start (length (argsort p)) (- k))).
    apply in_or_app. now right. }
  apply (Permutation_in _ Hperm), in_seq in Hin. lia.
Qed.

Lemma get_top_after_scores (argsort : list R -> list nat)
      (c c' : AIImageClassifier.t) (image p : ndarray) (w w1 : World) (k : Z) :
  AIImageClassifier.class_scores c image w = inr ((c', p), w1) ->
  Permutation (argsort (data p)) (seq 0 (length (data p))) ->
  exists rs w',
    AIImageClassifier.get_top_predictions argsort c image k w
    = inr ((c', rs), w') /\
    map class_name rs
    = map (fun i => nth i (AIImageClassifier.classes c') "Unknown")
          (kept_indices (AIImageClassifier.classes c')
             (top_indices argsort (data p) k)) /\
    map confidence rs
    = map (fun i => nth i (data p) 0%R)
          (kept_indices (AIImageClassifier.classes c')
             (top_indices argsort (data p) k)) /\
    wall_clock w' = wall_clock w1 /\ ticks w' = ticks w1 + length rs.
Proof.
  intros Hscores Hperm.
  destruct (ranking_loop (AIImageClassifier.classes c') p
              (top_indices argsort (data p) k) [] w1
              (top_indices_in_range argsort (data p) k Hperm))
    as (rs & w' & Hrun & Hn & Hc & Hclk & Htk).
  exists rs, w'. split; [|repeat split; assumption].
  unfold AIImageClassifier.get_top_predictions.
  rewrite (bind_run _ _ _ _ _ Hscores). cbn [fst snd].
  fold (top_indices argsort (data p) k).
  rewrite (bind_run _ _ _ _ _ Hrun). reflexivity.
Qed.

(** ** Order of the ranked indices *)

Section SortedLists.

Variable A : Type.
Variable le : A -> A -> Prop.

Lemma StronglySorted_skipn (n : nat) (l : list A) :
  StronglySorted le l -> StronglySorted le (skipn n l).
Proof.
  revert l; induction n as [|n IH]; intros l Hl; [exact Hl|].
  destruct l as [|a l]; [constructor|]. simpl. apply IH.
  now inversion Hl.
Qed.

Lemma StronglySorted_snoc (l : list A) (a : A) :
  StronglySorted le l -> Forall (fun x => le x a) l ->
  StronglySorted le (l ++ [a]).
Proof.
  induction 1 as [|x l Hl IH Hx]; intros Ha; simpl.
  - repeat constructor.
  - inversion Ha; subst. constructor; [now apply IH|].
    apply Forall_app. split; [assumption | now constructor].
Qed.

Lemma StronglySorted_filter (g : A -> bool) (l : list A) :
  StronglySorted le l -> StronglySorted le (filter g l).
Proof.
  induction 1 as [|x l Hl IH Hx]; simpl; [constructor|].
  destruct (g x); [|assumption]. constructor; [assumption|].
  apply Forall_forall. intros y Hy. apply filter_In in Hy.
  rewrite Forall_forall in Hx. now apply Hx.
Qed.

End SortedLists.

Lemma StronglySorted_rev {A : Type} (le : A -> A -> Prop) (l : list A) :
  StronglySorted le l -> StronglySorted (fun x y => le y x) (rev l).
Proof.
  induction 1 as [|x l Hl IH Hx]; simpl; [constructor|].
  apply StronglySorted_snoc; [assumption|].
  apply Forall_forall. intros y Hy. apply in_rev in Hy.
  rewrite Forall_forall in Hx. now apply Hx.
Qed.

Lemma StronglySorted_map {A B : Type} (f : A -> B) (le : B -> B -> Prop)
      (l : list A) :
  StronglySorted (fun x y => le (f x) (f y)) l -> StronglySorted le (map f l).
Proof.
  induction 1 as [|x l Hl IH Hx]; simpl; constructor; [assumption|].
  apply Forall_forall. intros y Hy. apply in_map_iff in Hy.
  destruct Hy as (z & <- & Hz). rewrite Forall_forall in Hx. now apply Hx.
Qed.

Lemma top_confidences_sorted (argsort : list R -> list nat) (p : list R)
      (k : Z) (classes : list string) :
  argsort_ok argsort ->
  StronglySorted Rge
    (map (fun i => nth i p 0%R) (kept_indices classes (top_indices argsort p k))).
Proof.
  intros Hok. destruct (Hok p) as (_ & Hsorted).
  apply StronglySorted_map. unfold kept_indices.
  apply StronglySorted_filter.
  unfold top_indices, py_reversed, py_slice_from.
  apply (StronglySorted_skipn _ _ (slice_start (length (argsort p)) (- k)))
    in Hsorted.
  apply StronglySorted_rev in Hsorted.
  revert Hsorted. apply StronglySorted_ind.
  - constructor.
  - intros a l _ IH Ha. constructor; [exact IH|].
    revert Ha. apply Forall_impl. intros b. apply Rle_ge.
Qed.

Lemma length_top_indices (argsort : list R -> list nat) (p : list R) (k : Z) :
  Permutation (argsort p) (seq 0 (length p)) ->
  length (top_indices argsort p k) = length p - slice_start (length p) (- k).
Proof.
  intros Hperm. unfold top_indices, py_reversed, py_slice_from.
  rewrite length_rev, length_skipn.
  now rewrite (Permutation_length Hperm), length_seq.
Qed.

Lemma slice_start_last (len : nat) (k : Z) :
  (1 <= k)%Z -> Z.to_nat k <= len ->
  len - slice_start len (- k) = Z.to_nat k.
Proof.
  intros H1 H2. unfold slice_start.
  destruct (Z.ltb_spec (- k) 0); lia.
Qed.

Lemma kept_indices_all (classes : list string) (idxs : list nat) :
  Forall (fun i => i < length classes) idxs ->
  kept_indices classes idxs = idxs.
Proof.
  induction 1 as [|i idxs Hi _ IH]; simpl; [reflexivity|].
  destruct (Nat.ltb_spec i (length classes)); [|lia].
  f_equal. exact IH.
Qed.

Lemma length_kept_indices (classes : list string) (idxs : list nat) :
  length (kept_indices classes idxs) <= length idxs.
Proof. apply filter_length_le. Qed.

(** ** The insertion sort behind [argsort] *)

Lemma insert_index_perm (v : list R) (i : nat) (sorted : list nat) :
  Permutation (insert_index v i sorted) (i :: sorted).
Proof.
  induction sorted as [|j t IH]; simpl; [reflexivity|].
  destruct (Rlt_dec (nth i v 0%R) (nth j v 0%R)); [reflexivity|].
  rewrite IH. apply perm_swap.
Qed.

Lemma insert_index_sorted (v : list R) (i : nat) (sorted : list nat) :
  StronglySorted (fun a b => (nth a v 0 <= nth b v 0)%R) sorted ->
  StronglySorted (fun a b => (nth a v 0 <= nth b v 0)%R) (insert_index v i sorted).
Proof.
  induction 1 as [|j t Ht IH Hj]; simpl.
  - repeat constructor.
  - destruct (Rlt_dec (nth i v 0%R) (nth j v 0%R)) as [Hlt | Hge].
    + constructor; [now constructor|].
      constructor; [lra|].
      revert Hj. apply Forall_impl. intros b Hb. lra.
    + constructor; [exact IH|].
      apply (Permutation_Forall (Permutation_sym (insert_index_perm v i t))).
      constructor; [lra | exact Hj].
Qed.

Lemma insertion_argsort_ok : argsort_ok insertion_argsort.
Proof.
  intros v. unfold insertion_argsort.
  assert (H : forall l acc,
             StronglySorted (fun a b => (nth a v 0 <= nth b v 0)%R) acc ->
             Permutation (fold_left (fun s i => insert_index v i s) l acc)
                         (acc ++ l) /\
             StronglySorted (fun a b => (nth a v 0 <= nth b v 0)%R)
               (fold_left (fun s i => insert_index v i s) l acc)).
  { induction l as [|i l IH]; intros acc Hacc; simpl.
    - rewrite app_nil_r. split; [reflexivity | exact Hacc].
    - destruct (IH (insert_index v i acc) (insert_index_sorted v i acc Hacc))
        as (Hp & Hs).
      split; [|exact Hs].
      rewrite Hp, insert_index_perm. simpl. apply Permutation_middle. }
  destruct (H (seq 0 (length v)) [] ltac:(constructor)) as (Hp & Hs).
  split; assumption.
Qed.

Lemma insert_index_last (v : list R) (i : nat) (sorted : list nat) :
  Forall (fun j => ~ (nth i v 0 < nth j v 0)%R) sorted ->
  insert_index v i sorted = sorted ++ [i].
Proof.
  induction 1 as [|j t Hj _ IH]; simpl; [reflexivity|].
  destruct (Rlt_dec (nth i v 0%R) (nth j v 0%R)); [contradiction|].
  now rewrite IH.
Qed.

Lemma nth_repeat_lt (c : R) (n i : nat) : i < n -> nth i (repeat c n) 0%R = c.
Proof.
  intros Hi. apply (nth_error_nth (repeat c n) i 0%R).
  now apply nth_error_repeat.
Qed.

Lemma insertion_argsort_uniform (c : R) (n : nat) :
  insertion_argsort (repeat c n) = seq 0 n.
Proof.
  unfold insertion_argsort. rewrite repeat_length.
  assert (H : forall m k, k + m = n ->
             fold_left (fun s i => insert_index (repeat c n) i s) (seq k m) (seq 0 k)
             = seq 0 n).
  { induction m as [|m IH]; intros k Hk; simpl.
    - f_equal. lia.
    - rewrite insert_index_last.
      + replace (seq 0 k ++ [k]) with (seq 0 (S k)) by (now rewrite seq_S).
        apply IH. lia.
      + apply Forall_forall. intros j Hj. apply in_seq in Hj.
        rewrite !nth_repeat_lt by lia. lra. }
  apply (H n 0). lia.
Qed.

(** * Properties of the specification *)

Lemma init_classifier (n : Z) :
  AIImageClassifier.__init__ n = ok (classifier_of n).
Proof. reflexivity. Qed.

Lemma classifier_of_state (n : Z) : classifier_state n (classifier_of n).
Proof.
  unfold classifier_state, classifier_of, layer_matches, zero_bias. simpl.
  split; [reflexivity|]. split; [reflexivity|].
  eexists _, _, _, _. split; [reflexivity|].
  simpl. repeat split.
Qed.

(** ** Preprocessing *)

(** C7. For an image of shape (H, W, C), [preprocess] with target size
    (th, tw) returns an array of shape exactly (th, tw, C); for an image of
    shape (H, W) it returns shape (th, tw, 1); the array is the
    normalisation of the resized image, so resize comes first. *)
Theorem preprocess_shape (image : ndarray) (th tw : Z) :
  (0 <= th)%Z -> (0 <= tw)%Z ->
  exists r y,
    ImagePreprocessor.resize image (th, tw) = ok r /\
    ImagePreprocessor.preprocess image (th, tw) = ok y /\
    y = ImagePreprocessor.normalize r /\
    well_formed y /\
    (forall H W C, shape image = [H; W; C] ->
                   shape y = [Z.to_nat th; Z.to_nat tw; C]) /\
    (forall H W, shape image = [H; W] ->
                 shape y = [Z.to_nat th; Z.to_nat tw; 1]).
Proof.
  intros Hth Htw.
  destruct (preprocess_run image th tw Hth Htw) as (r & Hr & Hp & Hs & Hwf).
  exists r, (ImagePreprocessor.normalize r).
  split; [exact Hr|]. split; [exact Hp|]. split; [reflexivity|].
  split; [exact Hwf|]. split.
  - intros H W C Himg. rewrite Hs. unfold ndim. rewrite Himg. reflexivity.
  - intros H W Himg. rewrite Hs. unfold ndim. rewrite Himg. reflexivity.
Qed.

Lemma preprocess_shape_witness :
  exists r y,
    ImagePreprocessor.resize sample_image (4, 5)%Z = ok r /\
    ImagePreprocessor.preprocess sample_image (4, 5)%Z = ok y /\
    y = ImagePreprocessor.normalize r /\
    well_formed y /\
    (forall H W C, shape sample_image = [H; W; C] -> shape y = [4; 5; C]) /\
    (forall H W, shape sample_image = [H; W] -> shape y = [4; 5; 1]).
Proof.
  apply (preprocess_shape sample_image 4 5); lia.
Defined.





(** ** Layers *)



(** C4. On an input of shape (..., input_channels), [forward] of a layer
    with positive hyperparameters returns an array of shape
    (..., output_channels); before the activation, the value of channel [c]
    at every position is the sum of the input over its trailing axis at
    that position, times 0.1, plus [bias[c]]. *)
Theorem forward_linear_transform (self : CNNLayer.t) (x : ndarray) (w : World) :
  shape x <> [] ->
  (0 < CNNLayer.filters self)%Z -> (0 < CNNLayer.kernel_size self)%Z ->
  bias_fits self ->
  exists self' b pre y w',
    CNNLayer.forward self x w = inr ((self', y), w') /\
    shape y = removelast (shape x) ++ [Z.to_nat (CNNLayer.filters self)] /\
    CNNLayer.bias self' = Some b /\
    CNNLayer.linear self' x = ok pre /\
    CNNLayer.activate self' pre = ok y /\
    shape pre = shape y /\
    forall pos c,
      pos < positions x -> c < Z.to_nat (CNNLayer.filters self) ->
      nth c (nth pos (rows_of pre) []) 0%R
      = (sum_list (nth pos (rows_of x) []) * 0.1 + nth c (data b) 0)%R.
Proof.
  intros Hs Hf Hk Hfit.
  destruct (forward_run self x w Hs ltac:(lia) ltac:(lia) Hfit
              ltac:(intros _; exact Hf))
    as (self' & b & pre & y & w' & Hrun & _ & _ & Hb & _ & _ & Hpre
        & Hlin & Hact & Hsh & _ & _ & _).
  exists self', b, pre, y, w'.
  split; [exact Hrun|]. split; [exact Hsh|]. split; [exact Hb|].
  split; [exact Hlin|]. split; [exact Hact|].
  split; [rewrite Hsh, Hpre; reflexivity|].
  intros pos c Hpos Hc. rewrite Hpre, linear_image_rows.
  rewrite (nth_map_in _ (rows_of x) [] [] pos) by (now rewrite length_rows_of).
  now rewrite nth_map_seq.
Qed.

Lemma forward_linear_transform_witness :
  exists self' b pre y w',
    CNNLayer.forward (CNNLayer.mk 3 1 "relu" None None) sample_features world0
    = inr ((self', y), w') /\
    shape y = [1; 2; 3] /\
    CNNLayer.bias self' = Some b /\
    CNNLayer.linear self' sample_features = ok pre /\
    CNNLayer.activate self' pre = ok y /\
    shape pre = shape y /\
    forall pos c,
      pos < 2 -> c < 3 ->
      nth c (nth pos (rows_of pre) []) 0%R
      = (sum_list (nth pos [[1; 2]; [3; 4]]%R []) * 0.1 + nth c (data b) 0)%R.
Proof.
  apply (forward_linear_transform (CNNLayer.mk 3 1 "relu" None None)
           sample_features world0).
  - discriminate.
  - simpl. lia.
  - simpl. lia.
  - exact I.
Defined.

(** ** Single predictions *)



Lemma class_scores_general (c : AIImageClassifier.t) (image : ndarray)
      (w : World) :
  Forall layer_usable (AIImageClassifier.model c) ->
  exists processed layers' x w1 h c0,
    ImagePreprocessor.preprocess image ImagePreprocessor.default_target_size
    = ok processed /\
    shape processed = [h; h; c0] /\ 0 < h /\
    AIImageClassifier.forward_layers (AIImageClassifier.model c) processed w
    = inr ((layers', x), w1) /\
    AIImageClassifier.class_scores c image w
    = inr ((AIImageClassifier.mk (AIImageClassifier.num_classes c)
              (AIImageClassifier.classes c) layers',
            mkArray [slice_stop (length (data x)) (AIImageClassifier.num_classes c)]
              (truncated_scores (AIImageClassifier.num_classes c) x)),
           w1).
Proof.
  intros Hall. unfold ImagePreprocessor.default_target_size.
  destruct (preprocess_run image 224 224 ltac:(lia) ltac:(lia))
    as (r & _ & Hpre & Hshape & _).
  assert (Hh : 0 < Z.to_nat 224) by lia.
  revert Hshape Hh. generalize (Z.to_nat 224). intros h Hshape Hh.
  set (processed := ImagePreprocessor.normalize r) in *.
  assert (Hs : shape processed <> []) by (rewrite Hshape; discriminate).
  destruct (forward_layers_general _ Hall processed w Hs)
    as (layers' & x & w1 & Hrun & _ & _ & Hsx & _).
  exists processed, layers', x, w1, h,
    (if 2 <? ndim image then nth 2 (shape image) 0 else 1).
  split; [exact Hpre|]. split; [exact Hshape|]. split; [exact Hh|].
  split; [exact Hrun|].
  unfold AIImageClassifier.class_scores, ImagePreprocessor.default_target_size.
  rewrite Hpre. py_step. rewrite Hrun. cbn [fst snd].
  replace (1 <? ndim x) with true.
  2:{ unfold ndim. rewrite Hsx, Hshape. reflexivity. }
  unfold np_slice_to, truncated_scores, np_flatten.
  cbn [shape data prod_dims fold_right]. now rewrite Nat.mul_1_r.
Qed.

Lemma predict_without_scores (c c' : AIImageClassifier.t) (image p : ndarray)
      (w w1 : World) :
  AIImageClassifier.class_scores c image w = inr ((c', p), w1) ->
  data p = [] ->
  AIImageClassifier.predict c image w = inl ValueError.
Proof.
  intros Hscores Hempty. unfold AIImageClassifier.predict.
  rewrite (bind_run _ _ _ _ _ Hscores). cbn [fst snd].
  unfold np_argmax. now rewrite Hempty.
Qed.

Lemma length_truncated_scores (n : Z) (x : ndarray) :
  (0 <= n)%Z ->
  length (truncated_scores n x) = Nat.min (Z.to_nat n) (length (data x)).
Proof.
  intros Hn. unfold truncated_scores, np_flatten, slice_stop. cbn [data].
  rewrite length_firstn. destruct (Z.ltb_spec n 0); lia.
Qed.

(** C5. [predict] flattens the output of the layer stack, keeps its first
    [num_classes] entries (a truncation, not an error, when the output is
    longer), takes the argmax [k] of that vector, which is numpy's first
    index of a largest entry, and returns the prediction whose class name
    is [classes[k]] when [k] is in range and "Unknown" otherwise, whose
    confidence is the value at [k], and whose timestamp is the clock
    reading.  This is so for every classifier whose layers can run,
    whatever their bias, hence for score vectors of every kind; a vector
    the truncation leaves empty makes the argmax raise a ValueError. *)
Theorem predict_argmax_of_truncated_output
        (c : AIImageClassifier.t) (image : ndarray) (w : World) :
  Forall layer_usable (AIImageClassifier.model c) ->
  exists processed layers' x w1,
    ImagePreprocessor.preprocess image ImagePreprocessor.default_target_size
    = ok processed /\
    AIImageClassifier.forward_layers (AIImageClassifier.model c) processed w
    = inr ((layers', x), w1) /\
    ((0 <= AIImageClassifier.num_classes c)%Z ->
     length (truncated_scores (AIImageClassifier.num_classes c) x)
     = Nat.min (Z.to_nat (AIImageClassifier.num_classes c)) (length (data x))) /\
    (truncated_scores (AIImageClassifier.num_classes c) x = [] ->
     AIImageClassifier.predict c image w = inl ValueError) /\
    (truncated_scores (AIImageClassifier.num_classes c) x <> [] ->
     exists k p,
       first_maximum (truncated_scores (AIImageClassifier.num_classes c) x) k /\
       AIImageClassifier.predict c image w
       = inr ((AIImageClassifier.mk (AIImageClassifier.num_classes c)
                 (AIImageClassifier.classes c) layers', p),
              tick w1) /\
       (k < length (AIImageClassifier.classes c) ->
        nth_error (AIImageClassifier.classes c) k = Some (class_name p)) /\
       (length (AIImageClassifier.classes c) <= k -> class_name p = "Unknown") /\
       confidence p
       = nth k (truncated_scores (AIImageClassifier.num_classes c) x) 0%R /\
       timestamp p = wall_clock w1 (ticks w1)).
Proof.
  intros Hall.
  destruct (class_scores_general c image w Hall)
    as (processed & layers' & x & w1 & h & c0 & Hpre & _ & _ & Hrun & Hscores).
  exists processed, layers', x, w1.
  split; [exact Hpre|]. split; [exact Hrun|].
  split; [apply length_truncated_scores|]. split.
  - intros Hempty.
    exact (predict_without_scores c _ image _ w w1 Hscores Hempty).
  - intros Hne.
    destruct (predict_after_scores c _ image _ w w1 Hscores Hne)
      as (k & Hmax & Hpred).
    cbn [data AIImageClassifier.classes] in Hmax, Hpred.
    exists k. eexists. split; [exact Hmax|]. split; [exact Hpred|].
    cbn [class_name confidence timestamp].
    destruct (Nat.ltb_spec k (length (AIImageClassifier.classes c)))
      as [Hin | Hout].
    + split; [intros _; now apply nth_error_nth'|].
      split; [intros Habs; lia|]. split; reflexivity.
    + split; [intros Habs; lia|]. split; [reflexivity|]. split; reflexivity.
Qed.

Lemma forward_layers_snoc (ls : list CNNLayer.t) (l : CNNLayer.t) :
  forall (x : ndarray) (w : World) (ls' : list CNNLayer.t) (y : ndarray)
         (w1 : World) (l' : CNNLayer.t) (z : ndarray) (w2 : World),
    AIImageClassifier.forward_layers ls x w = inr ((ls', y), w1) ->
    CNNLayer.forward l y w1 = inr ((l', z), w2) ->
    AIImageClassifier.forward_layers (ls ++ [l]) x w
    = inr ((ls' ++ [l'], z), w2).
Proof.
  induction ls as [|a ls IH]; intros x w ls' y w1 l' z w2 Hls Hl.
  - cbn in Hls. unfold ret in Hls. injection Hls as <- <- <-.
    cbn [app AIImageClassifier.forward_layers].
    rewrite (bind_run _ _ _ _ _ Hl). reflexivity.
  - cbn [AIImageClassifier.forward_layers] in Hls.
    destruct (CNNLayer.forward a x w) as [e | ((a', y1), wa)] eqn:Ha;
      [unfold bind in Hls; rewrite Ha in Hls; discriminate|].
    rewrite (bind_run _ _ _ _ _ Ha) in Hls. cbn [fst snd] in Hls.
    destruct (AIImageClassifier.forward_layers ls y1 wa)
      as [e | ((ls1, y2), wb)] eqn:Hrest;
      [unfold bind in Hls; rewrite Hrest in Hls; discriminate|].
    rewrite (bind_run _ _ _ _ _ Hrest) in Hls. unfold ret in Hls.
    cbn [fst snd] in Hls. injection Hls as <- <- <-.
    cbn [app AIImageClassifier.forward_layers].
    rewrite (bind_run _ _ _ _ _ Ha). cbn [fst snd].
    rewrite (bind_run _ _ _ _ _ (IH _ _ _ _ _ _ _ _ Hrest Hl)). reflexivity.
Qed.

Lemma biased_classifier_usable (n : Z) (b : list R) :
  (1 <= n)%Z -> length b = Z.to_nat n ->
  Forall layer_usable (AIImageClassifier.model (biased_classifier n b)).
Proof.
  intros Hn Hb. unfold biased_classifier. cbn [AIImageClassifier.model].
  repeat constructor; cbn; try lia; try discriminate.
  exists (mkArray [length b] b). split; [reflexivity | exact Hb].
Qed.

Lemma biased_scores (n : Z) (b : list R) (processed x : ndarray)
      (layers' : list CNNLayer.t) (w w1 : World) (h c0 : nat) :
  (1 <= n)%Z -> length b = Z.to_nat n ->
  shape processed = [h; h; c0] -> 0 < h ->
  AIImageClassifier.forward_layers
    (AIImageClassifier.model (biased_classifier n b)) processed w
  = inr ((layers', x), w1) ->
  exists z,
    truncated_scores n x
    = stable_softmax (map (fun i => (z + nth i b 0)%R) (seq 0 (Z.to_nat n))).
Proof.
  intros Hn Hb Hshape Hh Hrun.
  pose proof (biased_classifier_usable n b Hn Hb) as Hall.
  unfold biased_classifier in Hall, Hrun. cbn [AIImageClassifier.model] in *.
  set (l4 := CNNLayer.mk n 1 "softmax" _ _) in *.
  inversion Hall as [|? ? H1 Hall1]; subst.
  inversion Hall1 as [|? ? H2 Hall2]; subst.
  inversion Hall2 as [|? ? H3 Hall3]; subst.
  inversion Hall3 as [|? ? H4 _]; subst.
  assert (Hs : shape processed <> []) by (rewrite Hshape; discriminate).
  destruct (forward_layers_general
              [CNNLayer.mk 32 3 "relu" None None;
               CNNLayer.mk 64 3 "relu" None None;
               CNNLayer.mk 128 3 "relu" None None]
              (Forall_cons _ H1 (Forall_cons _ H2 (Forall_cons _ H3
                 (Forall_nil _)))) processed w Hs)
    as (ls' & y3 & w3 & Hrun3 & _ & _ & Hs3 & _).
  rewrite Hshape in Hs3. cbn [removelast app] in Hs3.
  assert (Hs3' : shape y3 <> []) by (rewrite Hs3; discriminate).
  destruct H4 as (Hf & Hk & Hfit & Hsm).
  destruct (forward_run l4 y3 w3 Hs3' Hf Hk Hfit Hsm)
    as (l4' & b' & pre & y & w' & Hrun4 & _ & _ & Hb' & _ & Hkeep & Hpre & _ & _
        & _ & Hdata & _).
  rewrite (Hkeep ltac:(discriminate)) in Hb'. cbn in Hb'.
  injection Hb' as <-. cbn [data] in Hpre. cbn [CNNLayer.filters l4] in Hpre.
  pose proof (forward_layers_snoc _ l4 _ _ _ _ _ _ _ _ Hrun3 Hrun4) as Hfull.
  cbn [app] in Hfull. rewrite Hfull in Hrun. injection Hrun as _ <- _.
  specialize (Hdata eq_refl).
  rewrite Hpre, linear_image_rows, map_map in Hdata.
  assert (Hrows : length (rows_of y3) = h * h).
  { rewrite length_rows_of. unfold positions. rewrite Hs3.
    cbn [removelast prod_dims fold_right]. lia. }
  destruct (rows_of y3) as [|r0 rest] eqn:Er; [cbn in Hrows; nia|].
  cbn [map concat] in Hdata.
  exists (sum_list r0 * 0.1)%R.
  set (row0 := stable_softmax _) in *.
  assert (Hlen0 : length row0 = Z.to_nat n).
  { unfold row0. now rewrite length_stable_softmax, length_map, length_seq. }
  unfold truncated_scores, np_flatten. cbn [data]. rewrite Hdata.
  rewrite slice_stop_within by (rewrite ?length_app; lia).
  rewrite <- Hlen0, firstn_app, firstn_all, Nat.sub_diag. cbn [firstn].
  now rewrite app_nil_r.
Qed.

Lemma first_maximum_unique (l : list R) (k k' : nat) :
  first_maximum l k -> first_maximum l k' -> k = k'.
Proof.
  intros (Hk & Hmax & Hfirst) (Hk' & Hmax' & Hfirst').
  destruct (Nat.lt_trichotomy k k') as [Hlt | [E | Hgt]]; [|exact E|].
  - specialize (Hfirst' k Hlt). specialize (Hmax k' Hk'). lra.
  - specialize (Hfirst k' Hgt). specialize (Hmax' k Hk). lra.
Qed.

Lemma first_maximum_shift (z : R) (b : list R) (k : nat) :
  first_maximum (map (fun i => (z + nth i b 0)%R) (seq 0 (length b))) k ->
  first_maximum b k.
Proof.
  unfold first_maximum. rewrite length_map, length_seq.
  intros (Hk & Hmax & Hfirst). split; [exact Hk|]. split.
  - intros j Hj. specialize (Hmax j Hj).
    rewrite !(nth_map_seq (fun i => (z + nth i b 0)%R)) in Hmax by assumption.
    lra.
  - intros j Hj. specialize (Hfirst j Hj).
    rewrite !(nth_map_seq (fun i => (z + nth i b 0)%R)) in Hfirst by lia.
    lra.
Qed.

Lemma first_maximum_at (l : list R) (k : nat) :
  k < length l ->
  Forall (fun v => (v <= nth k l 0)%R) l ->
  Forall (fun v => (v < nth k l 0)%R) (firstn k l) ->
  first_maximum l k.
Proof.
  intros Hk Hall Hbefore. split; [exact Hk|]. split.
  - intros j Hj. rewrite Forall_forall in Hall. apply Hall. now apply nth_In.
  - intros j Hj. rewrite Forall_forall in Hbefore.
    rewrite <- (firstn_skipn k l) at 1.
    rewrite app_nth1 by (rewrite length_firstn; lia).
    apply Hbefore. apply nth_In. rewrite length_firstn. lia.
Qed.

Lemma biased_prediction (n : Z) (b : list R) (image : ndarray) (w : World)
      (k0 : nat) (x : ndarray) (k : nat) :
  (1 <= n)%Z -> length b = Z.to_nat n -> first_maximum b k0 ->
  (exists processed layers' w1,
     ImagePreprocessor.preprocess image ImagePreprocessor.default_target_size
     = ok processed /\
     AIImageClassifier.forward_layers
       (AIImageClassifier.model (biased_classifier n b)) processed w
     = inr ((layers', x), w1)) ->
  truncated_scores n x <> [] /\
  (first_maximum (truncated_scores n x) k -> k = k0).
Proof.
  intros Hn Hb Hk0 (processed & layers' & w1 & Hpre & Hrun).
  destruct (preprocess_run image 224 224 ltac:(lia) ltac:(lia))
    as (r & _ & Hpre' & Hshape & _).
  unfold ImagePreprocessor.default_target_size in Hpre.
  rewrite Hpre' in Hpre. injection Hpre as <-.
  assert (Hh : 0 < Z.to_nat 224) by lia.
  revert Hshape Hh. generalize (Z.to_nat 224). intros h Hshape Hh.
  destruct (biased_scores n b _ x layers' w w1 h _ Hn Hb Hshape Hh Hrun)
    as (z & Hscores).
  rewrite Hscores. split.
  - intros Hnil. apply (f_equal (@length R)) in Hnil.
    rewrite length_stable_softmax, length_map, length_seq in Hnil.
    cbn in Hnil. lia.
  - intros Hmax. apply first_maximum_stable_softmax in Hmax.
    rewrite <- Hb in Hmax. apply first_maximum_shift in Hmax.
    exact (first_maximum_unique b k k0 Hmax Hk0).
Qed.

Lemma predict_argmax_of_truncated_output_witness :
  (exists c' p w',
     AIImageClassifier.predict
       (biased_classifier 10 [0; 0; 0; 1; 0; 0; 0; 0; 0; 0]%R)
       sample_image world0
     = inr ((c', p), w') /\
     class_name p = "Cat") /\
  (exists c' p w',
     AIImageClassifier.predict
       (biased_classifier 11 [0; 0; 0; 0; 0; 0; 0; 0; 0; 0; 1]%R)
       sample_image world0
     = inr ((c', p), w') /\
     class_name p = "Unknown").
Proof.
  split.
  - set (b := [0; 0; 0; 1; 0; 0; 0; 0; 0; 0]%R).
    destruct (predict_argmax_of_truncated_output (biased_classifier 10 b)
                sample_image world0
                (biased_classifier_usable 10 b ltac:(lia) eq_refl))
      as (processed & layers' & x & w1 & Hpre & Hrun & _ & _ & Hne).
    cbn [AIImageClassifier.num_classes AIImageClassifier.classes
         biased_classifier] in Hne.
    assert (Hk0 : first_maximum b 3).
    { apply first_maximum_at; [cbn; lia | |]; cbn;
        repeat constructor; lra. }
    destruct (biased_prediction 10 b sample_image world0 3 x 0
                ltac:(lia) eq_refl Hk0) as (Hfull & _).
    { exists processed, layers', w1. split; [exact Hpre | exact Hrun]. }
    destruct (Hne Hfull) as (k & p & Hmax & Hpred & Hin & _).
    destruct (biased_prediction 10 b sample_image world0 3 x k
                ltac:(lia) eq_refl Hk0) as (_ & Hk).
    { exists processed, layers', w1. split; [exact Hpre | exact Hrun]. }
    specialize (Hk Hmax). subst k.
    eexists _, p, _. split; [exact Hpred|].
    specialize (Hin ltac:(cbn; lia)). cbn in Hin. now injection Hin.
  - set (b := [0; 0; 0; 0; 0; 0; 0; 0; 0; 0; 1]%R).
    destruct (predict_argmax_of_truncated_output (biased_classifier 11 b)
                sample_image world0
                (biased_classifier_usable 11 b ltac:(lia) eq_refl))
      as (processed & layers' & x & w1 & Hpre & Hrun & _ & _ & Hne).
    cbn [AIImageClassifier.num_classes AIImageClassifier.classes
         biased_classifier] in Hne.
    assert (Hk0 : first_maximum b 10).
    { apply first_maximum_at; [cbn; lia | |]; cbn;
        repeat constructor; lra. }
    destruct (biased_prediction 11 b sample_image world0 10 x 0
                ltac:(lia) eq_refl Hk0) as (Hfull & _).
    { exists processed, layers', w1. split; [exact Hpre | exact Hrun]. }
    destruct (Hne Hfull) as (k & p & Hmax & Hpred & _ & Hout & _).
    destruct (biased_prediction 11 b sample_image world0 10 x k
                ltac:(lia) eq_refl Hk0) as (_ & Hk).
    { exists processed, layers', w1. split; [exact Hpre | exact Hrun]. }
    specialize (Hk Hmax). subst k.
    eexists _, p, _. split; [exact Hpred|].
    apply Hout. cbn. lia.
Defined.



(** ** Ranked predictions *)

Lemma top_indices_insertion_uniform (v : R) (n : nat) (k : Z) :
  top_indices insertion_argsort (repeat v n) k
  = py_reversed (py_slice_from (- k) (seq 0 n)).
Proof. unfold top_indices. now rewrite insertion_argsort_uniform. Qed.

Lemma get_top_run (argsort : list R -> list nat) (n : Z)
      (c : AIImageClassifier.t) (image : ndarray) (w : World) (k : Z) :
  argsort_ok argsort -> classifier_state n c -> (1 <= n)%Z ->
  exists c' rs w',
    AIImageClassifier.get_top_predictions argsort c image k w
    = inr ((c', rs), w') /\
    classifier_state n c' /\
    map class_name rs
    = map (fun i => nth i AIImageClassifier.CLASSES "Unknown")
          (kept_indices AIImageClassifier.CLASSES
             (top_indices argsort (repeat (1 / IZR n)%R (Z.to_nat n)) k)) /\
    map confidence rs
    = map (fun i => nth i (repeat (1 / IZR n)%R (Z.to_nat n)) 0%R)
          (kept_indices AIImageClassifier.CLASSES
             (top_indices argsort (repeat (1 / IZR n)%R (Z.to_nat n)) k)) /\
    StronglySorted Rge (map confidence rs) /\
    ticks w' = ticks w + length rs.
Proof.
  intros Hok Hst Hn.
  destruct (class_scores_run n c image w Hst Hn)
    as (processed & c' & x & w1 & _ & _ & _ & Hscores & Hunif & Hst' & _ & Htk).
  rewrite Hunif in Hscores.
  destruct (get_top_after_scores argsort c c' image _ w w1 k Hscores
              (proj1 (Hok _)))
    as (rs & w' & Hrun & Hnames & Hconf & _ & Htk').
  cbn [data] in Hnames, Hconf.
  destruct Hst' as (Hnum' & Hc' & Hlayers). rewrite Hc' in Hnames, Hconf.
  exists c', rs, w'. split; [exact Hrun|].
  split; [unfold classifier_state; auto|].
  split; [exact Hnames|]. split; [exact Hconf|].
  split; [rewrite Hconf; now apply top_confidences_sorted | lia].
Qed.

Lemma length_of_map_eq {A B C : Type} (f : A -> C) (g : B -> C)
      (l : list A) (l' : list B) :
  map f l = map g l' -> length l = length l'.
Proof.
  intros H. apply (f_equal (@length C)) in H. now rewrite !length_map in H.
Qed.

(** For a positive [top_k] not above [num_classes] the ranking is as the
    specification says: at most [top_k] records, exactly [top_k] minus the
    skipped indices, confidences never increasing. *)
Lemma get_top_predictions_positive_k (argsort : list R -> list nat) (n : Z)
      (c : AIImageClassifier.t) (image : ndarray) (w : World) (k : Z) :
  argsort_ok argsort -> classifier_state n c -> (1 <= k <= n)%Z ->
  exists c' rs w' selected,
    AIImageClassifier.get_top_predictions argsort c image k w
    = inr ((c', rs), w') /\
    classifier_state n c' /\
    length selected = Z.to_nat k /\
    length rs = length (kept_indices AIImageClassifier.CLASSES selected) /\
    length rs <= Z.to_nat k /\
    ((n <= 10)%Z -> length rs = Z.to_nat k) /\
    StronglySorted Rge (map confidence rs).
Proof.
  intros Hok Hst Hk.
  destruct (get_top_run argsort n c image w k Hok Hst ltac:(lia))
    as (c' & rs & w' & Hrun & Hst' & Hnames & _ & Hsorted & _).
  set (p := repeat (1 / IZR n)%R (Z.to_nat n)) in *.
  assert (Hp : length p = Z.to_nat n) by apply repeat_length.
  assert (Hsel : length (top_indices argsort p k) = Z.to_nat k).
  { rewrite (length_top_indices argsort p k (proj1 (Hok p))), Hp.
    apply slice_start_last; lia. }
  assert (Hrs : length rs
                = length (kept_indices AIImageClassifier.CLASSES
                            (top_indices argsort p k)))
    by exact (length_of_map_eq _ _ _ _ Hnames).
  exists c', rs, w', (top_indices argsort p k).
  split; [exact Hrun|]. split; [exact Hst'|]. split; [exact Hsel|].
  split; [exact Hrs|]. split.
  { rewrite Hrs, <- Hsel. apply length_kept_indices. }
  split; [|exact Hsorted].
  intros Hten. rewrite Hrs, kept_indices_all; [exact Hsel|].
  pose proof (top_indices_in_range argsort p k (proj1 (Hok p))) as Hrange.
  revert Hrange. apply Forall_impl. intros i Hi.
  change (length AIImageClassifier.CLASSES) with (Z.to_nat 10). lia.
Qed.

(** C1. With [top_k = 0] the slice [[-top_k:]] is the whole array: on a
    classifier with at most ten classes [get_top_predictions] returns one
    record per class, where the specification allows none. *)
Theorem get_top_predictions_top_k_zero (argsort : list R -> list nat) (n : Z)
        (c : AIImageClassifier.t) (image : ndarray) (w : World) :
  argsort_ok argsort -> classifier_state n c -> (1 <= n <= 10)%Z ->
  exists c' rs w',
    AIImageClassifier.get_top_predictions argsort c image 0 w
    = inr ((c', rs), w') /\
    length rs = Z.to_nat n /\
    ~ length rs <= Z.to_nat 0.
Proof.
  intros Hok Hst Hn.
  destruct (get_top_run argsort n c image w 0 Hok Hst ltac:(lia))
    as (c' & rs & w' & Hrun & _ & Hnames & _ & _ & _).
  set (p := repeat (1 / IZR n)%R (Z.to_nat n)) in *.
  assert (Hp : length p = Z.to_nat n) by apply repeat_length.
  apply length_of_map_eq in Hnames.
  rewrite kept_indices_all in Hnames.
  - rewrite (length_top_indices argsort p 0 (proj1 (Hok p))), Hp in Hnames.
    change (slice_start (Z.to_nat n) (- 0)) with 0 in Hnames.
    exists c', rs, w'. split; [exact Hrun|]. lia.
  - pose proof (top_indices_in_range argsort p 0 (proj1 (Hok p))) as Hrange.
    revert Hrange. apply Forall_impl. intros i Hi.
    change (length AIImageClassifier.CLASSES) with (Z.to_nat 10). lia.
Qed.

Lemma get_top_predictions_top_k_zero_witness :
  exists c' rs w',
    AIImageClassifier.get_top_predictions insertion_argsort
      (classifier_of 10) sample_image 0 world0
    = inr ((c', rs), w') /\
    length rs = 10 /\
    ~ length rs <= 0.
Proof.
  apply (get_top_predictions_top_k_zero insertion_argsort 10 (classifier_of 10)
           sample_image world0).
  - exact insertion_argsort_ok.
  - apply classifier_of_state.
  - lia.
Defined.

(** ** The report of [analyze_image] *)

Lemma analyze_after_top (argsort : list R -> list nat)
      (c c' : AIImageClassifier.t) (image : ndarray) (w w' : World)
      (first : Prediction) (rest : list Prediction) :
  AIImageClassifier.get_top_predictions argsort c image 3 w
  = inr ((c', first :: rest), w') ->
  AIImageClassifier.analyze_image argsort c image w
  = inr ((c',
          mkReport (class_name first, confidence first)
            (map (fun p => (class_name p, confidence p)) (first :: rest))
            (AIImageClassifier.num_classes c', "CNN",
             length (AIImageClassifier.model c'))
            (wall_clock w' (ticks w'))),
         tick w').
Proof.
  intros Htop. unfold AIImageClassifier.analyze_image.
  rewrite (bind_run _ _ _ _ _ Htop). reflexivity.
Qed.

(** C2, as the code has it. For every image, if [3 <= num_classes <= 10]
    then [analyze_image] returns a report whose [all_predictions] has
    length exactly 3 and whose [primary_prediction] is the class and
    confidence pair of [all_predictions[0]]. *)
Theorem analyze_image_top_three (argsort : list R -> list nat) (n : Z)
        (c : AIImageClassifier.t) (image : ndarray) (w : World) :
  argsort_ok argsort -> classifier_state n c -> (3 <= n <= 10)%Z ->
  analyze_image_claim argsort c image w.
Proof.
  intros Hok Hst Hn.
  destruct (get_top_predictions_positive_k argsort n c image w 3 Hok Hst
              ltac:(lia))
    as (c' & rs & w' & sel & Hrun & _ & _ & _ & _ & Hlen & _).
  specialize (Hlen ltac:(lia)).
  destruct rs as [|first rest]; [discriminate|].
  unfold analyze_image_claim.
  rewrite (analyze_after_top argsort c c' image w w' first rest Hrun).
  eexists _, _, _. split; [reflexivity|].
  cbn [all_predictions primary_prediction]. rewrite length_map.
  split; [exact Hlen | reflexivity].
Qed.

Lemma analyze_image_top_three_witness :
  analyze_image_claim insertion_argsort (classifier_of 10) sample_image world0.
Proof.
  apply (analyze_image_top_three insertion_argsort 10).
  - exact insertion_argsort_ok.
  - apply classifier_of_state.
  - lia.
Defined.

(** C2 as stated fails: with eleven classes the three best indices are 10,
    9 and 8, index 10 names no class and is skipped, and the report holds
    two predictions. *)
Lemma analyze_image_eleven_classes :
  ~ analyze_image_claim insertion_argsort (classifier_of 11) sample_image world0.
Proof.
  destruct (get_top_run insertion_argsort 11 (classifier_of 11) sample_image
              world0 3 insertion_argsort_ok (classifier_of_state 11) ltac:(lia))
    as (c' & rs & w' & Hrun & _ & Hnames & _ & _ & _).
  rewrite top_indices_insertion_uniform in Hnames.
  apply length_of_map_eq in Hnames.
  assert (Hlen : length rs = 2) by (rewrite Hnames; reflexivity).
  destruct rs as [|first rest]; [discriminate|].
  intros (c2 & r & w2 & Han & Hthree & _).
  rewrite (analyze_after_top _ _ c' _ _ w' first rest Hrun) in Han.
  injection Han as _ Hr _. subst r.
  simpl in Hthree, Hlen. rewrite length_map in Hthree. lia.
Qed.

(** ** Construction *)

Lemma np_max_last_keepdims_empty (x : ndarray) :
  shape x <> [] -> channels x = 0 ->
  np_max_last_keepdims x = throw ValueError.
Proof.
  intros Hs Hc. unfold np_max_last_keepdims.
  destruct (shape x); [congruence|]. now rewrite Hc.
Qed.

Lemma softmax_layer_rejects (n : Z) (x : ndarray) (w : World) :
  shape x <> [] -> (n <= 0)%Z ->
  CNNLayer.forward (CNNLayer.mk n 1 "softmax" None None) x w = inl ValueError.
Proof.
  intros Hs Hn. destruct (Z.ltb_spec n 0) as [Hneg | Hzero].
  - unfold CNNLayer.forward, CNNLayer.materialize. cbn [CNNLayer.weights].
    unfold CNNLayer.shape_last. destruct (shape x) as [|d sh]; [congruence|].
    unfold np_random_randn, check_dims. cbn [forallb CNNLayer.filters].
    replace (0 <=? n)%Z with false by (symmetry; apply Z.leb_gt; lia).
    reflexivity.
  - assert (n = 0%Z) by lia. subst n.
    set (self := CNNLayer.mk 0 1 "softmax" None None).
    destruct (materialize_run self x w Hs ltac:(simpl; lia) ltac:(simpl; lia) I)
      as (self' & b & w' & Hm & (Hsf & Hsk & Hsa) & _ & Hb & Hlen & _).
    assert (Hlin : CNNLayer.linear self' x = ok (linear_image 0 (data b) x)).
    { assert (Hf0 : CNNLayer.filters self' = 0%Z) by exact Hsf.
      pose proof (linear_closed_form self' x b Hs Hb) as Hlin.
      rewrite Hf0 in Hlin. apply Hlin; [exact Hlen | lia]. }
    destruct (linear_image_shape 0 (data b) x) as (Hps & Hpc).
    unfold CNNLayer.forward.
    rewrite (bind_run _ _ _ _ _ Hm). unfold bind, lift. rewrite Hlin.
    unfold CNNLayer.activate. rewrite Hsa. cbn [CNNLayer.activation self].
    cbn [String.eqb Ascii.eqb Bool.eqb]. py_step.
    now rewrite (np_max_last_keepdims_empty _ Hps Hpc).
Qed.

Lemma predict_rejects_nonpositive (n : Z) (image : ndarray) (w : World) :
  (n <= 0)%Z ->
  AIImageClassifier.predict (classifier_of n) image w = inl ValueError.
Proof.
  intros Hn.
  destruct (preprocess_run image 224 224 ltac:(lia) ltac:(lia))
    as (r & _ & Hpre & Hshape & _).
  revert Hshape. generalize (Z.to_nat 224). intros h Hshape.
  assert (Hfresh : forall f k, layer_matches f k "relu"
                                 (CNNLayer.mk f k "relu" None None)).
  { intros f k. unfold layer_matches, zero_bias. simpl. auto. }
  destruct (relu_layer_step 32 3 _ (ImagePreprocessor.normalize r) w h h _
              (Hfresh 32%Z 3%Z) ltac:(lia) ltac:(lia) Hshape)
    as (l1' & y1 & w1 & R1 & _ & S1 & _).
  destruct (relu_layer_step 64 3 _ y1 w1 h h _
              (Hfresh 64%Z 3%Z) ltac:(lia) ltac:(lia) S1)
    as (l2' & y2 & w2 & R2 & _ & S2 & _).
  destruct (relu_layer_step 128 3 _ y2 w2 h h _
              (Hfresh 128%Z 3%Z) ltac:(lia) ltac:(lia) S2)
    as (l3' & y3 & w3 & R3 & _ & S3 & _).
  assert (R4 := softmax_layer_rejects n y3 w3
                  ltac:(rewrite S3; discriminate) Hn).
  unfold AIImageClassifier.predict, AIImageClassifier.class_scores,
    ImagePreprocessor.default_target_size.
  rewrite Hpre. unfold classifier_of.
  cbn [AIImageClassifier.model AIImageClassifier.forward_layers].
  py_step. rewrite R1. cbn [fst snd]. rewrite R2. cbn [fst snd].
  rewrite R3. cbn [fst snd]. rewrite R4. reflexivity.
Qed.

(** C3, as the code has it. Construction never fails: [CNNLayer] and
    [AIImageClassifier] store whatever integers they are given, without
    validation and without running a forward pass; a classifier built
    with [num_classes <= 0] fails later, with a ValueError raised by the
    forward pass of its first [predict]. *)
Theorem construction_never_validates :
  (forall filters kernel_size act,
     CNNLayer.__init__ filters kernel_size act
     = ok (CNNLayer.mk filters kernel_size act None None)) /\
  (forall n, AIImageClassifier.__init__ n = ok (classifier_of n)) /\
  (forall n image w,
     (n <= 0)%Z ->
     AIImageClassifier.predict (classifier_of n) image w = inl ValueError).
Proof.
  split; [reflexivity|]. split; [reflexivity|].
  intros n image w Hn. now apply predict_rejects_nonpositive.
Qed.

Lemma construction_never_validates_witness :
  CNNLayer.__init__ 0 3 "relu" = ok (CNNLayer.mk 0 3 "relu" None None) /\
  AIImageClassifier.__init__ (-1) = ok (classifier_of (-1)) /\
  AIImageClassifier.predict (classifier_of 0) sample_image world0
  = inl ValueError.
Proof.
  destruct construction_never_validates as (Hlayer & Hcls & Hpredict).
  split; [apply Hlayer|]. split; [apply Hcls|].
  apply Hpredict. lia.
Defined.

(** C3 as stated fails: a layer with no output channel and a classifier
    with no class are constructed without error. *)
Lemma construction_accepts_zero :
  ~ layer_construction_claim 0 3 "relu" /\ ~ classifier_construction_claim 0.
Proof.
  split.
  - intros H. destruct (H ltac:(lia)) as (e & He). discriminate He.
  - intros H. destruct (H ltac:(lia)) as (e & He). discriminate He.
Qed.

(** * Further properties of the code *)

Ltac py_step_in H := cbv beta iota delta [ok throw ret bind lift rbind] in H.

(** ** Activations, position by position *)

Lemma concat_rows_of (x : ndarray) :
  shape x <> [] -> well_formed x -> concat (rows_of x) = data x.
Proof.
  intros Hs Hwf. pose proof (well_formed_rows x Hs Hwf) as Hlen.
  unfold rows_of. revert Hlen.
  generalize (data x) as d. generalize (channels x) as c.
  induction (positions x) as [|n IH]; intros c d Hd; simpl.
  - simpl in Hd. now destruct d.
  - rewrite IH.
    + apply firstn_skipn.
    + rewrite length_skipn. simpl in Hd. lia.
Qed.

Lemma length_activation_on_row (act : string) (r : list R) :
  length (activation_on_row act r) = length r.
Proof.
  unfold activation_on_row.
  destruct (String.eqb act "relu"); [apply length_map|].
  destruct (String.eqb act "softmax"); [apply length_stable_softmax | reflexivity].
Qed.

Lemma activate_rowwise (self : CNNLayer.t) (pre : ndarray) :
  shape pre <> [] -> well_formed pre ->
  (CNNLayer.activation self = "softmax" -> 0 < channels pre) ->
  CNNLayer.activate self pre
  = ok (mkArray (shape pre)
          (concat (map (activation_on_row (CNNLayer.activation self))
                       (rows_of pre)))).
Proof.
  intros Hs Hwf Hc. unfold activation_on_row.
  destruct (String.eqb (CNNLayer.activation self) "relu") eqn:Er.
  - unfold CNNLayer.activate. rewrite Er. unfold np_maximum0.
    now rewrite <- concat_map, (concat_rows_of pre Hs Hwf).
  - destruct (String.eqb (CNNLayer.activation self) "softmax") eqn:Esm.
    + apply String.eqb_eq in Esm.
      apply softmax_closed_form; auto.
    + unfold CNNLayer.activate. rewrite Er, Esm.
      rewrite map_id, (concat_rows_of pre Hs Hwf). now destruct pre.
Qed.

Lemma forward_rowwise (self : CNNLayer.t) (x : ndarray) (w : World) :
  shape x <> [] -> layer_usable self ->
  exists self' b y w',
    CNNLayer.forward self x w = inr ((self', y), w') /\
    same_hyperparameters self self' /\
    CNNLayer.bias self' = Some b /\
    (zero_bias self -> data b = repeat 0%R (Z.to_nat (CNNLayer.filters self))) /\
    shape y = removelast (shape x) ++ [Z.to_nat (CNNLayer.filters self)] /\
    rows_of y
    = map (fun r =>
             activation_on_row (CNNLayer.activation self)
               (map (fun i => (sum_list r * 0.1 + nth i (data b) 0)%R)
                    (seq 0 (Z.to_nat (CNNLayer.filters self)))))
          (rows_of x) /\
    data y = concat (rows_of y).
Proof.
  intros Hs (Hf & Hk & Hfit & Hsm).
  destruct (forward_run self x w Hs Hf Hk Hfit Hsm)
    as (self' & b & pre & y & w' & Hrun & Hsame & _ & Hb & Hzero & _ & Hpre
        & _ & Hact & Hsh & _ & _ & _).
  exists self', b, y, w'. split; [exact Hrun|]. split; [exact Hsame|].
  split; [exact Hb|]. split; [exact Hzero|]. split; [exact Hsh|].
  destruct Hsame as (Hsf & _ & Hsa).
  set (f := Z.to_nat (CNNLayer.filters self)) in *.
  destruct (linear_image_shape f (data b) x) as (Hps & Hpc).
  pose proof (linear_image_well_formed f (data b) x) as Hwf.
  rewrite <- Hpre in Hps, Hpc, Hwf.
  rewrite (activate_rowwise self' pre Hps Hwf) in Hact.
  2:{ rewrite Hsa, Hpc. intros Ha. specialize (Hsm Ha). unfold f. lia. }
  injection Hact as <-.
  assert (Hrows : rows_of (mkArray (shape pre)
                    (concat (map (activation_on_row (CNNLayer.activation self'))
                                 (rows_of pre))))
                  = map (activation_on_row (CNNLayer.activation self'))
                        (rows_of pre)).
  { apply rows_of_mapped; try assumption. apply length_activation_on_row. }
  rewrite Hrows. cbn [data]. split; [|reflexivity].
  rewrite Hpre, linear_image_rows, map_map, Hsa. reflexivity.
Qed.

Lemma nth_rows_mapped {B : Type} (g : list R -> list B) (x : ndarray) (pos : nat) :
  pos < positions x ->
  nth pos (map g (rows_of x)) [] = g (nth pos (rows_of x) []).
Proof.
  intros Hpos. apply nth_map_in. now rewrite length_rows_of.
Qed.

(** X1. A layer with the relu activation returns, at every position and
    channel, the larger of 0 and the linear value (row sum times 0.1 plus
    bias); no entry of its output is negative. *)
Theorem relu_forward_clips_at_zero (self : CNNLayer.t) (x : ndarray) (w : World) :
  CNNLayer.activation self = "relu" -> shape x <> [] -> layer_usable self ->
  exists self' b y w',
    CNNLayer.forward self x w = inr ((self', y), w') /\
    CNNLayer.bias self' = Some b /\
    Forall (fun v => (0 <= v)%R) (data y) /\
    forall pos c,
      pos < positions x -> c < Z.to_nat (CNNLayer.filters self) ->
      nth c (nth pos (rows_of y) []) 0%R
      = Rmax 0 (sum_list (nth pos (rows_of x) []) * 0.1 + nth c (data b) 0)%R.
Proof.
  intros Hact Hs Hu.
  destruct (forward_rowwise self x w Hs Hu)
    as (self' & b & y & w' & Hrun & _ & Hb & _ & _ & Hrows & Hdata).
  rewrite Hact in Hrows. unfold activation_on_row in Hrows.
  cbn [String.eqb Ascii.eqb Bool.eqb] in Hrows.
  exists self', b, y, w'. split; [exact Hrun|]. split; [exact Hb|]. split.
  - rewrite Hdata, Hrows. apply Forall_forall. intros v Hv.
    apply in_concat in Hv. destruct Hv as (row & Hrow & Hv).
    apply in_map_iff in Hrow. destruct Hrow as (r & <- & _).
    apply in_map_iff in Hv. destruct Hv as (u & <- & _). apply Rmax_l.
  - intros pos c Hpos Hc. rewrite Hrows.
    rewrite (nth_rows_mapped _ x pos Hpos), map_map.
    now rewrite nth_map_seq.
Qed.

Lemma relu_forward_clips_at_zero_witness :
  exists self' b y w',
    CNNLayer.forward (CNNLayer.mk 3 1 "relu" None None) sample_features world0
    = inr ((self', y), w') /\
    CNNLayer.bias self' = Some b /\
    Forall (fun v => (0 <= v)%R) (data y) /\
    forall pos c,
      pos < 2 -> c < 3 ->
      nth c (nth pos (rows_of y) []) 0%R
      = Rmax 0 (sum_list (nth pos [[1; 2]; [3; 4]]%R []) * 0.1
               + nth c (data b) 0)%R.
Proof.
  apply (relu_forward_clips_at_zero (CNNLayer.mk 3 1 "relu" None None)
           sample_features world0).
  - reflexivity.
  - discriminate.
  - unfold layer_usable, bias_fits. simpl.
    repeat split; lia.
Defined.

(** X2. An activation name other than "relu" and "softmax" is not
    rejected: the layer returns the linear values unchanged. *)
Theorem unknown_activation_passes_through
        (self : CNNLayer.t) (x : ndarray) (w : World) :
  CNNLayer.activation self <> "relu" ->
  CNNLayer.activation self <> "softmax" ->
  shape x <> [] -> layer_usable self ->
  exists self' b y w',
    CNNLayer.forward self x w = inr ((self', y), w') /\
    CNNLayer.bias self' = Some b /\
    CNNLayer.linear self' x = ok y /\
    y = linear_image (Z.to_nat (CNNLayer.filters self)) (data b) x.
Proof.
  intros Hr Hsm Hs (Hf & Hk & Hfit & Hsoft).
  destruct (forward_run self x w Hs Hf Hk Hfit Hsoft)
    as (self' & b & pre & y & w' & Hrun & (_ & _ & Hsa) & _ & Hb & _ & _ & Hpre
        & Hlin & Hact & _).
  unfold CNNLayer.activate in Hact. rewrite Hsa in Hact.
  apply String.eqb_neq in Hr, Hsm. rewrite Hr, Hsm in Hact.
  injection Hact as <-.
  exists self', b, pre, w'. repeat split; assumption.
Qed.

Lemma unknown_activation_passes_through_witness :
  exists self' b y w',
    CNNLayer.forward (CNNLayer.mk 3 1 "ReLU" None None) sample_features world0
    = inr ((self', y), w') /\
    CNNLayer.bias self' = Some b /\
    CNNLayer.linear self' sample_features = ok y /\
    y = linear_image 3 (data b) sample_features.
Proof.
  apply (unknown_activation_passes_through (CNNLayer.mk 3 1 "ReLU" None None)
           sample_features world0).
  - discriminate.
  - discriminate.
  - discriminate.
  - unfold layer_usable, bias_fits. simpl.
    repeat split; lia.
Defined.

Lemma activation_on_row_repeat (act : string) (v : R) (f : nat) :
  (act = "softmax" -> 0 < f) ->
  exists v', activation_on_row act (repeat v f) = repeat v' f.
Proof.
  intros Hf. unfold activation_on_row.
  destruct (String.eqb act "relu").
  - exists (Rmax 0 v). apply map_repeat.
  - destruct (String.eqb act "softmax") eqn:E.
    + apply String.eqb_eq in E. exists (1 / INR f)%R.
      apply stable_softmax_uniform. auto.
    + now exists v.
Qed.

(** X3. A layer in a state the code itself produces (as constructed, or
    materialised with its zero bias) writes the same value into every
    output channel of a position, whatever the activation. *)
Theorem forward_channels_are_equal (self : CNNLayer.t) (x : ndarray) (w : World) :
  zero_bias self -> shape x <> [] -> layer_usable self ->
  exists self' y w',
    CNNLayer.forward self x w = inr ((self', y), w') /\
    length (rows_of y) = positions x /\
    Forall (fun r => exists v, r = repeat v (Z.to_nat (CNNLayer.filters self)))
           (rows_of y).
Proof.
  intros Hz Hs Hu.
  destruct (forward_rowwise self x w Hs Hu)
    as (self' & b & y & w' & Hrun & _ & _ & Hzero & _ & Hrows & _).
  exists self', y, w'. split; [exact Hrun|]. rewrite Hrows, (Hzero Hz).
  split; [now rewrite length_map, length_rows_of|].
  apply Forall_forall. intros r' Hr'. apply in_map_iff in Hr'.
  destruct Hr' as (r & <- & _).
  rewrite (map_seq_zero_bias (fun z => (sum_list r * 0.1 + z)%R)).
  apply activation_on_row_repeat.
  destruct Hu as (_ & _ & _ & Hsm). intros Ha. specialize (Hsm Ha). lia.
Qed.

Lemma forward_channels_are_equal_witness :
  exists self' y w',
    CNNLayer.forward (CNNLayer.mk 3 1 "relu" None None) sample_features world0
    = inr ((self', y), w') /\
    length (rows_of y) = 2 /\
    Forall (fun r => exists v, r = repeat v 3) (rows_of y).
Proof.
  apply (forward_channels_are_equal (CNNLayer.mk 3 1 "relu" None None)
           sample_features world0).
  - exact I.
  - discriminate.
  - unfold layer_usable, bias_fits. simpl.
    repeat split; lia.
Defined.

(** ** The parameters of a layer *)

Lemma materialize_fresh (self : CNNLayer.t) (x : ndarray) (w : World) :
  CNNLayer.weights self = None -> shape x <> [] ->
  (0 <= CNNLayer.filters self)%Z -> (0 <= CNNLayer.kernel_size self)%Z ->
  let f := Z.to_nat (CNNLayer.filters self) in
  let k := Z.to_nat (CNNLayer.kernel_size self) in
  let total := f * channels x * k * k in
  CNNLayer.materialize self x w
  = inr (CNNLayer.mk (CNNLayer.filters self) (CNNLayer.kernel_size self)
           (CNNLayer.activation self)
           (Some (mkArray [f; channels x; k; k]
                    (map (fun i => (gauss w (drawn w + i) * 0.1)%R)
                         (seq 0 total))))
           (Some (mkArray [f] (repeat 0%R f))),
         mkWorld (gauss w) (drawn w + total) (wall_clock w) (ticks w)).
Proof.
  intros Hw Hs Hf Hk f k total. unfold CNNLayer.materialize. rewrite Hw.
  assert (Hlast : CNNLayer.shape_last x = ok (channels x)).
  { unfold CNNLayer.shape_last. destruct (shape x); [congruence | reflexivity]. }
  assert (Hdims : check_dims [CNNLayer.filters self; Z.of_nat (channels x);
                              CNNLayer.kernel_size self;
                              CNNLayer.kernel_size self]
                  = ok [f; channels x; k; k]).
  { unfold check_dims. cbn [forallb map].
    apply Z.leb_le in Hf. apply Z.leb_le in Hk. rewrite Hf, Hk.
    replace (0 <=? Z.of_nat (channels x))%Z with true
      by (symmetry; apply Z.leb_le; lia).
    cbn [andb]. now rewrite Nat2Z.id. }
  assert (Hzeros : np_zeros [CNNLayer.filters self]
                   = ok (mkArray [f] (repeat 0%R f))).
  { unfold np_zeros, check_dims. cbn [forallb map].
    apply Z.leb_le in Hf. rewrite Hf. cbn [andb]. py_step.
    cbn [prod_dims fold_right]. now rewrite Nat.mul_1_r. }
  rewrite Hlast. py_step. unfold np_random_randn. py_step.
  rewrite Hdims. py_step. rewrite Hzeros. py_step.
  cbn [prod_dims fold_right].
  replace (f * (channels x * (k * (k * 1)))) with total by (unfold total; lia).
  unfold np_scale. cbn [shape data]. now rewrite map_map.
Qed.

(** X4. The first forward call of a layer draws exactly
    [filters * input_channels * kernel_size * kernel_size] samples, stores
    them scaled by 0.1 as weights of that four-dimensional shape, and
    stores a bias of [filters] zeros; the hyperparameters and the clock
    are untouched. *)
Theorem first_forward_materialises (self : CNNLayer.t) (x : ndarray) (w : World) :
  CNNLayer.weights self = None -> shape x <> [] -> layer_usable self ->
  exists self' wts y w',
    CNNLayer.forward self x w = inr ((self', y), w') /\
    same_hyperparameters self self' /\
    CNNLayer.weights self' = Some wts /\
    shape wts = [Z.to_nat (CNNLayer.filters self); channels x;
                 Z.to_nat (CNNLayer.kernel_size self);
                 Z.to_nat (CNNLayer.kernel_size self)] /\
    well_formed wts /\
    (forall i, i < length (data wts) ->
       nth i (data wts) 0%R = (gauss w (drawn w + i) * 0.1)%R) /\
    CNNLayer.bias self'
    = Some (mkArray [Z.to_nat (CNNLayer.filters self)]
              (repeat 0%R (Z.to_nat (CNNLayer.filters self)))) /\
    drawn w' = drawn w + length (data wts) /\
    gauss w' = gauss w /\ wall_clock w' = wall_clock w /\ ticks w' = ticks w.
Proof.
  intros Hw Hs (Hf & Hk & Hfit & Hsm).
  pose proof (materialize_fresh self x w Hw Hs Hf Hk) as Hm. cbv zeta in Hm.
  set (f := Z.to_nat (CNNLayer.filters self)) in *.
  set (k := Z.to_nat (CNNLayer.kernel_size self)) in *.
  set (wts := mkArray [f; channels x; k; k] _) in Hm.
  set (b := mkArray [f] (repeat 0%R f)) in Hm.
  set (self1 := CNNLayer.mk _ _ _ _ _) in Hm.
  assert (Hlin : CNNLayer.linear self1 x = ok (linear_image f (data b) x)).
  { apply (linear_closed_form self1 x b Hs eq_refl); [|exact Hf].
    apply repeat_length. }
  destruct (linear_image_shape f (data b) x) as (Hps & Hpc).
  destruct (activate_run self1 (linear_image f (data b) x) Hps
              (linear_image_well_formed f (data b) x))
    as (y & Hact & _).
  { rewrite Hpc. intros Ha. specialize (Hsm Ha). unfold f. lia. }
  exists self1, wts, y, (mkWorld (gauss w) (drawn w + f * channels x * k * k)
                           (wall_clock w) (ticks w)).
  split; [exact (forward_from_parts _ _ _ _ _ _ _ Hm Hlin Hact)|].
  unfold same_hyperparameters, well_formed, wts. cbn.
  rewrite length_map, length_seq.
  repeat split; try reflexivity; try lia.
  intros i Hi.
  rewrite (nth_map_in _ _ 0%R 0) by (now rewrite length_seq).
  now rewrite seq_nth.
Qed.

Lemma first_forward_materialises_witness :
  exists self' wts y w',
    CNNLayer.forward (CNNLayer.mk 3 2 "relu" None None) sample_features world0
    = inr ((self', y), w') /\
    same_hyperparameters (CNNLayer.mk 3 2 "relu" None None) self' /\
    CNNLayer.weights self' = Some wts /\
    shape wts = [3; 2; 2; 2] /\
    well_formed wts /\
    (forall i, i < length (data wts) ->
       nth i (data wts) 0%R = (INR (0 + i) * 0.1)%R) /\
    CNNLayer.bias self' = Some (mkArray [3] (repeat 0%R 3)) /\
    drawn w' = 0 + length (data wts) /\
    gauss w' = gauss world0 /\ wall_clock w' = wall_clock world0 /\
    ticks w' = ticks world0.
Proof.
  apply (first_forward_materialises (CNNLayer.mk 3 2 "relu" None None)
           sample_features world0).
  - reflexivity.
  - discriminate.
  - unfold layer_usable, bias_fits. simpl. repeat split; lia.
Defined.

(** X5. Once a layer holds its parameters, a forward call changes neither
    the layer nor the world (no sample is drawn, the clock is not read),
    and the call gives the same output whenever it is repeated. *)
Theorem forward_leaves_materialised_layer
        (self : CNNLayer.t) (x : ndarray) (w : World) :
  CNNLayer.weights self <> None -> shape x <> [] -> layer_usable self ->
  exists y,
    CNNLayer.forward self x w = inr ((self, y), w) /\
    forall w2, CNNLayer.forward self x w2 = inr ((self, y), w2).
Proof. exact (forward_materialised_run self x w). Qed.

Lemma forward_leaves_materialised_layer_witness :
  exists y,
    CNNLayer.forward
      (CNNLayer.mk 2 1 "softmax" (Some (scalar 7)) (Some (mkArray [2] [5; 6]%R)))
      sample_features world0
    = inr ((CNNLayer.mk 2 1 "softmax" (Some (scalar 7))
              (Some (mkArray [2] [5; 6]%R)), y), world0) /\
    forall w2,
      CNNLayer.forward
        (CNNLayer.mk 2 1 "softmax" (Some (scalar 7)) (Some (mkArray [2] [5; 6]%R)))
        sample_features w2
      = inr ((CNNLayer.mk 2 1 "softmax" (Some (scalar 7))
                (Some (mkArray [2] [5; 6]%R)), y), w2).
Proof.
  apply forward_leaves_materialised_layer.
  - discriminate.
  - discriminate.
  - unfold layer_usable, bias_fits. simpl.
    repeat split; try lia. eexists. split; reflexivity.
Defined.

Lemma activate_depends_on_name (l1 l2 : CNNLayer.t) (pre : ndarray) :
  CNNLayer.activation l1 = CNNLayer.activation l2 ->
  CNNLayer.activate l1 pre = CNNLayer.activate l2 pre.
Proof. intros H. unfold CNNLayer.activate. now rewrite H. Qed.

(** X6. The output of a forward call does not depend on the weights nor on
    the random samples: two layers with the same hyperparameters, each in
    a state the code produces, give the same output on the same input,
    whatever their weights and whatever the worlds they run in. *)
Theorem forward_output_ignores_weights
        (l1 l2 : CNNLayer.t) (x : ndarray) (w1 w2 : World) :
  same_hyperparameters l1 l2 -> zero_bias l1 -> zero_bias l2 ->
  shape x <> [] -> layer_usable l1 ->
  exists l1' l2' y w1' w2',
    CNNLayer.forward l1 x w1 = inr ((l1', y), w1') /\
    CNNLayer.forward l2 x w2 = inr ((l2', y), w2').
Proof.
  intros (Hsf & Hsk & Hsa) Hz1 Hz2 Hs (Hf & Hk & Hfit & Hsm).
  destruct (forward_run l1 x w1 Hs Hf Hk Hfit Hsm)
    as (l1' & b1 & pre1 & y1 & w1' & Hrun1 & (_ & _ & Ha1) & _ & _ & Hzero1 & _
        & Hpre1 & _ & Hact1 & _).
  destruct (forward_run l2 x w2 Hs)
    as (l2' & b2 & pre2 & y2 & w2' & Hrun2 & (_ & _ & Ha2) & _ & _ & Hzero2 & _
        & Hpre2 & _ & Hact2 & _);
    try (rewrite ?Hsf, ?Hsk, ?Hsa; assumption).
  { now apply zero_bias_fits. }
  rewrite (Hzero1 Hz1) in Hpre1. rewrite (Hzero2 Hz2), Hsf in Hpre2.
  assert (Hp : pre2 = pre1) by congruence. rewrite Hp in Hact2.
  rewrite (activate_depends_on_name l2' l1' pre1) in Hact2 by congruence.
  rewrite Hact1 in Hact2. injection Hact2 as Hy. rewrite <- Hy in Hrun2.
  exists l1', l2', y1, w1', w2'. split; assumption.
Qed.

Lemma forward_output_ignores_weights_witness :
  exists l1' l2' y w1' w2',
    CNNLayer.forward (CNNLayer.mk 2 1 "relu" None None) sample_features world0
    = inr ((l1', y), w1') /\
    CNNLayer.forward
      (CNNLayer.mk 2 1 "relu" (Some (scalar 7)) (Some (mkArray [2] [0; 0]%R)))
      sample_features (tick world0)
    = inr ((l2', y), w2').
Proof.
  apply forward_output_ignores_weights.
  - unfold same_hyperparameters. simpl. repeat split.
  - exact I.
  - unfold zero_bias. simpl. eexists. split; reflexivity.
  - discriminate.
  - unfold layer_usable, bias_fits. simpl. repeat split; lia.
Defined.

(** ** Inputs and hyperparameters a layer refuses *)

Lemma check_dims_negative (before after : list Z) (d : Z) :
  (d < 0)%Z -> check_dims (before ++ d :: after) = throw ValueError.
Proof.
  intros Hd. unfold check_dims. rewrite forallb_app. cbn [forallb].
  replace (0 <=? d)%Z with false by (symmetry; apply Z.leb_gt; lia).
  cbn [andb]. now rewrite andb_false_r.
Qed.

Lemma rfor_each_ext {A S : Type} (l : list A) (body1 body2 : S -> A -> result S) :
  (forall s a, body1 s a = body2 s a) ->
  forall s, rfor_each l body1 s = rfor_each l body2 s.
Proof.
  intros Hext. induction l as [|a l IH]; intros s; [reflexivity|].
  cbn [rfor_each]. rewrite Hext. unfold rbind.
  destruct (body2 s a); [reflexivity | apply IH].
Qed.

Lemma linear_on_scalar (self : CNNLayer.t) (v : R) :
  CNNLayer.linear self (scalar v) = CNNLayer.linear self (mkArray [1] [v]).
Proof.
  unfold CNNLayer.linear, scalar. cbn [shape removelast map app].
  destruct (np_zeros [CNNLayer.filters self]) as [e | output]; [reflexivity|].
  unfold rbind at 1 3. apply rfor_each_ext. intros out i.
  unfold np_sum_last, rows_of, channels, positions.
  cbn [shape data removelast last prod_dims fold_right chunk firstn skipn map
       sum_list Nat.mul Nat.add].
  unfold rbind, ok. destruct (CNNLayer.bias_item self i); [reflexivity|].
  now rewrite Rplus_0_r.
Qed.

Lemma forward_on_scalar (self : CNNLayer.t) (v : R) (w : World) :
  CNNLayer.weights self <> None ->
  CNNLayer.forward self (scalar v) w
  = CNNLayer.forward self (mkArray [1] [v]) w.
Proof.
  intros Hw. unfold CNNLayer.forward.
  rewrite (bind_run _ _ _ _ _ (materialize_kept self (scalar v) w Hw)).
  rewrite (bind_run _ _ _ _ _ (materialize_kept self (mkArray [1] [v]) w Hw)).
  now rewrite linear_on_scalar.
Qed.

(** X7. A zero-dimensional input is refused only by a layer without
    weights, with an IndexError (from [x.shape[-1]]).  A layer that holds
    its parameters accepts it: the sum over the last axis of a
    zero-dimensional array is the array itself, the output has the single
    axis of the filters, and entry [i] is the activation applied to
    [x * 0.1 + bias[i]]; layer and world are left as they were. *)
Theorem forward_on_scalar_input (self : CNNLayer.t) (v : R) (w : World) :
  (CNNLayer.weights self = None ->
   CNNLayer.forward self (scalar v) w = inl IndexError) /\
  (CNNLayer.weights self <> None -> layer_usable self ->
   exists b y,
     CNNLayer.bias self = Some b /\
     CNNLayer.forward self (scalar v) w = inr ((self, y), w) /\
     shape y = [Z.to_nat (CNNLayer.filters self)] /\
     data y = activation_on_row (CNNLayer.activation self)
                (map (fun i => (v * 0.1 + nth i (data b) 0)%R)
                     (seq 0 (Z.to_nat (CNNLayer.filters self))))).
Proof.
  split.
  - intros Hw. unfold CNNLayer.forward, CNNLayer.materialize.
    rewrite Hw. reflexivity.
  - intros Hw Hu. set (x1 := mkArray [1] [v]).
    assert (Hs : shape x1 <> []) by discriminate.
    destruct (forward_rowwise self x1 w Hs Hu)
      as (self' & b & y & w' & Hrun & _ & Hb & _ & Hsh & Hrows & Hdata).
    destruct (forward_materialised_run self x1 w Hw Hs Hu) as (y0 & Hrun0 & _).
    rewrite Hrun0 in Hrun. injection Hrun as <- <- <-.
    exists b, y0. split; [exact Hb|].
    split; [now rewrite forward_on_scalar|]. split; [exact Hsh|].
    rewrite Hdata, Hrows. unfold x1, rows_of, channels, positions.
    cbn [shape data removelast last prod_dims fold_right chunk firstn skipn map
         concat sum_list Nat.mul Nat.add].
    rewrite app_nil_r. f_equal. apply map_ext. intros i.
    now rewrite Rplus_0_r.
Qed.

Lemma forward_on_scalar_input_witness :
  CNNLayer.forward (CNNLayer.mk 2 1 "relu" None None) (scalar 3) world0
  = inl IndexError /\
  exists b y,
    Some (mkArray [2] [5; 6]%R) = Some b /\
    CNNLayer.forward
      (CNNLayer.mk 2 1 "relu" (Some (scalar 7)) (Some (mkArray [2] [5; 6]%R)))
      (scalar 3) world0
    = inr ((CNNLayer.mk 2 1 "relu" (Some (scalar 7))
              (Some (mkArray [2] [5; 6]%R)), y), world0) /\
    shape y = [2] /\
    data y = map (Rmax 0)
               (map (fun i => (3 * 0.1 + nth i (data b) 0)%R) (seq 0 2)).
Proof.
  split.
  - apply (proj1 (forward_on_scalar_input
                    (CNNLayer.mk 2 1 "relu" None None) 3 world0)).
    reflexivity.
  - apply (proj2 (forward_on_scalar_input
                    (CNNLayer.mk 2 1 "relu" (Some (scalar 7))
                       (Some (mkArray [2] [5; 6]%R)))
                    3 world0)).
    + discriminate.
    + unfold layer_usable, bias_fits. simpl.
      repeat split; try lia. eexists. split; reflexivity.
Defined.

(** X8. A negative number of filters is refused with a ValueError by the
    first forward call and by every later one; a layer without weights
    and with a negative kernel size is refused in the same way. *)
Theorem forward_refuses_negative_sizes
        (self : CNNLayer.t) (x : ndarray) (w : World) :
  shape x <> [] ->
  ((CNNLayer.filters self < 0)%Z ->
   CNNLayer.forward self x w = inl ValueError) /\
  (CNNLayer.weights self = None -> (CNNLayer.kernel_size self < 0)%Z ->
   CNNLayer.forward self x w = inl ValueError).
Proof.
  intros Hs.
  assert (Hlast : CNNLayer.shape_last x = ok (channels x)).
  { unfold CNNLayer.shape_last. destruct (shape x); [congruence | reflexivity]. }
  split.
  - intros Hf. unfold CNNLayer.forward.
    destruct (CNNLayer.weights self) as [wts|] eqn:Hw.
    + rewrite (bind_run _ _ _ _ _ (materialize_kept self x w
                                     ltac:(rewrite Hw; discriminate))).
      unfold CNNLayer.linear, np_zeros.
      rewrite (check_dims_negative _ [] _ Hf). reflexivity.
    + unfold CNNLayer.materialize. rewrite Hw, Hlast. py_step.
      unfold np_random_randn. py_step.
      rewrite (check_dims_negative [] _ _ Hf
               : check_dims [CNNLayer.filters self; Z.of_nat (channels x);
                             CNNLayer.kernel_size self;
                             CNNLayer.kernel_size self] = _).
      reflexivity.
  - intros Hw Hk. unfold CNNLayer.forward, CNNLayer.materialize.
    rewrite Hw, Hlast. py_step. unfold np_random_randn. py_step.
    rewrite (check_dims_negative
               [CNNLayer.filters self; Z.of_nat (channels x)]
               [CNNLayer.kernel_size self] _ Hk
             : check_dims [CNNLayer.filters self; Z.of_nat (channels x);
                           CNNLayer.kernel_size self;
                           CNNLayer.kernel_size self] = _).
    reflexivity.
Qed.

Lemma forward_refuses_negative_sizes_witness :
  CNNLayer.forward (CNNLayer.mk (-1) 1 "relu" None None) sample_features world0
  = inl ValueError /\
  CNNLayer.forward (CNNLayer.mk 2 (-3) "relu" None None) sample_features world0
  = inl ValueError.
Proof.
  split.
  - apply (proj1 (forward_refuses_negative_sizes
                    (CNNLayer.mk (-1) 1 "relu" None None) sample_features world0
                    ltac:(discriminate))).
    simpl. lia.
  - apply (proj2 (forward_refuses_negative_sizes
                    (CNNLayer.mk 2 (-3) "relu" None None) sample_features world0
                    ltac:(discriminate))).
    + reflexivity.
    + simpl. lia.
Defined.

(** X9. A layer with zero filters is accepted unless its activation is
    softmax: relu and pass-through layers return an empty array of shape
    (..., 0), while softmax raises a ValueError, its maximum being taken
    over an empty axis. *)
Theorem forward_with_zero_filters (self : CNNLayer.t) (x : ndarray) (w : World) :
  CNNLayer.filters self = 0%Z -> shape x <> [] ->
  (0 <= CNNLayer.kernel_size self)%Z -> bias_fits self ->
  (CNNLayer.activation self <> "softmax" ->
   exists self' y w',
     CNNLayer.forward self x w = inr ((self', y), w') /\
     shape y = removelast (shape x) ++ [0] /\ data y = []) /\
  (CNNLayer.activation self = "softmax" ->
   CNNLayer.forward self x w = inl ValueError).
Proof.
  intros Hf0 Hs Hk Hfit. split.
  - intros Hact.
    destruct (forward_rowwise self x w Hs) as
      (self' & b & y & w' & Hrun & _ & _ & _ & Hsh & Hrows & Hdata).
    { unfold layer_usable. rewrite Hf0.
      repeat split; try lia; try assumption. contradiction. }
    rewrite Hf0 in Hsh, Hrows. cbn [Z.to_nat seq map] in Hsh, Hrows.
    exists self', y, w'. split; [exact Hrun|]. split; [exact Hsh|].
    rewrite Hdata, Hrows.
    apply length_zero_iff_nil.
    rewrite (length_concat_uniform 0); [lia|].
    apply Forall_forall. intros r Hr. apply in_map_iff in Hr.
    destruct Hr as (r0 & <- & _). now rewrite length_activation_on_row.
  - intros Hact.
    destruct (materialize_run self x w Hs ltac:(lia) Hk Hfit)
      as (self' & b & w' & Hm & (Hsf & Hsk & Hsa) & _ & Hb & Hlen & _).
    assert (Hf0' : CNNLayer.filters self' = 0%Z) by congruence.
    assert (Hlin : CNNLayer.linear self' x = ok (linear_image 0 (data b) x)).
    { pose proof (linear_closed_form self' x b Hs Hb) as Hlin.
      rewrite Hf0' in Hlin. apply Hlin; [|lia].
      rewrite Hlen, Hf0. reflexivity. }
    destruct (linear_image_shape 0 (data b) x) as (Hps & Hpc).
    unfold CNNLayer.forward.
    rewrite (bind_run _ _ _ _ _ Hm). py_step. rewrite Hlin. py_step.
    unfold CNNLayer.activate. rewrite Hsa, Hact.
    cbn [String.eqb Ascii.eqb Bool.eqb]. py_step.
    now rewrite (np_max_last_keepdims_empty _ Hps Hpc).
Qed.

Lemma forward_with_zero_filters_witness :
  (exists self' y w',
     CNNLayer.forward (CNNLayer.mk 0 1 "relu" None None) sample_features world0
     = inr ((self', y), w') /\
     shape y = [1; 2; 0] /\ data y = []) /\
  CNNLayer.forward (CNNLayer.mk 0 1 "softmax" None None) sample_features world0
  = inl ValueError.
Proof.
  split.
  - apply (proj1 (forward_with_zero_filters
                    (CNNLayer.mk 0 1 "relu" None None) sample_features world0
                    eq_refl ltac:(discriminate) ltac:(simpl; lia) I)).
    discriminate.
  - apply (proj2 (forward_with_zero_filters
                    (CNNLayer.mk 0 1 "softmax" None None) sample_features world0
                    eq_refl ltac:(discriminate) ltac:(simpl; lia) I)).
    reflexivity.
Defined.

(** ** What [resize] puts into its result *)

Lemma nth_concat_repeat (d : list R) (k j : nat) :
  j < k * length d ->
  nth j (concat (repeat d k)) 0%R = nth (j mod length d) d 0%R.
Proof.
  revert j. induction k as [|k IH]; intros j Hj; [simpl in Hj; lia|].
  assert (Hd : length d <> 0) by (destruct (length d); simpl in Hj; lia).
  simpl. destruct (Nat.lt_ge_cases j (length d)) as [Hlt | Hge].
  - rewrite app_nth1 by exact Hlt. now rewrite Nat.mod_small.
  - rewrite app_nth2 by exact Hge. rewrite IH by (simpl in Hj; lia).
    f_equal.
    replace j with ((j - length d) + 1 * length d) at 2 by lia.
    now rewrite Nat.Div0.mod_add.
Qed.

Lemma resize_dims (image : ndarray) (th tw : Z) :
  (0 <= th)%Z -> (0 <= tw)%Z ->
  check_dims [th; tw;
              if 2 <? ndim image then Z.of_nat (nth 2 (shape image) 0)
              else 1%Z]
  = ok [Z.to_nat th; Z.to_nat tw;
        if 2 <? ndim image then nth 2 (shape image) 0 else 1].
Proof.
  intros Hth Htw. unfold check_dims. cbn [forallb map].
  apply Z.leb_le in Hth. apply Z.leb_le in Htw. rewrite Hth, Htw.
  destruct (2 <? ndim image).
  - replace (0 <=? Z.of_nat (nth 2 (shape image) 0%nat))%Z with true
      by (symmetry; apply Z.leb_le; lia).
    cbn [andb]. now rewrite Nat2Z.id.
  - reflexivity.
Qed.

Lemma np_resize_repeats (a r : ndarray) (new_shape : list Z) :
  np_resize a new_shape = ok r -> data a <> [] ->
  forall j, j < length (data r) ->
    nth j (data r) 0%R = nth (j mod length (data a)) (data a) 0%R.
Proof.
  intros Hr Hne. unfold np_resize in Hr.
  destruct (check_dims new_shape) as [e | s]; [discriminate|].
  py_step_in Hr.
  assert (Hlen : length (data a) <> 0)
    by (destruct (data a); [congruence | discriminate]).
  apply Nat.eqb_neq in Hlen as Hlen'. rewrite Hlen' in Hr.
  destruct (Nat.eqb_spec (prod_dims s) 0) as [Ez | Ez]; cbn [orb] in Hr;
    injection Hr as <-; cbn [data]; intros j Hj.
  - rewrite repeat_length in Hj. lia.
  - rewrite length_firstn, length_concat_repeat in Hj.
    rewrite nth_firstn.
    destruct (Nat.ltb_spec j (prod_dims s)) as [_ | Hout]; [|lia].
    apply nth_concat_repeat. lia.
Qed.

(** X10. [resize] does not interpolate: when the image is not empty, entry
    [j] of the result buffer is entry [j mod size] of the flattened image,
    so the image is repeated cyclically until the target is full (and cut
    when the target is smaller). *)
Theorem resize_repeats_the_buffer (image : ndarray) (th tw : Z) :
  (0 <= th)%Z -> (0 <= tw)%Z -> data image <> [] ->
  exists r,
    ImagePreprocessor.resize image (th, tw) = ok r /\
    well_formed r /\
    forall j, j < length (data r) ->
      nth j (data r) 0%R = nth (j mod length (data image)) (data image) 0%R.
Proof.
  intros Hth Htw Hne.
  destruct (resize_run image th tw Hth Htw) as (r & Hr & Hs & Hwf).
  exists r. split; [exact Hr|]. split; [exact Hwf|].
  exact (np_resize_repeats image r _ Hr Hne).
Qed.

Lemma resize_repeats_the_buffer_witness :
  exists r,
    ImagePreprocessor.resize gray_image (3, 2)%Z = ok r /\
    well_formed r /\
    forall j, j < length (data r) ->
      nth j (data r) 0%R = nth (j mod 4) [0; 85; 170; 255]%R 0%R.
Proof.
  apply (resize_repeats_the_buffer gray_image 3 2); try lia. discriminate.
Defined.

(** X11. An image without any sample is not refused: [resize] answers
    with zeros in the requested shape. *)
Theorem resize_of_empty_image_is_zero (image : ndarray) (th tw : Z) :
  (0 <= th)%Z -> (0 <= tw)%Z -> data image = [] ->
  exists r,
    ImagePreprocessor.resize image (th, tw) = ok r /\
    shape r = [Z.to_nat th; Z.to_nat tw;
               if 2 <? ndim image then nth 2 (shape image) 0 else 1] /\
    data r = repeat 0%R (prod_dims (shape r)).
Proof.
  intros Hth Htw Hd.
  unfold ImagePreprocessor.resize, np_resize. cbn [fst snd].
  rewrite (resize_dims image th tw Hth Htw), Hd. py_step. cbn [length Nat.eqb orb].
  eexists. split; [reflexivity|]. split; reflexivity.
Qed.

Lemma resize_of_empty_image_is_zero_witness :
  exists r,
    ImagePreprocessor.resize (mkArray [0; 5; 3] []) (2, 2)%Z = ok r /\
    shape r = [2; 2; 3] /\
    data r = repeat 0%R (prod_dims (shape r)).
Proof.
  apply (resize_of_empty_image_is_zero (mkArray [0; 5; 3] []) 2 2); try lia.
  reflexivity.
Defined.

Lemma np_resize_same_shape (a : ndarray) (new_shape : list Z) :
  check_dims new_shape = ok (shape a) -> well_formed a ->
  np_resize a new_shape = ok a.
Proof.
  intros Hc Hwf. unfold np_resize. rewrite Hc. py_step.
  unfold well_formed in Hwf. rewrite <- Hwf.
  destruct a as [s d]. cbn [shape data] in *.
  destruct (Nat.eqb_spec (length d) 0) as [Hz | Hnz]; cbn [orb].
  - rewrite Hz. apply length_zero_iff_nil in Hz. now subst d.
  - replace ((length d + length d - 1) / length d) with 1.
    + simpl. rewrite app_nil_r, firstn_all. reflexivity.
    + apply (Nat.div_unique _ _ 1 (length d - 1)); lia.
Qed.

(** X12. Resizing a well-formed image of shape (H, W, C) to its own height
    and width gives the image back unchanged. *)
Theorem resize_to_own_size_is_identity (image : ndarray) (H W C : nat) :
  shape image = [H; W; C] -> well_formed image ->
  ImagePreprocessor.resize image (Z.of_nat H, Z.of_nat W) = ok image.
Proof.
  intros Hs Hwf. unfold ImagePreprocessor.resize. cbn [fst snd].
  apply np_resize_same_shape; [|exact Hwf].
  rewrite (resize_dims image (Z.of_nat H) (Z.of_nat W) ltac:(lia) ltac:(lia)).
  unfold ndim. rewrite Hs. cbn [length Nat.ltb Nat.leb nth].
  now rewrite !Nat2Z.id.
Qed.

Lemma resize_to_own_size_is_identity_witness :
  ImagePreprocessor.resize sample_image (1, 2)%Z = ok sample_image.
Proof.
  apply (resize_to_own_size_is_identity sample_image 1 2 3); reflexivity.
Defined.

(** X13. A negative target height or width is refused with a ValueError,
    by [resize] and so by [preprocess]. *)
Theorem preprocess_refuses_negative_target (image : ndarray) (th tw : Z) :
  (th < 0)%Z \/ (tw < 0)%Z ->
  ImagePreprocessor.resize image (th, tw) = inl ValueError /\
  ImagePreprocessor.preprocess image (th, tw) = inl ValueError.
Proof.
  intros Hneg.
  assert (Hr : ImagePreprocessor.resize image (th, tw) = inl ValueError).
  { unfold ImagePreprocessor.resize, np_resize. cbn [fst snd].
    destruct Hneg as [Hth | Htw].
    - now rewrite (check_dims_negative [] _ _ Hth : check_dims [th; tw; _] = _).
    - now rewrite (check_dims_negative [th] _ _ Htw : check_dims [th; tw; _] = _). }
  split; [exact Hr|]. unfold ImagePreprocessor.preprocess. now rewrite Hr.
Qed.

Lemma preprocess_refuses_negative_target_witness :
  ImagePreprocessor.resize sample_image (224, -1)%Z = inl ValueError /\
  ImagePreprocessor.preprocess sample_image (224, -1)%Z = inl ValueError.
Proof.
  apply (preprocess_refuses_negative_target sample_image 224 (-1)).
  right. lia.
Defined.

Lemma np_resize_normalize (a : ndarray) (new_shape : list Z) :
  np_resize (ImagePreprocessor.normalize a) new_shape
  = rbind (np_resize a new_shape)
          (fun r => ok (ImagePreprocessor.normalize r)).
Proof.
  rewrite normalize_as_map. unfold np_resize. cbn [data shape].
  destruct (check_dims new_shape) as [e | s]; [reflexivity|]. py_step.
  rewrite length_map.
  destruct ((length (data a) =? 0) || (prod_dims s =? 0));
    rewrite normalize_as_map; cbn [data shape].
  - rewrite map_repeat. do 3 f_equal. rewrite astype_float32_0. lra.
  - now rewrite <- firstn_map, concat_map, map_repeat.
Qed.

(** X14. The order of the two preprocessing steps does not matter:
    normalising the image first and resizing afterwards gives exactly what
    [preprocess] returns, errors included. *)
Theorem preprocess_steps_commute (image : ndarray) (target_size : Z * Z) :
  ImagePreprocessor.resize (ImagePreprocessor.normalize image) target_size
  = ImagePreprocessor.preprocess image target_size.
Proof.
  unfold ImagePreprocessor.preprocess, ImagePreprocessor.resize.
  rewrite <- np_resize_normalize. reflexivity.
Qed.

Lemma np_resize_forall (P : R -> Prop) (a r : ndarray) (new_shape : list Z) :
  np_resize a new_shape = ok r -> P 0%R -> Forall P (data a) ->
  Forall P (data r).
Proof.
  intros Hr H0 Ha. unfold np_resize in Hr.
  destruct (check_dims new_shape) as [e | s]; [discriminate|]. py_step_in Hr.
  destruct ((length (data a) =? 0) || (prod_dims s =? 0));
    injection Hr as <-; cbn [data].
  - apply Forall_forall. intros v Hv. apply repeat_spec in Hv. now subst v.
  - apply Forall_forall. intros v Hv.
    apply (In_nth _ _ 0%R) in Hv. destruct Hv as (j & Hj & <-).
    rewrite length_firstn in Hj. rewrite nth_firstn.
    destruct (Nat.ltb_spec j (prod_dims s)) as [_ | Hout]; [|lia].
    rewrite Forall_forall in Ha. apply Ha.
    assert (Hin : In (nth j (concat (repeat (data a) ((prod_dims s
                        + length (data a) - 1) / length (data a)))) 0%R)
                     (concat (repeat (data a) ((prod_dims s
                        + length (data a) - 1) / length (data a)))))
      by (apply nth_In; lia).
    apply in_concat in Hin. destruct Hin as (row & Hrow & Hin).
    apply repeat_spec in Hrow. now subst row.
Qed.

(** X15. Pixels in [0, 255] come out of [preprocess] in [0, 1], whatever
    the target size: resizing only repeats samples or fills with zeros,
    and normalising divides by 255. *)
Theorem preprocess_keeps_unit_range (image : ndarray) (th tw : Z) :
  (0 <= th)%Z -> (0 <= tw)%Z ->
  Forall (fun v => (0 <= v <= 255)%R) (data image) ->
  exists y,
    ImagePreprocessor.preprocess image (th, tw) = ok y /\
    Forall (fun v => (0 <= v <= 1)%R) (data y).
Proof.
  intros Hth Htw Hrange.
  destruct (preprocess_run image th tw Hth Htw) as (r & Hr & Hp & _ & _).
  exists (ImagePreprocessor.normalize r). split; [exact Hp|].
  unfold ImagePreprocessor.resize in Hr.
  pose proof (np_resize_forall (fun v => (0 <= v <= 255)%R) image r _ Hr
                ltac:(lra) Hrange) as Hr255.
  rewrite normalize_as_map. cbn [data].
  apply Forall_forall. intros v Hv. apply in_map_iff in Hv.
  destruct Hv as (u & <- & Hu).
  rewrite Forall_forall in Hr255. specialize (Hr255 u Hu).
  pose proof (astype_float32_unit_range u Hr255). lra.
Qed.

Lemma preprocess_keeps_unit_range_witness :
  exists y,
    ImagePreprocessor.preprocess gray_image (3, 3)%Z = ok y /\
    Forall (fun v => (0 <= v <= 1)%R) (data y).
Proof.
  apply (preprocess_keeps_unit_range gray_image 3 3); try lia.
  unfold gray_image. cbn [data].
  repeat constructor; lra.
Defined.

(** ** More on softmax *)

(** X16. Subtracting the maximum does not change the result: at every
    position the softmax branch returns [exp(v) / sum(exp(v))], the plain
    softmax of the input vector. *)
Theorem softmax_is_exp_over_sum (self : CNNLayer.t) (x : ndarray) :
  CNNLayer.activation self = "softmax" ->
  shape x <> [] -> 0 < channels x -> well_formed x ->
  exists y,
    CNNLayer.activate self x = ok y /\
    rows_of y
    = map (fun r => map (fun u => (exp u / sum_list (map exp r))%R) r)
          (rows_of x).
Proof.
  intros Ha Hs Hc Hwf.
  rewrite (softmax_closed_form self x Ha Hs Hc Hwf).
  eexists. split; [reflexivity|].
  rewrite (rows_of_mapped x stable_softmax Hs Hwf length_stable_softmax).
  apply map_ext. intros r. apply stable_softmax_is_exp_over_sum.
Qed.

Lemma softmax_is_exp_over_sum_witness :
  exists y,
    CNNLayer.activate (softmax_layer 2 1) sample_features = ok y /\
    rows_of y
    = map (fun r => map (fun u => (exp u / sum_list (map exp r))%R) r)
          [[1; 2]; [3; 4]]%R.
Proof.
  apply (softmax_is_exp_over_sum (softmax_layer 2 1) sample_features).
  - reflexivity.
  - discriminate.
  - unfold channels. simpl. lia.
  - reflexivity.
Defined.

(** ** Stacks of layers *)

(** X18. Layers compose: a stack of usable layers runs on any input that
    has a channel axis, keeps the leading dimensions, ends with the channel
    count of its last layer, leaves every layer with its parameters, and
    does not read the clock. *)
Theorem forward_layers_composes
        (layers : list CNNLayer.t) (x : ndarray) (w : World) :
  Forall layer_usable layers -> shape x <> [] ->
  exists layers' y w',
    AIImageClassifier.forward_layers layers x w = inr ((layers', y), w') /\
    Forall2 same_hyperparameters layers layers' /\
    Forall materialised layers' /\
    shape y = removelast (shape x) ++ [final_channels layers (channels x)] /\
    wall_clock w' = wall_clock w /\ ticks w' = ticks w.
Proof.
  intros Hall Hs.
  destruct (forward_layers_general layers Hall x w Hs)
    as (layers' & y & w' & H1 & H2 & H3 & H4 & H5 & H6 & _).
  exists layers', y, w'. repeat split; assumption.
Qed.

Lemma forward_layers_composes_witness :
  exists layers' y w',
    AIImageClassifier.forward_layers
      [CNNLayer.mk 5 3 "relu" None None; CNNLayer.mk 4 1 "tanh" None None;
       CNNLayer.mk 2 1 "softmax" None None]
      sample_features world0
    = inr ((layers', y), w') /\
    Forall2 same_hyperparameters
      [CNNLayer.mk 5 3 "relu" None None; CNNLayer.mk 4 1 "tanh" None None;
       CNNLayer.mk 2 1 "softmax" None None]
      layers' /\
    Forall materialised layers' /\
    shape y = [1; 2; 2] /\
    wall_clock w' = wall_clock world0 /\ ticks w' = ticks world0.
Proof.
  apply (forward_layers_composes
           [CNNLayer.mk 5 3 "relu" None None; CNNLayer.mk 4 1 "tanh" None None;
            CNNLayer.mk 2 1 "softmax" None None]
           sample_features world0).
  - repeat constructor; simpl; try lia; discriminate.
  - discriminate.
Defined.

(** ** Calling the classifier again and again *)

Lemma layer_matches_usable (f k : Z) (act : string) (l : CNNLayer.t) :
  layer_matches f k act l -> (0 <= f)%Z -> (0 <= k)%Z ->
  (act = "softmax" -> (0 < f)%Z) ->
  layer_usable l.
Proof.
  intros (Hf & Hk & Ha & Hz) Hf0 Hk0 Hsm. unfold layer_usable.
  rewrite Hf, Hk, Ha. repeat split; try assumption.
  now apply zero_bias_fits.
Qed.

Lemma classifier_layers_usable (n : Z) (c : AIImageClassifier.t) :
  classifier_state n c -> (1 <= n)%Z ->
  Forall layer_usable (AIImageClassifier.model c).
Proof.
  intros (_ & _ & l1 & l2 & l3 & l4 & -> & H1 & H2 & H3 & H4) Hn.
  apply Forall_cons; [|apply Forall_cons; [|apply Forall_cons;
    [|apply Forall_cons; [|apply Forall_nil]]]].
  - apply (layer_matches_usable _ _ _ _ H1); lia.
  - apply (layer_matches_usable _ _ _ _ H2); lia.
  - apply (layer_matches_usable _ _ _ _ H3); lia.
  - apply (layer_matches_usable _ _ _ _ H4); lia.
Qed.

Lemma predict_uniform_run (n : Z) (c : AIImageClassifier.t) (image : ndarray)
      (w : World) :
  classifier_state n c -> (1 <= n)%Z ->
  exists c' w1,
    AIImageClassifier.predict c image w
    = inr ((c', mkPrediction "Airplane" (1 / IZR n)%R (wall_clock w (ticks w))),
           tick w1) /\
    classifier_state n c' /\
    Forall materialised (AIImageClassifier.model c') /\
    (Forall materialised (AIImageClassifier.model c) -> c' = c /\ w1 = w) /\
    wall_clock w1 = wall_clock w /\ ticks w1 = ticks w.
Proof.
  intros Hst Hn.
  destruct (class_scores_run n c image w Hst Hn)
    as (processed & c' & x & w1 & Hpre & Hfwd & _ & Hscores & Hunif & Hst'
        & Hclk & Htk).
  rewrite Hunif in Hscores.
  assert (Hne : data (mkArray [Z.to_nat n] (repeat (1 / IZR n)%R (Z.to_nat n)))
                <> []).
  { simpl. destruct (Z.to_nat n) eqn:E; [lia | discriminate]. }
  destruct (predict_after_scores c c' image _ w w1 Hscores Hne)
    as (k & Hmax & Hpred).
  cbn [data] in Hmax, Hpred.
  apply first_maximum_uniform in Hmax. subst k.
  assert (Hps : shape processed <> []).
  { destruct (preprocess_run image 224 224 ltac:(lia) ltac:(lia))
      as (r & _ & Hp & Hsh & _).
    unfold ImagePreprocessor.default_target_size in Hpre.
    rewrite Hp in Hpre. injection Hpre as <-. rewrite Hsh. discriminate. }
  destruct (forward_layers_general _ (classifier_layers_usable n c Hst Hn)
              processed w Hps)
    as (layers' & y & w' & Hrun & _ & Hmats & _ & _ & _ & Hkeep).
  rewrite Hfwd in Hrun. injection Hrun as <- <- <-.
  pose proof Hst' as (Hnum' & Hc' & _).
  exists c', w1. split.
  { rewrite Hpred, Hc', Hclk, Htk. do 3 f_equal.
    cbn. destruct (Z.to_nat n) eqn:E; [lia | reflexivity]. }
  split; [exact Hst'|]. split; [exact Hmats|]. split; [|split; assumption].
  intros Hall. destruct (Hkeep Hall) as (Hm & Hw). split; [|exact Hw].
  destruct Hst as (Hnum & Hc & _).
  destruct c as [cn cc cm], c' as [cn' cc' cm']. cbn in *. congruence.
Qed.

(** X19. After its first prediction a classifier is settled: every layer
    holds its parameters, and a further [predict], on any image, returns
    the classifier unchanged, draws no random sample and only advances the
    clock by one reading. *)
Theorem predict_settles_the_classifier
        (n : Z) (c : AIImageClassifier.t) (image image2 : ndarray) (w : World) :
  classifier_state n c -> (1 <= n)%Z ->
  exists c1 p1 w1 p2,
    AIImageClassifier.predict c image w = inr ((c1, p1), w1) /\
    Forall materialised (AIImageClassifier.model c1) /\
    AIImageClassifier.predict c1 image2 w1 = inr ((c1, p2), tick w1) /\
    drawn (tick w1) = drawn w1.
Proof.
  intros Hst Hn.
  destruct (predict_uniform_run n c image w Hst Hn)
    as (c1 & w0 & Hp1 & Hst1 & Hmat1 & _ & _ & _).
  destruct (predict_uniform_run n c1 image2 (tick w0) Hst1 Hn)
    as (c2 & w2 & Hp2 & _ & _ & Hkeep & _ & _).
  destruct (Hkeep Hmat1) as (-> & ->).
  eexists c1, _, (tick w0), _.
  split; [exact Hp1|]. split; [exact Hmat1|]. split; [exact Hp2|]. reflexivity.
Qed.

Lemma predict_settles_the_classifier_witness :
  exists c1 p1 w1 p2,
    AIImageClassifier.predict (classifier_of 10) sample_image world0
    = inr ((c1, p1), w1) /\
    Forall materialised (AIImageClassifier.model c1) /\
    AIImageClassifier.predict c1 gray_image w1 = inr ((c1, p2), tick w1) /\
    drawn (tick w1) = drawn w1.
Proof.
  apply (predict_settles_the_classifier 10 (classifier_of 10)).
  - apply classifier_of_state.
  - lia.
Defined.

(** X31. A classifier as constructed, with [num_classes >= 1], answers
    every image with the first class, "Airplane": the bias is zero and
    every output channel holds the same value, so the scores are all equal
    and argmax takes index 0.  On an image whose samples lie in the pixel
    range [0, 255] the confidence is [1 / num_classes]. *)
Theorem predict_uniform_airplane
        (n : Z) (c : AIImageClassifier.t) (image : ndarray) (w : World) :
  classifier_state n c -> (1 <= n)%Z ->
  exists c' p w',
    AIImageClassifier.predict c image w = inr ((c', p), w') /\
    class_name p = "Airplane" /\
    nth_error (AIImageClassifier.classes c) 0 = Some (class_name p) /\
    (pixel_range image -> confidence p = (1 / IZR n)%R).
Proof.
  intros Hst Hn.
  destruct (predict_uniform_run n c image w Hst Hn)
    as (c' & w1 & Hpred & _).
  destruct Hst as (_ & Hc & _).
  eexists _, _, _. split; [exact Hpred|]. rewrite Hc.
  split; [reflexivity|]. split; [reflexivity|]. intros _. reflexivity.
Qed.

Lemma predict_uniform_airplane_witness :
  exists c' p w',
    AIImageClassifier.predict (classifier_of 10) sample_image world0
    = inr ((c', p), w') /\
    class_name p = "Airplane" /\
    nth_error (AIImageClassifier.classes (classifier_of 10)) 0
    = Some (class_name p) /\
    (pixel_range sample_image -> confidence p = (1 / 10)%R).
Proof.
  apply (predict_uniform_airplane 10 (classifier_of 10) sample_image world0).
  - apply classifier_of_state.
  - lia.
Defined.

Lemma predict_batch_run (n : Z) (images : list ndarray) :
  (1 <= n)%Z ->
  forall (c : AIImageClassifier.t) (w : World),
    classifier_state n c ->
    exists c' ps w',
      AIImageClassifier.predict_batch c images w = inr ((c', ps), w') /\
      classifier_state n c' /\
      ps = map (fun i => mkPrediction "Airplane" (1 / IZR n)%R
                           (wall_clock w (ticks w + i)))
               (seq 0 (length images)) /\
      wall_clock w' = wall_clock w /\ ticks w' = ticks w + length images.
Proof.
  intros Hn. induction images as [|img rest IH]; intros c w Hst.
  - exists c, [], w. cbn. unfold ret.
    split; [reflexivity|]. split; [exact Hst|]. split; [reflexivity|].
    split; [reflexivity | lia].
  - destruct (predict_uniform_run n c img w Hst Hn)
      as (c1 & w1 & Hp & Hst1 & _ & _ & Hclk1 & Htk1).
    destruct (IH c1 (tick w1) Hst1)
      as (c' & ps & w' & Hrun & Hst' & Hps & Hclk & Htk).
    exists c', (mkPrediction "Airplane" (1 / IZR n)%R (wall_clock w (ticks w))
                :: ps), w'.
    split.
    { cbn [AIImageClassifier.predict_batch].
      rewrite (bind_run _ _ _ _ _ Hp). cbn [fst snd].
      rewrite (bind_run _ _ _ _ _ Hrun). reflexivity. }
    split; [exact Hst'|]. cbn [tick wall_clock ticks] in Hps, Hclk, Htk.
    split.
    { cbn [length seq map]. rewrite Nat.add_0_r. f_equal.
      rewrite Hps, <- seq_shift, map_map, Hclk1, Htk1.
      apply map_ext. intros i. do 2 f_equal. lia. }
    split; [congruence|]. cbn [length]. lia.
Qed.

(** X20. [predict_batch] returns one prediction per image, in order; on
    this classifier each names "Airplane" and is stamped with the next
    reading of the clock, and its confidence is [1 / num_classes] when the
    samples of its image lie in the pixel range [0, 255]; an empty batch
    returns the empty list and leaves the classifier untouched. *)
Theorem predict_batch_one_per_image
        (n : Z) (c : AIImageClassifier.t) (images : list ndarray) (w : World) :
  classifier_state n c -> (1 <= n)%Z ->
  exists c' ps w',
    AIImageClassifier.predict_batch c images w = inr ((c', ps), w') /\
    length ps = length images /\
    (forall i image, nth_error images i = Some image ->
       exists p, nth_error ps i = Some p /\
         class_name p = "Airplane" /\
         timestamp p = wall_clock w (ticks w + i) /\
         (pixel_range image -> confidence p = (1 / IZR n)%R)) /\
    ticks w' = ticks w + length images /\
    (images = [] -> c' = c /\ w' = w).
Proof.
  intros Hst Hn.
  destruct (predict_batch_run n images Hn c w Hst)
    as (c' & ps & w' & Hrun & _ & Hps & _ & Htk).
  exists c', ps, w'. split; [exact Hrun|].
  split; [rewrite Hps; now rewrite length_map, length_seq|].
  split.
  { intros i image Hi.
    assert (Hlt : i < length images).
    { apply nth_error_Some. rewrite Hi. discriminate. }
    eexists. split.
    - rewrite Hps, nth_error_map.
      rewrite (nth_error_nth' _ 0) by (now rewrite length_seq).
      rewrite seq_nth by exact Hlt. reflexivity.
    - cbn. split; [reflexivity|]. split; [reflexivity|].
      intros _. reflexivity. }
  split; [exact Htk|].
  intros ->. cbn in Hrun. unfold ret in Hrun. now injection Hrun as <- _ <-.
Qed.

Lemma predict_batch_one_per_image_witness :
  exists c' ps w',
    AIImageClassifier.predict_batch (classifier_of 10)
      [sample_image; gray_image; sample_image] world0
    = inr ((c', ps), w') /\
    length ps = 3 /\
    (forall i image,
       nth_error [sample_image; gray_image; sample_image] i = Some image ->
       exists p, nth_error ps i = Some p /\
         class_name p = "Airplane" /\
         timestamp p = wall_clock world0 (ticks world0 + i) /\
         (pixel_range image -> confidence p = (1 / 10)%R)) /\
    ticks w' = ticks world0 + 3 /\
    ([sample_image; gray_image; sample_image] = [] ->
     c' = classifier_of 10 /\ w' = world0).
Proof.
  apply (predict_batch_one_per_image 10 (classifier_of 10)
           [sample_image; gray_image; sample_image] world0).
  - apply classifier_of_state.
  - lia.
Defined.

(** ** More on the ranking *)

Lemma combine_map_seq_shift {A B : Type} (g : nat * A -> B) (l : list A) (k : nat) :
  map g (combine (map S (seq k (length l))) l)
  = map (fun ji => g (S (fst ji), snd ji)) (combine (seq k (length l)) l).
Proof.
  revert k. induction l as [|a l IH]; intros k; [reflexivity|].
  cbn [length seq map combine fst snd]. now rewrite IH.
Qed.

Lemma ranking_loop_full (classes : list string) (p : ndarray) (idxs : list nat) :
  Forall (fun i => i < length (data p)) idxs ->
  forall (acc : list Prediction) (w : World),
  exists w',
    for_each idxs
      (fun results idx =>
         if idx <? length classes then
           name <- lift (list_getitem classes idx) ;;
           conf <- lift (np_item p idx) ;;
           now <- datetime_now_isoformat ;;
           ret (results ++ [mkPrediction name conf now])
         else ret results)
      acc w
    = inr (acc ++ map (fun ji =>
                         mkPrediction (nth (snd ji) classes "Unknown")
                           (nth (snd ji) (data p) 0%R)
                           (wall_clock w (ticks w + fst ji)))
                      (combine (seq 0 (length (kept_indices classes idxs)))
                               (kept_indices classes idxs)),
           w') /\
    gauss w' = gauss w /\ drawn w' = drawn w /\
    wall_clock w' = wall_clock w /\
    ticks w' = ticks w + length (kept_indices classes idxs).
Proof.
  set (body := fun (results : list Prediction) (idx : nat) => _).
  induction 1 as [|i idxs Hi _ IH]; intros acc w.
  - exists w. cbn. unfold ret. rewrite app_nil_r. repeat split; lia.
  - cbn [for_each kept_indices filter]. fold (kept_indices classes idxs).
    destruct (Nat.ltb_spec i (length classes)) as [Hin | Hout].
    + destruct (IH (acc ++ [mkPrediction (nth i classes "Unknown")
                              (nth i (data p) 0%R) (wall_clock w (ticks w))])
                   (tick w))
        as (w' & Hrun & Hg & Hd & Hclk & Htk).
      exists w'. split.
      { rewrite (bind_run _ _ _ _ _
                   (ranking_body_kept classes p acc i w Hin Hi
                    : body acc i w = _)).
        rewrite Hrun, <- app_assoc.
        cbn [tick wall_clock ticks length seq combine map app fst snd].
        rewrite Nat.add_0_r. do 3 f_equal.
        rewrite <- seq_shift, combine_map_seq_shift. f_equal.
        apply map_ext. intros (j & idx). cbn [fst snd]. do 2 f_equal. lia. }
      cbn [tick gauss drawn wall_clock ticks] in Hg, Hd, Hclk, Htk.
      cbn [length]. repeat split; try assumption. lia.
    + destruct (IH acc w) as (w' & Hrun & Hrest).
      exists w'. split; [|exact Hrest].
      rewrite (bind_run _ _ _ _ _
                 (ranking_body_skipped classes p acc i w Hout
                  : body acc i w = _)).
      exact Hrun.
Qed.

Lemma NoDup_skipn {A : Type} (n : nat) (l : list A) :
  NoDup l -> NoDup (skipn n l).
Proof.
  intros H. rewrite <- (firstn_skipn n l) in H.
  now apply NoDup_app_remove_l in H.
Qed.

Lemma top_indices_NoDup (argsort : list R -> list nat) (p : list R) (k : Z) :
  Permutation (argsort p) (seq 0 (length p)) ->
  NoDup (top_indices argsort p k).
Proof.
  intros Hperm. unfold top_indices, py_reversed, py_slice_from.
  apply NoDup_rev, NoDup_skipn.
  apply (Permutation_NoDup (Permutation_sym Hperm)), seq_NoDup.
Qed.

Lemma classes_NoDup : NoDup AIImageClassifier.CLASSES.
Proof.
  assert (H : nodup string_dec AIImageClassifier.CLASSES
              = AIImageClassifier.CLASSES) by (vm_compute; reflexivity).
  rewrite <- H. apply NoDup_nodup.
Qed.

Lemma NoDup_map_nth {A : Type} (l : list A) (d : A) (idxs : list nat) :
  NoDup l -> NoDup idxs -> Forall (fun i => i < length l) idxs ->
  NoDup (map (fun i => nth i l d) idxs).
Proof.
  intros Hl Hidx Hall. induction Hidx as [|i idxs Hi Hidx IH]; [constructor|].
  inversion Hall as [|? ? Hlt Hrest]; subst. cbn [map]. constructor.
  - intros Hin. apply in_map_iff in Hin. destruct Hin as (j & Heq & Hj).
    rewrite Forall_forall in Hrest.
    apply (proj1 (NoDup_nth l d) Hl) in Heq; [subst; contradiction| |];
      auto.
  - now apply IH.
Qed.

Lemma combine_snd_seq {A : Type} (l : list A) (k : nat) :
  map snd (combine (seq k (length l)) l) = l.
Proof.
  revert k. induction l as [|a l IH]; intros k; [reflexivity|].
  cbn [length seq combine map snd]. now rewrite IH.
Qed.

Lemma combine_fst_seq {A : Type} (l : list A) (k : nat) :
  map fst (combine (seq k (length l)) l) = seq k (length l).
Proof.
  revert k. induction l as [|a l IH]; intros k; [reflexivity|].
  cbn [length seq combine map fst]. now rewrite IH.
Qed.

Lemma get_top_full_run (argsort : list R -> list nat) (n : Z)
      (c : AIImageClassifier.t) (image : ndarray) (w : World) (k : Z) :
  argsort_ok argsort -> classifier_state n c -> (1 <= n)%Z ->
  exists c' kept w',
    kept = kept_indices AIImageClassifier.CLASSES
             (top_indices argsort (repeat (1 / IZR n)%R (Z.to_nat n)) k) /\
    AIImageClassifier.get_top_predictions argsort c image k w
    = inr ((c',
            map (fun ji =>
                   mkPrediction (nth (snd ji) AIImageClassifier.CLASSES "Unknown")
                     (1 / IZR n)%R (wall_clock w (ticks w + fst ji)))
                (combine (seq 0 (length kept)) kept)),
           w') /\
    classifier_state n c' /\
    NoDup kept /\
    Forall (fun i => i < Z.to_nat n /\ i < length AIImageClassifier.CLASSES) kept /\
    wall_clock w' = wall_clock w /\ ticks w' = ticks w + length kept.
Proof.
  intros Hok Hst Hn.
  destruct (class_scores_run n c image w Hst Hn)
    as (processed & c' & x & w1 & _ & _ & _ & Hscores & Hunif & Hst' & Hclk & Htk).
  rewrite Hunif in Hscores.
  set (v := repeat (1 / IZR n)%R (Z.to_nat n)) in *.
  set (p := mkArray [Z.to_nat n] v) in *.
  pose proof (proj1 (Hok v)) as Hperm.
  pose proof (top_indices_in_range argsort v k Hperm) as Hrange.
  destruct (ranking_loop_full AIImageClassifier.CLASSES p
              (top_indices argsort v k) Hrange [] w1)
    as (w' & Hloop & _ & _ & Hclk' & Htk').
  set (kept := kept_indices AIImageClassifier.CLASSES (top_indices argsort v k))
    in *.
  assert (Hkept : Forall (fun i => i < Z.to_nat n
                                   /\ i < length AIImageClassifier.CLASSES) kept).
  { apply Forall_forall. intros i Hi. unfold kept, kept_indices in Hi.
    apply filter_In in Hi. destruct Hi as (Hi & Hlt).
    rewrite Forall_forall in Hrange. specialize (Hrange i Hi).
    unfold v in Hrange. rewrite repeat_length in Hrange.
    apply Nat.ltb_lt in Hlt. split; assumption. }
  destruct Hst' as (Hnum' & Hc' & Hlayers).
  exists c', kept, w'. split; [reflexivity|]. split.
  { unfold AIImageClassifier.get_top_predictions.
    rewrite (bind_run _ _ _ _ _ Hscores). cbn [fst snd].
    fold (top_indices argsort (data p) k). rewrite Hc'. cbn [data p].
    rewrite (bind_run _ _ _ _ _ Hloop). cbn [app]. unfold ret.
    do 3 f_equal. rewrite Hclk, Htk.
    apply map_ext_in. intros (j & i) Hji. cbn [fst snd].
    apply in_combine_r in Hji. rewrite Forall_forall in Hkept.
    destruct (Hkept i Hji) as (Hi & _).
    unfold p, v. cbn [data]. now rewrite nth_repeat_lt. }
  split; [unfold classifier_state; auto|].
  split.
  { unfold kept, kept_indices. apply NoDup_filter.
    now apply top_indices_NoDup. }
  split; [exact Hkept|]. split; congruence.
Qed.

(** X21. Whatever [top_k] is, the records [get_top_predictions] returns
    name pairwise distinct classes of the class table; there are at most
    ten of them; the clock is read once per record, in order; and each
    carries the confidence [1 / num_classes] when the samples of the image
    lie in the pixel range [0, 255]. *)
Theorem get_top_predictions_records
        (argsort : list R -> list nat) (n : Z) (c : AIImageClassifier.t)
        (image : ndarray) (w : World) (k : Z) :
  argsort_ok argsort -> classifier_state n c -> (1 <= n)%Z ->
  exists c' rs w',
    AIImageClassifier.get_top_predictions argsort c image k w
    = inr ((c', rs), w') /\
    NoDup (map class_name rs) /\
    Forall (fun r => In (class_name r) AIImageClassifier.CLASSES /\
                     (pixel_range image -> confidence r = (1 / IZR n)%R)) rs /\
    length rs <= 10 /\
    map timestamp rs
    = map (fun i => wall_clock w (ticks w + i)) (seq 0 (length rs)) /\
    ticks w' = ticks w + length rs.
Proof.
  intros Hok Hst Hn.
  destruct (get_top_full_run argsort n c image w k Hok Hst Hn)
    as (c' & kept & w' & _ & Hrun & _ & Hnd & Hkept & _ & Htk).
  eexists c', _, w'. split; [exact Hrun|].
  assert (Hlen : length (combine (seq 0 (length kept)) kept) = length kept)
    by (rewrite length_combine, length_seq; lia).
  rewrite length_map, Hlen.
  assert (Hkept' : Forall (fun i => i < length AIImageClassifier.CLASSES) kept)
    by (revert Hkept; apply Forall_impl; tauto).
  split.
  { rewrite map_map. cbn [class_name].
    rewrite <- (map_map snd (fun i => nth i AIImageClassifier.CLASSES "Unknown")).
    rewrite combine_snd_seq.
    apply NoDup_map_nth; [apply classes_NoDup | exact Hnd | exact Hkept']. }
  split.
  { apply Forall_forall. intros r Hr. apply in_map_iff in Hr.
    destruct Hr as ((j & i) & <- & Hji). cbn [class_name confidence fst snd].
    split; [|intros _; reflexivity]. apply nth_In.
    apply in_combine_r in Hji. rewrite Forall_forall in Hkept'. now apply Hkept'. }
  split.
  { change 10 with (length (seq 0 (length AIImageClassifier.CLASSES))).
    apply NoDup_incl_length; [exact Hnd|].
    intros i Hi. apply in_seq. rewrite Forall_forall in Hkept'.
    specialize (Hkept' i Hi). lia. }
  split; [|exact Htk].
  rewrite map_map. cbn [timestamp].
  rewrite <- (map_map fst (fun i => wall_clock w (ticks w + i))).
  now rewrite combine_fst_seq.
Qed.

Lemma get_top_predictions_records_witness :
  exists c' rs w',
    AIImageClassifier.get_top_predictions insertion_argsort (classifier_of 12)
      sample_image 5 world0
    = inr ((c', rs), w') /\
    NoDup (map class_name rs) /\
    Forall (fun r => In (class_name r) AIImageClassifier.CLASSES /\
                     (pixel_range sample_image -> confidence r = (1 / 12)%R))
           rs /\
    length rs <= 10 /\
    map timestamp rs
    = map (fun i => wall_clock world0 (ticks world0 + i)) (seq 0 (length rs)) /\
    ticks w' = ticks world0 + length rs.
Proof.
  apply (get_top_predictions_records insertion_argsort 12 (classifier_of 12)
           sample_image world0 5).
  - exact insertion_argsort_ok.
  - apply classifier_of_state.
  - lia.
Defined.

Lemma slice_length_positive (len : nat) (k : Z) :
  (1 <= k)%Z ->
  len - slice_start len (- k) = Nat.min (Z.to_nat k) len.
Proof.
  intros Hk. unfold slice_start. destruct (Z.ltb_spec (- k) 0); lia.
Qed.

Lemma get_top_count (argsort : list R -> list nat) (n : Z)
      (c : AIImageClassifier.t) (image : ndarray) (w : World) (k : Z) :
  argsort_ok argsort -> classifier_state n c -> (1 <= n <= 10)%Z ->
  exists c' rs w',
    AIImageClassifier.get_top_predictions argsort c image k w
    = inr ((c', rs), w') /\
    length rs = Z.to_nat n - slice_start (Z.to_nat n) (- k) /\
    (forall first rest, rs = first :: rest ->
       exists i, i < Z.to_nat n /\
                 first = mkPrediction (nth i AIImageClassifier.CLASSES "Unknown")
                           (1 / IZR n)%R (wall_clock w (ticks w))) /\
    Forall (fun r => confidence r = (1 / IZR n)%R) rs /\
    classifier_state n c' /\
    wall_clock w' = wall_clock w /\ ticks w' = ticks w + length rs.
Proof.
  intros Hok Hst Hn.
  destruct (get_top_full_run argsort n c image w k Hok Hst ltac:(lia))
    as (c' & kept & w' & Hkept & Hrun & Hst' & _ & Hall & Hclk & Htk).
  set (v := repeat (1 / IZR n)%R (Z.to_nat n)) in *.
  assert (Hlen : length (combine (seq 0 (length kept)) kept) = length kept)
    by (rewrite length_combine, length_seq; lia).
  eexists c', _, w'. split; [exact Hrun|]. rewrite length_map, Hlen.
  split.
  { rewrite Hkept, kept_indices_all.
    - rewrite (length_top_indices argsort v k (proj1 (Hok v))).
      unfold v. now rewrite repeat_length.
    - pose proof (top_indices_in_range argsort v k (proj1 (Hok v))) as Hr.
      revert Hr. apply Forall_impl. intros i Hi.
      unfold v in Hi. rewrite repeat_length in Hi.
      change (length AIImageClassifier.CLASSES) with (Z.to_nat 10). lia. }
  split.
  { intros first rest Heq. destruct kept as [|i kept']; [discriminate|].
    cbn in Heq. injection Heq as <- _. exists i.
    inversion Hall as [|? ? (Hi & _) _]; subst.
    split; [exact Hi|]. now rewrite Nat.add_0_r. }
  split.
  { apply Forall_forall. intros r Hr. apply in_map_iff in Hr.
    now destruct Hr as (ji & <- & _). }
  split; [exact Hst'|]. split; [exact Hclk | exact Htk].
Qed.

(** X22. With at most ten classes and [top_k >= 1], [get_top_predictions]
    returns exactly [min(top_k, num_classes)] records: asking for more
    classes than there are returns them all. *)
Theorem get_top_predictions_returns_min
        (argsort : list R -> list nat) (n : Z) (c : AIImageClassifier.t)
        (image : ndarray) (w : World) (k : Z) :
  argsort_ok argsort -> classifier_state n c ->
  (1 <= n <= 10)%Z -> (1 <= k)%Z ->
  exists c' rs w',
    AIImageClassifier.get_top_predictions argsort c image k w
    = inr ((c', rs), w') /\
    length rs = Z.to_nat (Z.min k n).
Proof.
  intros Hok Hst Hn Hk.
  destruct (get_top_count argsort n c image w k Hok Hst Hn)
    as (c' & rs & w' & Hrun & Hlen & _).
  exists c', rs, w'. split; [exact Hrun|]. rewrite Hlen.
  unfold slice_start. destruct (Z.ltb_spec (- k) 0); lia.
Qed.

Lemma get_top_predictions_returns_min_witness :
  exists c' rs w',
    AIImageClassifier.get_top_predictions insertion_argsort (classifier_of 4)
      sample_image 7 world0
    = inr ((c', rs), w') /\
    length rs = 4.
Proof.
  apply (get_top_predictions_returns_min insertion_argsort 4 (classifier_of 4)
           sample_image world0 7).
  - exact insertion_argsort_ok.
  - apply classifier_of_state.
  - lia.
  - lia.
Defined.

(** X23. A negative [top_k] is not refused: the slice [[-top_k:]] then
    starts at index [-top_k], so with at most ten classes the call returns
    [num_classes + top_k] records, the best ones, and none when that
    number is negative. *)
Theorem get_top_predictions_negative_top_k
        (argsort : list R -> list nat) (n : Z) (c : AIImageClassifier.t)
        (image : ndarray) (w : World) (k : Z) :
  argsort_ok argsort -> classifier_state n c ->
  (1 <= n <= 10)%Z -> (k < 0)%Z ->
  exists c' rs w',
    AIImageClassifier.get_top_predictions argsort c image k w
    = inr ((c', rs), w') /\
    length rs = Z.to_nat (n + k).
Proof.
  intros Hok Hst Hn Hk.
  destruct (get_top_count argsort n c image w k Hok Hst Hn)
    as (c' & rs & w' & Hrun & Hlen & _).
  exists c', rs, w'. split; [exact Hrun|]. rewrite Hlen.
  unfold slice_start. destruct (Z.ltb_spec (- k) 0); lia.
Qed.

Lemma get_top_predictions_negative_top_k_witness :
  exists c' rs w',
    AIImageClassifier.get_top_predictions insertion_argsort (classifier_of 10)
      sample_image (-2) world0
    = inr ((c', rs), w') /\
    length rs = 8.
Proof.
  apply (get_top_predictions_negative_top_k insertion_argsort 10
           (classifier_of 10) sample_image world0 (-2)).
  - exact insertion_argsort_ok.
  - apply classifier_of_state.
  - lia.
  - lia.
Defined.

(** ** More on [analyze_image] *)

Lemma classifier_state_four_layers (n : Z) (c : AIImageClassifier.t) :
  classifier_state n c ->
  AIImageClassifier.num_classes c = n /\ length (AIImageClassifier.model c) = 4.
Proof.
  intros (Hnum & _ & l1 & l2 & l3 & l4 & Hm & _). now rewrite Hm.
Qed.

(** X24. With one or two classes [analyze_image] does not fail and does
    not pad: the report lists [num_classes] predictions, fewer than three,
    the first of which is the primary prediction. *)
Theorem analyze_image_with_few_classes
        (argsort : list R -> list nat) (n : Z) (c : AIImageClassifier.t)
        (image : ndarray) (w : World) :
  argsort_ok argsort -> classifier_state n c -> (1 <= n <= 2)%Z ->
  exists c' r w',
    AIImageClassifier.analyze_image argsort c image w = inr ((c', r), w') /\
    length (all_predictions r) = Z.to_nat n /\
    nth_error (all_predictions r) 0 = Some (primary_prediction r).
Proof.
  intros Hok Hst Hn.
  destruct (get_top_count argsort n c image w 3 Hok Hst ltac:(lia))
    as (c' & rs & w' & Hrun & Hlen & _).
  assert (Hlen' : length rs = Z.to_nat n).
  { rewrite Hlen, (slice_length_positive (Z.to_nat n) 3) by lia. lia. }
  destruct rs as [|first rest]; [simpl in Hlen'; lia|].
  rewrite (analyze_after_top argsort c c' image w w' first rest Hrun).
  eexists _, _, _. split; [reflexivity|].
  cbn [all_predictions primary_prediction]. rewrite length_map.
  split; [exact Hlen' | reflexivity].
Qed.

Lemma analyze_image_with_few_classes_witness :
  exists c' r w',
    AIImageClassifier.analyze_image insertion_argsort (classifier_of 2)
      sample_image world0
    = inr ((c', r), w') /\
    length (all_predictions r) = 2 /\
    nth_error (all_predictions r) 0 = Some (primary_prediction r).
Proof.
  apply (analyze_image_with_few_classes insertion_argsort 2 (classifier_of 2)
           sample_image world0).
  - exact insertion_argsort_ok.
  - apply classifier_of_state.
  - lia.
Defined.

(** X25. With three to ten classes the report of [analyze_image] carries
    the number of classes, the tag "CNN" and the layer count 4; its
    primary prediction names a class of the table; the clock is read four
    times, the report's own timestamp being the last reading; and every
    listed confidence is [1 / num_classes] when the samples of the image
    lie in the pixel range [0, 255]. *)
Theorem analyze_image_report_fields
        (argsort : list R -> list nat) (n : Z) (c : AIImageClassifier.t)
        (image : ndarray) (w : World) :
  argsort_ok argsort -> classifier_state n c -> (3 <= n <= 10)%Z ->
  exists c' r w',
    AIImageClassifier.analyze_image argsort c image w = inr ((c', r), w') /\
    model_info r = (n, "CNN", 4) /\
    In (fst (primary_prediction r)) AIImageClassifier.CLASSES /\
    (pixel_range image ->
     Forall (fun e => snd e = (1 / IZR n)%R) (all_predictions r)) /\
    report_timestamp r = wall_clock w (ticks w + 3) /\
    ticks w' = ticks w + 4.
Proof.
  intros Hok Hst Hn.
  destruct (get_top_count argsort n c image w 3 Hok Hst ltac:(lia))
    as (c' & rs & w' & Hrun & Hlen & Hfirst & Hconf & Hst' & Hclk & Htk).
  assert (Hlen' : length rs = 3).
  { rewrite Hlen, (slice_length_positive (Z.to_nat n) 3) by lia. lia. }
  assert (Htk3 : ticks w' = ticks w + 3) by (now rewrite Htk, Hlen').
  destruct rs as [|first rest]; [discriminate|].
  destruct (Hfirst first rest eq_refl) as (i & Hi & Hfst).
  rewrite (analyze_after_top argsort c c' image w w' first rest Hrun).
  destruct (classifier_state_four_layers n c' Hst') as (Hnum & Hfour).
  eexists _, _, _. split; [reflexivity|].
  cbn [model_info primary_prediction all_predictions report_timestamp tick ticks].
  rewrite Hnum, Hfour, Hclk, Htk3.
  split; [reflexivity|]. split.
  { rewrite Hfst. cbn [class_name fst]. apply nth_In.
    change (length AIImageClassifier.CLASSES) with (Z.to_nat 10). lia. }
  split; [|split; [reflexivity | lia]]. intros _.
  apply Forall_forall. intros e He. apply in_map_iff in He.
  destruct He as (r & <- & Hr). rewrite Forall_forall in Hconf.
  now apply Hconf.
Qed.

Lemma analyze_image_report_fields_witness :
  exists c' r w',
    AIImageClassifier.analyze_image insertion_argsort (classifier_of 10)
      sample_image world0
    = inr ((c', r), w') /\
    model_info r = (10%Z, "CNN", 4) /\
    In (fst (primary_prediction r)) AIImageClassifier.CLASSES /\
    (pixel_range sample_image ->
     Forall (fun e => snd e = (1 / 10)%R) (all_predictions r)) /\
    report_timestamp r = wall_clock world0 (ticks world0 + 3) /\
    ticks w' = ticks world0 + 4.
Proof.
  apply (analyze_image_report_fields insertion_argsort 10 (classifier_of 10)
           sample_image world0).
  - exact insertion_argsort_ok.
  - apply classifier_of_state.
  - lia.
Defined.

Lemma bind_fails {A B : Type} (m : M A) (k : A -> M B) (w : World) (e : exn) :
  m w = inl e -> bind m k w = inl e.
Proof. intros H. unfold bind. now rewrite H. Qed.

Lemma class_scores_rejects_nonpositive (n : Z) (image : ndarray) (w : World) :
  (n <= 0)%Z ->
  AIImageClassifier.class_scores (classifier_of n) image w = inl ValueError.
Proof.
  intros Hn.
  destruct (preprocess_run image 224 224 ltac:(lia) ltac:(lia))
    as (r & _ & Hpre & Hshape & _).
  revert Hshape. generalize (Z.to_nat 224). intros h Hshape.
  assert (Hfresh : forall f k, layer_matches f k "relu"
                                 (CNNLayer.mk f k "relu" None None)).
  { intros f k. unfold layer_matches, zero_bias. simpl. auto. }
  destruct (relu_layer_step 32 3 _ (ImagePreprocessor.normalize r) w h h _
              (Hfresh 32%Z 3%Z) ltac:(lia) ltac:(lia) Hshape)
    as (l1' & y1 & w1 & R1 & _ & S1 & _).
  destruct (relu_layer_step 64 3 _ y1 w1 h h _
              (Hfresh 64%Z 3%Z) ltac:(lia) ltac:(lia) S1)
    as (l2' & y2 & w2 & R2 & _ & S2 & _).
  destruct (relu_layer_step 128 3 _ y2 w2 h h _
              (Hfresh 128%Z 3%Z) ltac:(lia) ltac:(lia) S2)
    as (l3' & y3 & w3 & R3 & _ & S3 & _).
  assert (R4 := softmax_layer_rejects n y3 w3
                  ltac:(rewrite S3; discriminate) Hn).
  unfold AIImageClassifier.class_scores,
    ImagePreprocessor.default_target_size.
  rewrite Hpre. unfold classifier_of.
  cbn [AIImageClassifier.model AIImageClassifier.forward_layers].
  py_step. rewrite R1. cbn [fst snd]. rewrite R2. cbn [fst snd].
  rewrite R3. cbn [fst snd]. rewrite R4. reflexivity.
Qed.

(** X27. A classifier built with [num_classes <= 0] is of no use to the
    ranking entry points either: [get_top_predictions], for every [top_k],
    and [analyze_image] fail with the ValueError of the last layer. *)
Theorem ranking_rejects_nonpositive_num_classes
        (argsort : list R -> list nat) (n : Z) (image : ndarray) (w : World)
        (k : Z) :
  (n <= 0)%Z ->
  AIImageClassifier.get_top_predictions argsort (classifier_of n) image k w
  = inl ValueError /\
  AIImageClassifier.analyze_image argsort (classifier_of n) image w
  = inl ValueError.
Proof.
  intros Hn.
  assert (Htop : forall k',
             AIImageClassifier.get_top_predictions argsort (classifier_of n)
               image k' w = inl ValueError).
  { intros k'. unfold AIImageClassifier.get_top_predictions.
    apply bind_fails. now apply class_scores_rejects_nonpositive. }
  split; [apply Htop|].
  unfold AIImageClassifier.analyze_image. apply bind_fails. apply Htop.
Qed.

Lemma ranking_rejects_nonpositive_num_classes_witness :
  AIImageClassifier.get_top_predictions insertion_argsort (classifier_of 0)
    sample_image 5 world0
  = inl ValueError /\
  AIImageClassifier.analyze_image insertion_argsort (classifier_of 0)
    sample_image world0
  = inl ValueError.
Proof.
  apply (ranking_rejects_nonpositive_num_classes insertion_argsort 0
           sample_image world0 5).
  lia.
Defined.
